(** * Token and session lifecycle of the Node.js boilerplate

    A shallow embedding of [services/auth/token.service.ts] and
    [services/auth/session.service.ts], together with the collaborators
    they call: the process-wide Redis client of [config/redis.ts], the
    validated environment of [config/env.schema.ts] and
    [config/security.ts], and the [jsonwebtoken] package.

    Effects are explicit.  A [World] holds the module-level Redis client
    and the wall clock; every operation is a function from the world to a
    result (a value or a thrown exception) and the world it leaves.  An
    operation runs at one instant: it reads the clock and does not advance
    it, and a statement about a later instant quantifies over a later
    clock and over the store as it is then.  What expiry alone leaves of
    an entry at a later instant is given by [lapse]. *)

From Stdlib Require Import ZArith String Ascii List Lia.
From stdpp Require Import base gmap strings list fin_maps.

Local Open Scope string_scope.
Local Open Scope Z_scope.

(** ** Exceptions *)

(** The exceptions that can travel through the two services.
    [AuthenticationError] is the class of [@utils/errors]; the others are
    raised by the runtime, the Redis client and [jsonwebtoken]. *)
Inductive exn : Type :=
| Error (message : string)
| SyntaxError (message : string)
| JsonWebTokenError (message : string)
| TokenExpiredError (message : string)
| AuthenticationError (message : string).

Inductive result (A : Type) : Type :=
| Ok (a : A)
| Throw (e : exn).
Arguments Ok {A} a.
Arguments Throw {A} e.

(** ** Compact serialisation

    Tokens and stored session records are strings.  The concrete syntax
    (base64url of JSON for tokens, JSON for records) is replaced by a
    prefix-free text format with the same reading and writing discipline:
    every writer takes the text that follows, every reader returns the
    value and the unread remainder. *)
Module Wire.

Definition reader (A : Type) : Type := string -> option (A * string).

Fixpoint put_string (s rest : string) : string :=
  match s with
  | EmptyString => String "." rest
  | String c s' => String "+" (String c (put_string s' rest))
  end.

Fixpoint get_string (inp : string) : option (string * string) :=
  match inp with
  | EmptyString => None
  | String a t =>
      if Ascii.eqb a "." then Some (EmptyString, t)
      else if Ascii.eqb a "+" then
        match t with
        | String c rest =>
            match get_string rest with
            | Some (s, r) => Some (String c s, r)
            | None => None
            end
        | EmptyString => None
        end
      else None
  end.

Fixpoint put_strings (l : list string) (rest : string) : string :=
  match l with
  | [] => String "]" rest
  | s :: l' => put_string s (put_strings l' rest)
  end.

Fixpoint get_strings (inp : string) : option (list string * string) :=
  match inp with
  | EmptyString => None
  | String a t =>
      if Ascii.eqb a "]" then Some ([], t)
      else if Ascii.eqb a "." then
        match get_strings t with
        | Some (l, r) => Some (EmptyString :: l, r)
        | None => None
        end
      else if Ascii.eqb a "+" then
        match t with
        | String c rest =>
            match get_strings rest with
            | Some (s :: l, r) => Some (String c s :: l, r)
            | _ => None
            end
        | EmptyString => None
        end
      else None
  end.

Fixpoint put_positive (p : positive) (rest : string) : string :=
  match p with
  | xH => String "H" rest
  | xO q => String "O" (put_positive q rest)
  | xI q => String "I" (put_positive q rest)
  end.

Fixpoint get_positive (inp : string) : option (positive * string) :=
  match inp with
  | EmptyString => None
  | String a t =>
      if Ascii.eqb a "H" then Some (xH, t)
      else if Ascii.eqb a "O" then
        match get_positive t with
        | Some (q, r) => Some (xO q, r)
        | None => None
        end
      else if Ascii.eqb a "I" then
        match get_positive t with
        | Some (q, r) => Some (xI q, r)
        | None => None
        end
      else None
  end.

Definition put_Z (z : Z) (rest : string) : string :=
  match z with
  | Z0 => String "0" rest
  | Zpos p => String "P" (put_positive p rest)
  | Zneg p => String "M" (put_positive p rest)
  end.

Definition get_Z (inp : string) : option (Z * string) :=
  match inp with
  | EmptyString => None
  | String a t =>
      if Ascii.eqb a "0" then Some (Z0, t)
      else if Ascii.eqb a "P" then
        match get_positive t with
        | Some (p, r) => Some (Zpos p, r)
        | None => None
        end
      else if Ascii.eqb a "M" then
        match get_positive t with
        | Some (p, r) => Some (Zneg p, r)
        | None => None
        end
      else None
  end.

(** An absent property ([undefined] is dropped by the writer). *)
Definition put_option {A} (put : A -> string -> string)
    (o : option A) (rest : string) : string :=
  match o with
  | None => String "N" rest
  | Some x => String "S" (put x rest)
  end.

Definition get_option {A} (get : reader A) : reader (option A) :=
  fun inp =>
    match inp with
    | EmptyString => None
    | String a t =>
        if Ascii.eqb a "N" then Some (None, t)
        else if Ascii.eqb a "S" then
          match get t with
          | Some (x, r) => Some (Some x, r)
          | None => None
          end
        else None
    end.

Definition bind {A B} (g : reader A) (k : A -> reader B) : reader B :=
  fun inp =>
    match g inp with
    | Some (x, r) => k x r
    | None => None
    end.

Definition ret {A} (x : A) : reader A := fun inp => Some (x, inp).

(** A reader undoes its writer. *)
Definition inverse {A} (put : A -> string -> string) (get : reader A) : Prop :=
  forall x rest, get (put x rest) = Some (x, rest).

End Wire.


(** ** Timespans: the [ms] package

    [jsonwebtoken] reads the [expiresIn] option through [ms].  This is the
    fragment of its grammar that the configuration uses: an unsigned
    decimal number followed by an optional short unit.  A bare number is a
    number of milliseconds. *)
Module ms.

Definition digit (c : ascii) : option Z :=
  let n := Z.of_N (N_of_ascii c) in
  if (48 <=? n) && (n <=? 57) then Some (n - 48) else None.

Fixpoint number (acc : Z) (s : string) : Z * string :=
  match s with
  | EmptyString => (acc, s)
  | String c t =>
      match digit c with
      | Some d => number (acc * 10 + d) t
      | None => (acc, s)
      end
  end.

Definition s_ : Z := 1000.
Definition m_ : Z := s_ * 60.
Definition h_ : Z := m_ * 60.
Definition d_ : Z := h_ * 24.
Definition w_ : Z := d_ * 7.

Definition unit (u : string) : option Z :=
  if String.eqb u "" then Some 1
  else if String.eqb u "ms" then Some 1
  else if String.eqb u "s" then Some s_
  else if String.eqb u "m" then Some m_
  else if String.eqb u "h" then Some h_
  else if String.eqb u "d" then Some d_
  else if String.eqb u "w" then Some w_
  else None.

(** [ms(str)]: the number of milliseconds, or [undefined]. *)
Definition parse (str : string) : option Z :=
  match str with
  | EmptyString => None
  | String c _ =>
      match digit c with
      | None => None
      | Some _ =>
          let (n, u) := number 0 str in
          match unit u with
          | Some k => Some (n * k)
          | None => None
          end
      end
  end.

End ms.

(** ** JavaScript numbers

    Only integers and [NaN] arise: seconds, milliseconds, and arithmetic
    on a property that is absent. *)
Inductive number : Type :=
| Num (z : Z)
| NaN.

Definition toNumber (o : option Z) : number :=
  match o with
  | Some z => Num z
  | None => NaN
  end.

Definition number_sub (a b : number) : number :=
  match a, b with
  | Num x, Num y => Num (x - y)
  | _, _ => NaN
  end.

Definition number_mul (a b : number) : number :=
  match a, b with
  | Num x, Num y => Num (x * y)
  | _, _ => NaN
  end.

(** Truthiness of an optional numeric property: [undefined] and [0] are
    falsy. *)
Definition truthy (o : option Z) : bool :=
  match o with
  | Some z => negb (z =? 0)
  | None => false
  end.

(** ** The key-value store and the world *)

(** A stored value with the time-to-live, in seconds, that the write
    attached to it; a key written without one carries [-1], as the server
    reports it.  Expiry is the server's business: it removes the entry
    once the time-to-live has run out ([held] below), and the services
    only ever see an entry or its absence. *)
Record Entry : Type := {
  value : string;
  ttl : Z
}.

(** [Number.MAX_SAFE_INTEGER]: up to it the whole numbers of the runtime
    and their sums and differences are exact. *)
Definition MAX_SAFE_INTEGER : Z := 9007199254740991.

(** The connection made by [initializeRedis]: whether the socket is
    open, and the keyspace behind it. *)
Record RedisClient : Type := {
  isOpen : bool;
  keyspace : gmap string Entry
}.

(** [redisClient] is the module variable of [config/redis.ts] ([null]
    until [initializeRedis] has run); [clock] is what [Date.now()] reads,
    in milliseconds. *)
Record World : Type := {
  redisClient : option RedisClient;
  clock : Z
}.

(** ** Computations: state and exceptions *)
Definition IO (A : Type) : Type := World -> result A * World.

Definition ret {A} (a : A) : IO A := fun w => (Ok a, w).

Definition throw {A} (e : exn) : IO A := fun w => (Throw e, w).

Definition bind {A B} (m : IO A) (k : A -> IO B) : IO B :=
  fun w =>
    match m w with
    | (Ok a, w') => k a w'
    | (Throw e, w') => (Throw e, w')
    end.

(** [try { m } catch (error) { handler error }] *)
Definition try_catch {A} (m : IO A) (handler : exn -> IO A) : IO A :=
  fun w =>
    match m w with
    | (Ok a, w') => (Ok a, w')
    | (Throw e, w') => handler e w'
    end.

Notation "x <- m ;; k" := (bind m (fun x => k))
  (at level 100, m at next level, right associativity).
Notation "m ;;; k" := (bind m (fun _ => k))
  (at level 100, right associativity).

(** [for (const x of xs) { body x }] *)
Fixpoint for_of {A} (xs : list A) (body : A -> IO unit) : IO unit :=
  match xs with
  | [] => ret tt
  | x :: xs' => body x ;;; for_of xs' body
  end.

(** [Date.now()] *)
Definition Date_now : IO Z := fun w => (Ok (clock w), w).

(** [getRedisClient()] of [config/redis.ts]. *)
Definition getRedisClient : IO unit :=
  fun w =>
    match redisClient w with
    | None =>
        (Throw (Error "Redis client not initialized. Call initializeRedis first."), w)
    | Some _ => (Ok tt, w)
    end.

(** The four commands the services send.  A closed client rejects every
    command. *)
Module redis.

Definition closed : exn := Error "The client is closed".

Definition with_client {A} (f : gmap string Entry -> result A * gmap string Entry) : IO A :=
  fun w =>
    match redisClient w with
    | Some c =>
        if isOpen c then
          let (r, ks) := f (keyspace c) in
          (r, {| redisClient := Some {| isOpen := true; keyspace := ks |};
                 clock := clock w |})
        else (Throw closed, w)
    | None => (Throw closed, w)
    end.

Definition get (key : string) : IO (option string) :=
  with_client (fun ks => (Ok (value <$> ks !! key), ks)).

(** The server reads the time-to-live as a signed 64-bit integer, and
    keeps deadlines in milliseconds in one as well. *)
Definition LLONG_MAX : Z := 9223372036854775807.

(** [SETEX key seconds value].  The client sends the number as text; the
    server refuses text that is not a 64-bit integer, then a time-to-live
    that is not positive or whose milliseconds would not fit. *)
Definition setEx (key : string) (seconds : Z) (v : string) : IO unit :=
  with_client (fun ks =>
    if (seconds <? - LLONG_MAX - 1) || (LLONG_MAX <? seconds)
    then (Throw (Error "ERR value is not an integer or out of range"), ks)
    else if (seconds <=? 0) || (LLONG_MAX / 1000 <? seconds)
    then (Throw (Error "ERR invalid expire time in 'setex' command"), ks)
    else (Ok tt, <[key := {| value := v; ttl := seconds |}]> ks)).

Definition del (key : string) : IO unit :=
  with_client (fun ks => (Ok tt, delete key ks)).

(** Glob patterns with literal characters and [*]. *)
Fixpoint glob (pattern : string) : string -> bool :=
  match pattern with
  | EmptyString => fun s => String.eqb s ""
  | String p pattern' =>
      if Ascii.eqb p "*" then
        fix star (s : string) : bool :=
          glob pattern' s ||
          match s with
          | EmptyString => false
          | String _ s' => star s'
          end
      else
        fun s =>
          match s with
          | EmptyString => false
          | String c s' => Ascii.eqb p c && glob pattern' s'
          end
  end.

Definition keys (pattern : string) : IO (list string) :=
  with_client (fun ks =>
    (Ok (filter (fun k => glob pattern k = true) (map_to_list ks).*1), ks)).

End redis.

(** The world in which [initializeRedis] has succeeded and the socket is
    open, with the given keyspace and clock. *)
Definition connected (ks : gmap string Entry) (now : Z) : World :=
  {| redisClient := Some {| isOpen := true; keyspace := ks |};
     clock := now |}.

(** ** Expiry

    The server keeps, with an entry that has a time-to-live, the deadline
    [written + ttl * 1000] in milliseconds, and the entry is gone once
    the server's clock has passed the deadline.  The server's clock is
    taken to be the one [Date.now()] reads. *)

(** An entry written at the instant [written] is still in the store at
    [instant]. *)
Definition held (written : Z) (e : Entry) (instant : Z) : bool :=
  (ttl e <? 0) || (instant <=? written + ttl e * 1000).

(** What is under a key at [instant] when [o] was under it at [written]
    and nothing but expiry has touched the key since. *)
Definition lapse (written : Z) (o : option Entry) (instant : Z) : option Entry :=
  match o with
  | Some e => if held written e instant then Some e else None
  | None => None
  end.

(** ** The [jsonwebtoken] package

    A token is the serialised payload followed by its signature.  The
    signature is symbolic: it names the key that made it, so it checks
    against that key and no other. *)
Module jwt.

Record Payload : Type := {
  userId : option string;
  email : option string;
  roles : option (list string);
  type : option string;
  iat : option Z;
  exp : option Z
}.

Definition put_payload (p : Payload) (rest : string) : string :=
  Wire.put_option Wire.put_string (userId p)
    (Wire.put_option Wire.put_string (email p)
      (Wire.put_option Wire.put_strings (roles p)
        (Wire.put_option Wire.put_string (type p)
          (Wire.put_option Wire.put_Z (iat p)
            (Wire.put_option Wire.put_Z (exp p) rest))))).

Definition get_payload : Wire.reader Payload :=
  Wire.bind (Wire.get_option Wire.get_string) (fun u =>
  Wire.bind (Wire.get_option Wire.get_string) (fun e =>
  Wire.bind (Wire.get_option Wire.get_strings) (fun r =>
  Wire.bind (Wire.get_option Wire.get_string) (fun t =>
  Wire.bind (Wire.get_option Wire.get_Z) (fun i =>
  Wire.bind (Wire.get_option Wire.get_Z) (fun x =>
  Wire.ret {| userId := u; email := e; roles := r; type := t;
              iat := i; exp := x |})))))).

Definition encode (p : Payload) (key : string) : string :=
  put_payload p (Wire.put_string key "").

(** The payload and the signature of a well-formed token. *)
Definition parse (token : string) : option (Payload * string) :=
  match Wire.bind get_payload
          (fun p => Wire.bind Wire.get_string (fun k => Wire.ret (p, k))) token with
  | Some (pk, EmptyString) => Some pk
  | _ => None
  end.

(** [lib/timespan.js]: the [exp] for a string [expiresIn]. *)
Definition timespan (time : string) (iat : Z) : option Z :=
  match ms.parse time with
  | Some milliseconds => Some (iat + milliseconds / 1000)
  | None => None
  end.

(** [jwt.sign(payload, secretOrPrivateKey, { expiresIn })] *)
Definition sign (payload : Payload) (secretOrPrivateKey : string)
    (expiresIn : string) : IO string :=
  if String.eqb secretOrPrivateKey "" then
    throw (Error "secretOrPrivateKey must have a value")
  else
    now <- Date_now ;;
    let timestamp :=
      match iat payload with
      | Some i => if i =? 0 then now / 1000 else i
      | None => now / 1000
      end in
    match exp payload with
    | Some _ =>
        throw (Error "Bad options.expiresIn option the payload already has an exp property.")
    | None =>
        match timespan expiresIn timestamp with
        | None =>
            throw (Error "expiresIn should be a number of seconds or string representing a timespan")
        | Some e =>
            ret (encode {| userId := userId payload; email := email payload;
                           roles := roles payload; type := type payload;
                           iat := Some timestamp; exp := Some e |}
                        secretOrPrivateKey)
        end
    end.

(** [jwt.verify(token, secretOrPublicKey)] *)
Definition verify (token : string) (secretOrPublicKey : string) : IO Payload :=
  now <- Date_now ;;
  let clockTimestamp := now / 1000 in
  if String.eqb token "" then throw (JsonWebTokenError "jwt must be provided")
  else
    match parse token with
    | None => throw (JsonWebTokenError "jwt malformed")
    | Some (payload, signature) =>
        if String.eqb secretOrPublicKey "" then
          throw (JsonWebTokenError "secret or public key must be provided")
        else if negb (String.eqb signature secretOrPublicKey) then
          throw (JsonWebTokenError "invalid signature")
        else
          match exp payload with
          | Some e =>
              if e <=? clockTimestamp then throw (TokenExpiredError "jwt expired")
              else ret payload
          | None => ret payload
          end
    end.

(** [jwt.decode(token)]: the payload, unverified, or [null]. *)
Definition decode (token : string) : option Payload :=
  match parse token with
  | Some (payload, _) => Some payload
  | None => None
  end.

End jwt.

(** ** Configuration *)

(** The token settings of [process.env]. *)
Record ProcessEnv : Type := {
  env_JWT_ACCESS_SECRET : option string;
  env_JWT_REFRESH_SECRET : option string;
  env_JWT_ACCESS_EXPIRY : option string;
  env_JWT_REFRESH_EXPIRY : option string
}.

Record EnvConfig : Type := {
  JWT_ACCESS_SECRET : string;
  JWT_REFRESH_SECRET : string;
  JWT_ACCESS_EXPIRY : string;
  JWT_REFRESH_EXPIRY : string
}.

(** [z.string().min(n)] *)
Definition z_string_min (n : nat) (o : option string) : option string :=
  match o with
  | Some s => if (n <=? String.length s)%nat then Some s else None
  | None => None
  end.

(** [z.string().default(d)] *)
Definition z_string_default (d : string) (o : option string) : string :=
  match o with
  | Some s => s
  | None => d
  end.

(** [envSchema.parse(process.env)], for the four token settings. *)
Definition envSchema (e : ProcessEnv) : option EnvConfig :=
  match z_string_min 32 (env_JWT_ACCESS_SECRET e),
        z_string_min 32 (env_JWT_REFRESH_SECRET e) with
  | Some a, Some r =>
      Some {| JWT_ACCESS_SECRET := a;
              JWT_REFRESH_SECRET := r;
              JWT_ACCESS_EXPIRY := z_string_default "15m" (env_JWT_ACCESS_EXPIRY e);
              JWT_REFRESH_EXPIRY := z_string_default "7d" (env_JWT_REFRESH_EXPIRY e) |}
  | _, _ => None
  end.

Record SecurityConfig : Type := {
  jwtAccessSecret : string;
  jwtRefreshSecret : string;
  jwtAccessExpiry : string;
  jwtRefreshExpiry : string
}.

Definition createSecurityConfig (env : EnvConfig) : SecurityConfig :=
  {| jwtAccessSecret := JWT_ACCESS_SECRET env;
     jwtRefreshSecret := JWT_REFRESH_SECRET env;
     jwtAccessExpiry := JWT_ACCESS_EXPIRY env;
     jwtRefreshExpiry := JWT_REFRESH_EXPIRY env |}.

(** ** [TokenService] *)

Record AuthTokens : Type := {
  accessToken : string;
  refreshToken : string;
  expiresIn : number
}.

(** [decoded.exp ? (decoded.exp - decoded.iat) * 1000 : 0] *)
Definition expiry_of (decoded : jwt.Payload) : number :=
  if truthy (jwt.exp decoded)
  then number_mul (number_sub (toNumber (jwt.exp decoded)) (toNumber (jwt.iat decoded)))
                  (Num 1000)
  else Num 0.

Module TokenService.
Section WithConfig.

(** [getConfig().security] *)
Variable security : SecurityConfig.

Definition generateAccessToken (userId email : string) (roles : list string)
  : IO string :=
  let payload :=
    {| jwt.userId := Some userId; jwt.email := Some email;
       jwt.roles := Some roles; jwt.type := None;
       jwt.iat := None; jwt.exp := None |} in
  jwt.sign payload (jwtAccessSecret security) (jwtAccessExpiry security).

Definition generateRefreshToken (userId : string) : IO string :=
  jwt.sign {| jwt.userId := Some userId; jwt.email := None;
              jwt.roles := None; jwt.type := Some "refresh";
              jwt.iat := None; jwt.exp := None |}
           (jwtRefreshSecret security) (jwtRefreshExpiry security).

(** [jwt.decode(token) as TokenPayload], then a property read: reading a
    property of [null] is a [TypeError]. *)
Definition decoded_payload (token : string) : IO jwt.Payload :=
  match jwt.decode token with
  | Some decoded => ret decoded
  | None => throw (Error "Cannot read properties of null")
  end.

Definition generateTokenPair (userId email : string) (roles : list string)
  : IO AuthTokens :=
  accessToken <- generateAccessToken userId email roles ;;
  refreshToken <- generateRefreshToken userId ;;
  decoded <- decoded_payload accessToken ;;
  let expiresIn := expiry_of decoded in
  ret {| accessToken := accessToken;
         refreshToken := refreshToken;
         expiresIn := expiresIn |}.

(** [secret || config.security.jwtAccessSecret] *)
Definition secret_or_access (secret : option string) : string :=
  match secret with
  | Some s => if String.eqb s "" then jwtAccessSecret security else s
  | None => jwtAccessSecret security
  end.

Definition verifyToken (token : string) (secret : option string)
  : IO jwt.Payload :=
  try_catch
    (decoded <- jwt.verify token (secret_or_access secret) ;;
     ret decoded)
    (fun error => throw (AuthenticationError "Invalid or expired token")).

Definition revoked_key (token : string) : string :=
  "token:revoked:" +:+ token.

Definition isTokenRevoked (token : string) : IO bool :=
  try_catch
    (getRedisClient ;;;
     result <- redis.get (revoked_key token) ;;
     ret (bool_decide (result = Some "1")))
    (fun error => ret false).

Definition refreshAccessToken (refreshToken : string) : IO (string * number) :=
  try_catch
    (decoded <- jwt.verify refreshToken (jwtRefreshSecret security) ;;
     if negb (bool_decide (jwt.type decoded = Some "refresh")) then
       throw (AuthenticationError "Invalid token type")
     else
       isRevoked <- isTokenRevoked refreshToken ;;
       if isRevoked then
         throw (AuthenticationError "Token has been revoked")
       else
         accessToken <-
           jwt.sign {| jwt.userId := jwt.userId decoded; jwt.email := None;
                       jwt.roles := None; jwt.type := None;
                       jwt.iat := None; jwt.exp := None |}
                    (jwtAccessSecret security) (jwtAccessExpiry security) ;;
         decodedAccess <- decoded_payload accessToken ;;
         let expiresIn := expiry_of decodedAccess in
         ret (accessToken, expiresIn))
    (fun error => throw (AuthenticationError "Failed to refresh token")).

Definition revokeToken (token : string) : IO unit :=
  try_catch
    (match jwt.decode token with
     | None => ret tt
     | Some decoded =>
         match jwt.exp decoded with
         | None => ret tt
         | Some exp =>
             if exp =? 0 then ret tt
             else
               getRedisClient ;;;
               now <- Date_now ;;
               let ttl := exp - now / 1000 in
               if 0 <? ttl
               then redis.setEx (revoked_key token) ttl "1"
               else ret tt
         end
     end)
    (fun error => ret tt).

End WithConfig.
End TokenService.

(** ** [SessionService] *)

(** A [Date] is its epoch time in milliseconds. *)
Record Session : Type := {
  id : string;
  userId : string;
  createdAt : Z;
  expiresAt : Z;
  lastActivityAt : Z;
  ipAddress : option string;
  userAgent : option string
}.

(** [JSON.stringify(session)] *)
Definition JSON_stringify (s : Session) : string :=
  Wire.put_string (id s)
    (Wire.put_string (userId s)
      (Wire.put_Z (createdAt s)
        (Wire.put_Z (expiresAt s)
          (Wire.put_Z (lastActivityAt s)
            (Wire.put_option Wire.put_string (ipAddress s)
              (Wire.put_option Wire.put_string (userAgent s) "")))))).

Definition get_session : Wire.reader Session :=
  Wire.bind Wire.get_string (fun i =>
  Wire.bind Wire.get_string (fun u =>
  Wire.bind Wire.get_Z (fun c =>
  Wire.bind Wire.get_Z (fun e =>
  Wire.bind Wire.get_Z (fun l =>
  Wire.bind (Wire.get_option Wire.get_string) (fun a =>
  Wire.bind (Wire.get_option Wire.get_string) (fun g =>
  Wire.ret {| id := i; userId := u; createdAt := c; expiresAt := e;
              lastActivityAt := l; ipAddress := a; userAgent := g |}))))))).

(** The record a stored text stands for, if it is one. *)
Definition session_of (data : string) : option Session :=
  match get_session data with
  | Some (s, EmptyString) => Some s
  | _ => None
  end.

(** [JSON.parse(data) as Session]; text that does not parse is a
    [SyntaxError]. *)
Definition JSON_parse (data : string) : IO Session :=
  match session_of data with
  | Some s => ret s
  | None => throw (SyntaxError "Unexpected token in JSON")
  end.

Module SessionService.

Definition SESSION_PREFIX : string := "session:".
Definition SESSION_TTL : Z := 7 * 24 * 60 * 60.

Definition session_key (sessionId : string) : string :=
  SESSION_PREFIX +:+ sessionId.

(** [uuidv4()] is the one random choice; its outcome is an argument. *)
Definition createSession (uuidv4 : string) (userId : string)
    (ipAddress userAgent : option string) : IO Session :=
  getRedisClient ;;;
  let sessionId := uuidv4 in
  now <- Date_now ;;
  let expiresAt := now + SESSION_TTL * 1000 in
  let session :=
    {| id := sessionId; userId := userId; createdAt := now;
       expiresAt := expiresAt; lastActivityAt := now;
       ipAddress := ipAddress; userAgent := userAgent |} in
  redis.setEx (session_key sessionId) SESSION_TTL (JSON_stringify session) ;;;
  ret session.

Definition getSession (sessionId : string) : IO (option Session) :=
  getRedisClient ;;;
  data <- redis.get (session_key sessionId) ;;
  match data with
  | Some d =>
      if String.eqb d "" then ret None
      else (s <- JSON_parse d ;; ret (Some s))
  | None => ret None
  end.

Definition with_lastActivityAt (s : Session) (t : Z) : Session :=
  {| id := id s; userId := userId s; createdAt := createdAt s;
     expiresAt := expiresAt s; lastActivityAt := t;
     ipAddress := ipAddress s; userAgent := userAgent s |}.

Definition updateActivity (sessionId : string) : IO unit :=
  getRedisClient ;;;
  session <- getSession sessionId ;;
  match session with
  | None => ret tt
  | Some session =>
      now <- Date_now ;;
      let session := with_lastActivityAt session now in
      redis.setEx (session_key sessionId) SESSION_TTL (JSON_stringify session)
  end.

Definition revokeSession (sessionId : string) : IO unit :=
  getRedisClient ;;;
  redis.del (session_key sessionId).

(** The body of the loop of [revokeAllUserSessions]. *)
Definition revoke_if_owned (userId_ : string) (key : string) : IO unit :=
  data <- redis.get key ;;
  match data with
  | Some d =>
      if String.eqb d "" then ret tt
      else
        session <- JSON_parse d ;;
        if String.eqb (userId session) userId_
        then redis.del key
        else ret tt
  | None => ret tt
  end.

Definition revokeAllUserSessions (userId_ : string) : IO unit :=
  getRedisClient ;;;
  keys <- redis.keys (SESSION_PREFIX +:+ "*") ;;
  for_of keys (revoke_if_owned userId_).

(** The loop of [getUserSessions]: [sessions] grows by [push]. *)
Fixpoint collect (userId_ : string) (keys : list string) (sessions : list Session)
  : IO (list Session) :=
  match keys with
  | [] => ret sessions
  | key :: keys' =>
      data <- redis.get key ;;
      match data with
      | Some d =>
          if String.eqb d "" then collect userId_ keys' sessions
          else
            session <- JSON_parse d ;;
            if String.eqb (userId session) userId_
            then collect userId_ keys' (sessions ++ [session])
            else collect userId_ keys' sessions
      | None => collect userId_ keys' sessions
      end
  end.

Definition getUserSessions (userId_ : string) : IO (list Session) :=
  getRedisClient ;;;
  keys <- redis.keys (SESSION_PREFIX +:+ "*") ;;
  collect userId_ keys [].

End SessionService.

(** ** Vocabulary of the statements *)

(** The entry is the record of a session of [userId_]: what the loops of
    [revokeAllUserSessions] and [getUserSessions] test for. *)
Definition owned_by (userId_ : string) (o : option Entry) : bool :=
  match o with
  | Some entry =>
      if String.eqb (value entry) "" then false
      else match session_of (value entry) with
           | Some session => String.eqb (userId session) userId_
           | None => false
           end
  | None => false
  end.

(** The session of [userId_] that the entry under [key] holds, if it
    holds one: what [getUserSessions] pushes for that key. *)
Definition session_for (userId_ : string) (ks : gmap string Entry) (key : string)
  : option Session :=
  match ks !! key with
  | Some entry =>
      if String.eqb (value entry) "" then None
      else match session_of (value entry) with
           | Some session =>
               if String.eqb (userId session) userId_ then Some session else None
           | None => None
           end
  | None => None
  end.

(** Every non-empty value under the session prefix is a session record:
    the state the session registry's own writes keep the store in. *)
Definition well_formed_sessions (ks : gmap string Entry) : Prop :=
  forall key entry,
    redis.glob (SessionService.SESSION_PREFIX +:+ "*") key = true ->
    ks !! key = Some entry ->
    String.eqb (value entry) "" = false ->
    is_Some (session_of (value entry)).

(** ** [middlewares/auth.middleware.ts] *)

(** [req.user].  The declared type has strings everywhere; what the
    middleware stores is whatever the verified payload holds, so a claim
    the token lacks is a property that is [undefined]. *)
Module Express.

Record User : Type := {
  id : option string;
  email : option string;
  roles : option (list string);
  permissions : list string
}.

End Express.

(** [s.substring(n)] *)
Fixpoint substring_from (n : nat) (s : string) : string :=
  match n, s with
  | O, _ => s
  | S n', String _ t => substring_from n' t
  | S _, EmptyString => EmptyString
  end.

(** The two middlewares report through [next]: [Ok user] is [req.user]
    set and [next()] called, [Throw e] is [next(e)]. *)
Module AuthMiddleware.
Section WithConfig.

(** [getConfig().security] *)
Variable security : SecurityConfig.

(** The message of [new AuthenticationError()], set in [@utils/errors]. *)
Variable defaultMessage : string.

Definition user_of_payload (decoded : jwt.Payload) : Express.User :=
  {| Express.id := jwt.userId decoded;
     Express.email := jwt.email decoded;
     Express.roles := jwt.roles decoded;
     Express.permissions := [] |}.

(** [authHeader && authHeader.startsWith('Bearer ')] *)
Definition is_bearer (authorization : option string) : bool :=
  match authorization with
  | Some authHeader =>
      negb (String.eqb authHeader "") && String.prefix "Bearer " authHeader
  | None => false
  end.

Definition authMiddleware (authorization : option string) : IO Express.User :=
  try_catch
    (if negb (is_bearer authorization) then
       throw (AuthenticationError "Missing or invalid authorization header")
     else
       let token := substring_from 7 (default "" authorization) in
       decoded <- jwt.verify token (jwtAccessSecret security) ;;
       ret (user_of_payload decoded))
    (fun error => throw (AuthenticationError defaultMessage)).

Definition optionalAuthMiddleware (authorization : option string)
  : IO (option Express.User) :=
  try_catch
    (if is_bearer authorization then
       let token := substring_from 7 (default "" authorization) in
       decoded <- jwt.verify token (jwtAccessSecret security) ;;
       ret (Some (user_of_payload decoded))
     else ret None)
    (fun error => ret None).

End WithConfig.
End AuthMiddleware.

(** ** [utils/constants.ts] *)
Module USER_ROLES.

Definition ADMIN : string := "admin".
Definition USER : string := "user".
Definition GUEST : string := "guest".
Definition SERVICE : string := "service".

End USER_ROLES.

Module CACHE_KEYS.

Definition USER_PROFILE (userId : string) : string :=
  "user:" +:+ userId +:+ ":profile".

End CACHE_KEYS.

(** [array.includes(x)] *)
Definition includes (l : list string) (x : string) : bool :=
  existsb (String.eqb x) l.

(** ** [user.policy.ts]

    [user.roles.includes(...)] on a user without [roles] is a
    [TypeError]. *)
Module UserPolicy.

Definition is_admin (user : Express.User) : result bool :=
  match Express.roles user with
  | Some roles => Ok (includes roles USER_ROLES.ADMIN)
  | None => Throw (Error "Cannot read properties of undefined (reading 'includes')")
  end.

Definition is_self (user : Express.User) (targetUserId : string) : bool :=
  bool_decide (Express.id user = Some targetUserId).

Definition admin_or_self (user : Express.User) (targetUserId : string) : result bool :=
  match is_admin user with
  | Throw e => Throw e
  | Ok true => Ok true
  | Ok false => if is_self user targetUserId then Ok true else Ok false
  end.

Definition canViewUser (user : option Express.User) (targetUserId : string)
  : result bool :=
  match user with
  | None => Ok false
  | Some user => admin_or_self user targetUserId
  end.

Definition canUpdateUser (user : option Express.User) (targetUserId : string)
  : result bool :=
  match user with
  | None => Ok false
  | Some user => admin_or_self user targetUserId
  end.

Definition canDeleteUser (user : option Express.User) (targetUserId : string)
  : result bool :=
  match user with
  | None => Ok false
  | Some user => admin_or_self user targetUserId
  end.

Definition canListUsers (user : option Express.User) : result bool :=
  match user with
  | None => Ok false
  | Some user => is_admin user
  end.

Definition canChangePassword (user : option Express.User) (targetUserId : string)
  : result bool :=
  match user with
  | None => Ok false
  | Some user =>
      if is_self user targetUserId then Ok true
      else match is_admin user with
           | Throw e => Throw e
           | Ok true => Ok true
           | Ok false => Ok false
           end
  end.

End UserPolicy.

(** ** [middlewares/permission.middleware.ts] *)

(** What a permission middleware passes to [next]: nothing, or an
    [AuthorizationError] with its message. *)
Inductive next : Type :=
| Next
| NextAuthorizationError (message : string).

Definition requirePermission (permission : string) (user : option Express.User)
  : result next :=
  match user with
  | None => Ok (NextAuthorizationError "User not authenticated")
  | Some user =>
      if negb (includes (Express.permissions user) permission)
      then Ok (NextAuthorizationError "Insufficient permissions")
      else Ok Next
  end.

Definition requireRole (roles : list string) (user : option Express.User)
  : result next :=
  match user with
  | None => Ok (NextAuthorizationError "User not authenticated")
  | Some user =>
      match Express.roles user with
      | None => Throw (Error "Cannot read properties of undefined (reading 'some')")
      | Some userRoles =>
          let hasRole := existsb (fun role => includes roles role) userRoles in
          if negb hasRole
          then Ok (NextAuthorizationError "Insufficient permissions")
          else Ok Next
      end
  end.

Definition checkPermission (check : Express.User -> result bool)
    (user : option Express.User) : result next :=
  match user with
  | None => Ok (NextAuthorizationError "User not authenticated")
  | Some user =>
      match check user with
      | Throw e => Throw e
      | Ok false => Ok (NextAuthorizationError "Access denied")
      | Ok true => Ok Next
      end
  end.

(** ** [user.repository.ts] and [UserService.deleteUser] *)
Module UserBase.

Record t : Type := {
  id : string;
  email : string;
  firstName : string;
  lastName : string;
  roles : list string;
  isActive : bool;
  createdAt : Z;
  updatedAt : Z
}.

End UserBase.

(** [Partial<UserWithPassword>], as far as [create] reads it. *)
Module UserData.

Record t : Type := {
  email : option string;
  firstName : option string;
  lastName : option string;
  passwordHash : option string;
  roles : option (list string);
  isActive : option bool
}.

End UserData.

Definition put_bool (b : bool) (rest : string) : string :=
  String (if b then "T" else "F") rest.

Definition get_bool : Wire.reader bool :=
  fun inp =>
    match inp with
    | EmptyString => None
    | String a t =>
        if Ascii.eqb a "T" then Some (true, t)
        else if Ascii.eqb a "F" then Some (false, t)
        else None
    end.

(** [JSON.stringify(user)] *)
Definition JSON_stringify_user (u : UserBase.t) : string :=
  Wire.put_string (UserBase.id u)
    (Wire.put_string (UserBase.email u)
      (Wire.put_string (UserBase.firstName u)
        (Wire.put_string (UserBase.lastName u)
          (Wire.put_strings (UserBase.roles u)
            (put_bool (UserBase.isActive u)
              (Wire.put_Z (UserBase.createdAt u)
                (Wire.put_Z (UserBase.updatedAt u) ""))))))).

Definition get_user : Wire.reader UserBase.t :=
  Wire.bind Wire.get_string (fun i =>
  Wire.bind Wire.get_string (fun e =>
  Wire.bind Wire.get_string (fun f =>
  Wire.bind Wire.get_string (fun l =>
  Wire.bind Wire.get_strings (fun r =>
  Wire.bind get_bool (fun a =>
  Wire.bind Wire.get_Z (fun c =>
  Wire.bind Wire.get_Z (fun u =>
  Wire.ret {| UserBase.id := i; UserBase.email := e; UserBase.firstName := f;
              UserBase.lastName := l; UserBase.roles := r; UserBase.isActive := a;
              UserBase.createdAt := c; UserBase.updatedAt := u |})))))))).

Definition user_of (data : string) : option UserBase.t :=
  match get_user data with
  | Some (u, EmptyString) => Some u
  | _ => None
  end.

(** [JSON.parse(cached) as UserBase] *)
Definition JSON_parse_user (data : string) : IO UserBase.t :=
  match user_of data with
  | Some u => ret u
  | None => throw (SyntaxError "Unexpected token in JSON")
  end.

Module UserRepository.

(** [try { body } catch (error) { logger.error(...); throw error; }] *)
Definition rethrowing {A} (body : IO A) : IO A :=
  try_catch body (fun error => throw error).

Definition findById (userId : string) : IO (option UserBase.t) :=
  rethrowing
    (getRedisClient ;;;
     cached <- redis.get (CACHE_KEYS.USER_PROFILE userId) ;;
     match cached with
     | Some c =>
         if String.eqb c "" then ret None
         else (u <- JSON_parse_user c ;; ret (Some u))
     | None => ret None
     end).

(** [x || d] for an optional string. *)
Definition or_string (o : option string) (d : string) : string :=
  match o with
  | Some s => if String.eqb s "" then d else s
  | None => d
  end.

(** [Math.random().toString(36).substr(2, 9)] is the one random choice;
    its outcome is an argument.  The two dates are two readings of the
    clock. *)
Definition create (random_id : string) (userData : UserData.t) : IO UserBase.t :=
  rethrowing
    (createdAt <- Date_now ;;
     updatedAt <- Date_now ;;
     let user :=
       {| UserBase.id := random_id;
          UserBase.email := or_string (UserData.email userData) "";
          UserBase.firstName := or_string (UserData.firstName userData) "";
          UserBase.lastName := or_string (UserData.lastName userData) "";
          UserBase.roles := default ["user"] (UserData.roles userData);
          UserBase.isActive := true;
          UserBase.createdAt := createdAt;
          UserBase.updatedAt := updatedAt |} in
     getRedisClient ;;;
     redis.setEx (CACHE_KEYS.USER_PROFILE (UserBase.id user)) 3600
                 (JSON_stringify_user user) ;;;
     ret user).

Definition delete (userId : string) : IO unit :=
  rethrowing
    (getRedisClient ;;;
     redis.del (CACHE_KEYS.USER_PROFILE userId)).

End UserRepository.

Module UserService.

Definition deleteUser (userId : string) : IO unit :=
  UserRepository.rethrowing
    (UserRepository.delete userId ;;;
     SessionService.revokeAllUserSessions userId).

End UserService.

(** ** [config/featureFlags.ts] *)

(** Two more commands of the client.  A key written by [SET] has no
    expiry; its entry carries the time-to-live [-1] that the server
    reports for such a key.  [DEL] with a list removes every key of the
    list. *)
Module redis_commands.

Definition set (key : string) (v : string) : IO unit :=
  redis.with_client (fun ks => (Ok tt, <[key := {| value := v; ttl := -1 |}]> ks)).

Definition del_all (keys : list string) : IO unit :=
  redis.with_client (fun ks => (Ok tt, foldr delete ks keys)).

End redis_commands.

Module FeatureFlagService.

Record FeatureFlagContext : Type := {
  userId : option string;
  environment : option string
}.

Definition CACHE_KEY_PREFIX : string := "ff:".
Definition CACHE_TTL : Z := 300.

(** [context?.userId], [context?.environment] as conditions: the string,
    when there is one and it is not empty. *)
Definition present (o : option string) : option string :=
  match o with
  | Some s => if String.eqb s "" then None else Some s
  | None => None
  end.

Definition buildCacheKey (flagName : string) (context : option FeatureFlagContext)
  : string :=
  match present (context ≫= userId) with
  | Some u => CACHE_KEY_PREFIX +:+ "cache:" +:+ flagName +:+ ":user:" +:+ u
  | None =>
      match present (context ≫= environment) with
      | Some e => CACHE_KEY_PREFIX +:+ "cache:" +:+ flagName +:+ ":env:" +:+ e
      | None => CACHE_KEY_PREFIX +:+ "cache:" +:+ flagName
      end
  end.

(** [String(isEnabled)] *)
Definition String_of_bool (b : bool) : string :=
  if b then "true" else "false".

(** A flag that is set decides: the answer is cached and returned. *)
Definition decide_by (cacheKey : string) (flag : string) : IO bool :=
  let isEnabled := String.eqb flag "true" in
  redis.setEx cacheKey CACHE_TTL (String_of_bool isEnabled) ;;;
  ret isEnabled.

Definition isEnabled (flagName : string) (context : option FeatureFlagContext)
  : IO bool :=
  try_catch
    (getRedisClient ;;;
     let cacheKey := buildCacheKey flagName context in
     cached <- redis.get cacheKey ;;
     match cached with
     | Some c => ret (String.eqb c "true")
     | None =>
         globalFlag <- redis.get (CACHE_KEY_PREFIX +:+ flagName) ;;
         match globalFlag with
         | Some g => decide_by cacheKey g
         | None =>
             let environment_flag : IO bool :=
               match present (context ≫= environment) with
               | Some e =>
                   envFlag <- redis.get
                     (CACHE_KEY_PREFIX +:+ "env:" +:+ e +:+ ":" +:+ flagName) ;;
                   match envFlag with
                   | Some f => decide_by cacheKey f
                   | None => ret false
                   end
               | None => ret false
               end in
             match present (context ≫= userId) with
             | Some u =>
                 userFlag <- redis.get
                   (CACHE_KEY_PREFIX +:+ "user:" +:+ u +:+ ":" +:+ flagName) ;;
                 match userFlag with
                 | Some f => decide_by cacheKey f
                 | None => environment_flag
                 end
             | None => environment_flag
             end
         end
     end)
    (fun error => ret false).

Definition invalidateCache (flagName : string) : IO unit :=
  getRedisClient ;;;
  cacheKeys <- redis.keys (CACHE_KEY_PREFIX +:+ "cache:" +:+ flagName +:+ ":*") ;;
  match cacheKeys with
  | [] => ret tt
  | _ :: _ => redis_commands.del_all cacheKeys
  end.

Definition enableGlobal (flagName : string) : IO unit :=
  getRedisClient ;;;
  redis_commands.set (CACHE_KEY_PREFIX +:+ flagName) "true" ;;;
  invalidateCache flagName.

Definition disableGlobal (flagName : string) : IO unit :=
  getRedisClient ;;;
  redis_commands.set (CACHE_KEY_PREFIX +:+ flagName) "false" ;;;
  invalidateCache flagName.

End FeatureFlagService.

(** A name without the special characters of glob patterns. *)
Definition special (c : ascii) : bool :=
  Ascii.eqb c "*" || Ascii.eqb c "?" || Ascii.eqb c "[" || Ascii.eqb c "\".

Fixpoint plain (s : string) : bool :=
  match s with
  | EmptyString => true
  | String c s' => negb (special c) && plain s'
  end.

(** * Properties *)

(** ** Serialisation round trips *)

Lemma get_put_string : Wire.inverse Wire.put_string Wire.get_string.
Proof.
  intros s; induction s as [|c s IH]; intros rest; simpl.
  - reflexivity.
  - now rewrite IH.
Qed.

Lemma get_put_strings : Wire.inverse Wire.put_strings Wire.get_strings.
Proof.
  intros l; induction l as [|s l IH]; intros rest; simpl.
  - reflexivity.
  - induction s as [|c s IHs]; simpl.
    + now rewrite IH.
    + now rewrite IHs.
Qed.

Lemma get_put_positive : Wire.inverse Wire.put_positive Wire.get_positive.
Proof.
  intros p; induction p as [q IH|q IH|]; intros rest; simpl;
    try rewrite IH; reflexivity.
Qed.

Lemma get_put_Z : Wire.inverse Wire.put_Z Wire.get_Z.
Proof.
  intros [|p|p] rest; simpl; try rewrite get_put_positive; reflexivity.
Qed.

Lemma get_put_option {A} (put : A -> string -> string) (get : Wire.reader A) :
  Wire.inverse put get -> Wire.inverse (Wire.put_option put) (Wire.get_option get).
Proof.
  intros H [x|] rest; simpl; try rewrite H; reflexivity.
Qed.

Lemma parse_encode p key : jwt.parse (jwt.encode p key) = Some (p, key).
Proof.
  unfold jwt.parse, jwt.encode, jwt.put_payload, jwt.get_payload, Wire.bind, Wire.ret.
  repeat first
    [ rewrite (get_put_option _ _ get_put_string)
    | rewrite (get_put_option _ _ get_put_strings)
    | rewrite (get_put_option _ _ get_put_Z)
    | rewrite get_put_string ].
  now destruct p.
Qed.

Lemma decode_encode p key : jwt.decode (jwt.encode p key) = Some p.
Proof. unfold jwt.decode. now rewrite parse_encode. Qed.

Lemma session_of_stringify s : session_of (JSON_stringify s) = Some s.
Proof.
  unfold session_of, JSON_stringify, get_session, Wire.bind, Wire.ret.
  repeat first
    [ rewrite (get_put_option _ _ get_put_string)
    | rewrite get_put_Z
    | rewrite get_put_string ].
  now destruct s.
Qed.

Lemma stringify_nonempty s : String.eqb (JSON_stringify s) "" = false.
Proof. unfold JSON_stringify. now destruct (id s). Qed.

(** ** The store, command by command *)

Lemma world_connected w c :
  redisClient w = Some c -> isOpen c = true -> w = connected (keyspace c) (clock w).
Proof. destruct w as [r t], c as [o ks]; simpl; intros -> ->; reflexivity. Qed.

Lemma getRedisClient_connected ks t :
  getRedisClient (connected ks t) = (Ok tt, connected ks t).
Proof. reflexivity. Qed.

Lemma get_connected key ks t :
  redis.get key (connected ks t) = (Ok (value <$> ks !! key), connected ks t).
Proof. reflexivity. Qed.

Lemma setEx_connected key seconds v ks t :
  0 < seconds -> seconds <= redis.LLONG_MAX / 1000 ->
  redis.setEx key seconds v (connected ks t) =
  (Ok tt, connected (<[key := {| value := v; ttl := seconds |}]> ks) t).
Proof.
  intros H0 H1. unfold redis.setEx, redis.with_client; simpl.
  assert (H2 : redis.LLONG_MAX / 1000 < redis.LLONG_MAX) by reflexivity.
  assert (H3 : 0 < redis.LLONG_MAX) by reflexivity.
  replace (seconds <? - redis.LLONG_MAX - 1) with false
    by (symmetry; apply Z.ltb_ge; lia).
  replace (redis.LLONG_MAX <? seconds) with false
    by (symmetry; apply Z.ltb_ge; lia).
  replace (seconds <=? 0) with false by (symmetry; apply Z.leb_gt; lia).
  replace (redis.LLONG_MAX / 1000 <? seconds) with false
    by (symmetry; apply Z.ltb_ge; lia).
  reflexivity.
Qed.

Lemma safe_integer_fits : MAX_SAFE_INTEGER <= redis.LLONG_MAX / 1000.
Proof. discriminate. Qed.

Lemma setEx_cases key seconds v ks t :
  redis.setEx key seconds v (connected ks t)
    = (Ok tt, connected (<[key := {| value := v; ttl := seconds |}]> ks) t) \/
  exists e, redis.setEx key seconds v (connected ks t) = (Throw e, connected ks t).
Proof.
  unfold redis.setEx, redis.with_client; simpl.
  destruct ((seconds <? - redis.LLONG_MAX - 1) || (redis.LLONG_MAX <? seconds));
    [right; eauto|].
  destruct ((seconds <=? 0) || (redis.LLONG_MAX / 1000 <? seconds));
    [right; eauto | left; reflexivity].
Qed.

Lemma del_connected key ks t :
  redis.del key (connected ks t) = (Ok tt, connected (delete key ks) t).
Proof. reflexivity. Qed.

Lemma keys_connected pattern ks t :
  redis.keys pattern (connected ks t) =
  (Ok (filter (fun k => redis.glob pattern k = true) (map_to_list ks).*1),
   connected ks t).
Proof. reflexivity. Qed.

(** A failed read leaves the world as it was. *)
Lemma read_throws key w e w' :
  (getRedisClient ;;; redis.get key) w = (Throw e, w') -> w' = w.
Proof.
  unfold bind, getRedisClient, redis.get, redis.with_client.
  destruct w as [[[[] ks]|] t]; simpl; intros H; try discriminate;
    now inversion H.
Qed.

Lemma isTokenRevoked_connected token ks t :
  TokenService.isTokenRevoked token (connected ks t) =
  (Ok (bool_decide (value <$> ks !! TokenService.revoked_key token = Some "1")),
   connected ks t).
Proof. reflexivity. Qed.

(** ** Revocation registry *)

(** C2. Whenever the store read of [isTokenRevoked] raises an error (the
    client was never initialised, or its socket is closed),
    [isTokenRevoked] returns [false] instead of raising; it never raises
    and never changes the world; and it returns [true] only when the
    store holds the entry of exactly this token with the value "1". *)
Theorem isTokenRevoked_fails_open (token : string) (w : World) :
  (forall e w',
      (getRedisClient ;;; redis.get (TokenService.revoked_key token)) w = (Throw e, w') ->
      TokenService.isTokenRevoked token w = (Ok false, w)) /\
  (exists b, TokenService.isTokenRevoked token w = (Ok b, w)) /\
  (TokenService.isTokenRevoked token w = (Ok true, w) <->
   exists c entry,
     redisClient w = Some c /\ isOpen c = true /\
     keyspace c !! TokenService.revoked_key token = Some entry /\
     value entry = "1").
Proof.
  destruct w as [[[[] ks]|] t].
  - change {| redisClient := Some {| isOpen := true; keyspace := ks |}; clock := t |}
      with (connected ks t).
    rewrite isTokenRevoked_connected. repeat split.
    + intros e w'. unfold bind. rewrite getRedisClient_connected, get_connected.
      discriminate.
    + eauto.
    + intros H. injection H as H. apply bool_decide_eq_true in H.
      destruct (ks !! TokenService.revoked_key token) as [entry|] eqn:He;
        [|discriminate].
      exists {| isOpen := true; keyspace := ks |}, entry.
      simpl in H. injection H as H. simpl. auto.
    + intros (c' & entry & Hc' & _ & He & Hv). simpl in Hc'. injection Hc' as <-.
      simpl in He. f_equal. f_equal. apply bool_decide_eq_true.
      now rewrite He; simpl; rewrite Hv.
  - repeat split; eauto.
    + discriminate.
    + intros (c' & entry & Hc' & Ho' & _). simpl in Hc'. injection Hc' as <-.
      discriminate.
  - repeat split; eauto.
    + discriminate.
    + intros (c' & entry & Hc' & _). discriminate.
Qed.

Lemma isTokenRevoked_fails_open_witness :
  let w := {| redisClient := Some {| isOpen := false; keyspace := ∅ |}; clock := 1000 |} in
  (getRedisClient ;;; redis.get (TokenService.revoked_key "t")) w
    = (Throw redis.closed, w) /\
  TokenService.isTokenRevoked "t" w = (Ok false, w).
Proof.
  intros w. split; [reflexivity|].
  exact (proj1 (isTokenRevoked_fails_open "t" w) redis.closed w eq_refl).
Defined.

(** C1, as stated, fails in two ways.  A token whose [exp] lies in the
    future but is larger than the server accepts as a time-to-live gets
    no entry: the write is refused, the error is swallowed, and
    [isTokenRevoked] goes on answering [false].  And the time-to-live is
    counted in whole seconds from the instant of the write, so an entry
    written at 1500 ms for a token that expires at second 10 is still
    held at 10400 ms, when the token has expired. *)
Lemma revokeToken_denylists_counterexample :
  let far := jwt.encode {| jwt.userId := Some "u1"; jwt.email := None;
                           jwt.roles := None; jwt.type := Some "refresh";
                           jwt.iat := Some 0;
                           jwt.exp := Some 1000000000000000000000 |} "k" in
  let near := jwt.encode {| jwt.userId := Some "u1"; jwt.email := None;
                            jwt.roles := None; jwt.type := Some "refresh";
                            jwt.iat := Some 0; jwt.exp := Some 10 |} "k" in
  (jwt.decode far ≫= jwt.exp = Some 1000000000000000000000 /\
   TokenService.revokeToken far (connected ∅ 0) = (Ok tt, connected ∅ 0) /\
   TokenService.isTokenRevoked far (connected ∅ 0) = (Ok false, connected ∅ 0)) /\
  (exists ks' entry,
      TokenService.revokeToken near (connected ∅ 1500) = (Ok tt, connected ks' 1500) /\
      ks' !! TokenService.revoked_key near = Some entry /\
      ttl entry = 9 /\
      held 1500 entry 10400 = true /\
      jwt.verify near "k" (connected ks' 10400)
        = (Throw (TokenExpiredError "jwt expired"), connected ks' 10400)).
Proof.
  intros far near. split.
  - repeat split; vm_compute; reflexivity.
  - exists (<[TokenService.revoked_key near := {| value := "1"; ttl := 9 |}]> ∅),
      {| value := "1"; ttl := 9 |}.
    split; [|split; [|split; [|split]]].
    + vm_compute. reflexivity.
    + apply lookup_insert_eq.
    + reflexivity.
    + reflexivity.
    + vm_compute. reflexivity.
Qed.

(** C1, amended. With the store connected and the clock not before the
    epoch, a token whose [exp] lies strictly in the future when it is
    revoked, and is a whole number up to [Number.MAX_SAFE_INTEGER], gets
    a denylist entry under the key made of its raw string, with the value
    "1" and a time-to-live of [exp - now] seconds, [now] being the clock
    in whole seconds; nothing else in the store changes, and as long as
    that entry is in the store [isTokenRevoked] answers [true].  Left to
    expiry alone, the entry is there at every instant at which the token
    has not expired, and is gone one second after the token's expiry at
    the latest.  A token that does not decode, has no [exp], or has an
    [exp] that is not in the future, makes [revokeToken] return with the
    world untouched. *)
Theorem revokeToken_denylists (token : string) :
  (forall decoded exp ks now,
      jwt.decode token = Some decoded ->
      jwt.exp decoded = Some exp ->
      0 <= now -> now < exp * 1000 ->
      exp <= MAX_SAFE_INTEGER ->
      exists ks',
        TokenService.revokeToken token (connected ks now) = (Ok tt, connected ks' now) /\
        ks' !! TokenService.revoked_key token
          = Some {| value := "1"; ttl := exp - now / 1000 |} /\
        0 < exp - now / 1000 /\
        (forall k, k <> TokenService.revoked_key token -> ks' !! k = ks !! k) /\
        (forall ks'' later,
            ks'' !! TokenService.revoked_key token
              = ks' !! TokenService.revoked_key token ->
            TokenService.isTokenRevoked token (connected ks'' later)
              = (Ok true, connected ks'' later)) /\
        (forall ks'' later,
            ks'' !! TokenService.revoked_key token
              = lapse now (ks' !! TokenService.revoked_key token) later ->
            (later / 1000 < exp ->
             TokenService.isTokenRevoked token (connected ks'' later)
               = (Ok true, connected ks'' later)) /\
            (exp * 1000 + 1000 <= later ->
             ks'' !! TokenService.revoked_key token = None /\
             TokenService.isTokenRevoked token (connected ks'' later)
               = (Ok false, connected ks'' later)))) /\
  (forall w,
      match jwt.decode token with
      | Some decoded =>
          match jwt.exp decoded with
          | Some exp => exp * 1000 <= clock w
          | None => True
          end
      | None => True
      end ->
      TokenService.revokeToken token w = (Ok tt, w)).
Proof.
  split.
  - intros decoded exp ks now Hd He H0 Hlt Hsafe.
    assert (Hs : now / 1000 < exp) by (apply Z.div_lt_upper_bound; lia).
    assert (Hp : 0 <= now / 1000) by (apply Z.div_pos; lia).
    pose proof safe_integer_fits as Hfit.
    pose proof (Z.mod_pos_bound now 1000 ltac:(lia)) as Hmod.
    pose proof (Z.div_mod now 1000 ltac:(lia)) as Hdm.
    exists (<[TokenService.revoked_key token :=
               {| value := "1"; ttl := exp - now / 1000 |}]> ks).
    split; [|split; [|split; [|split; [|split]]]].
    + unfold TokenService.revokeToken, try_catch. rewrite Hd, He.
      replace (exp =? 0) with false by (symmetry; apply Z.eqb_neq; lia).
      unfold bind. rewrite getRedisClient_connected. simpl.
      replace (0 <? exp - now / 1000) with true by (symmetry; apply Z.ltb_lt; lia).
      rewrite setEx_connected by lia. reflexivity.
    + apply lookup_insert_eq.
    + lia.
    + intros k Hk. now apply lookup_insert_ne.
    + intros ks'' later Hk. rewrite isTokenRevoked_connected, Hk, lookup_insert_eq.
      reflexivity.
    + intros ks'' later Hk. rewrite lookup_insert_eq in Hk.
      unfold lapse, held in Hk. cbn [ttl] in Hk. split.
      * intros Hlater.
        assert (later < exp * 1000).
        { pose proof (Z.mod_pos_bound later 1000 ltac:(lia)).
          pose proof (Z.div_mod later 1000 ltac:(lia)). lia. }
        replace (later <=? now + (exp - now / 1000) * 1000) with true in Hk
          by (symmetry; apply Z.leb_le; lia).
        rewrite orb_true_r in Hk.
        rewrite isTokenRevoked_connected, Hk. reflexivity.
      * intros Hlater.
        replace (exp - now / 1000 <? 0) with false in Hk
          by (symmetry; apply Z.ltb_ge; lia).
        replace (later <=? now + (exp - now / 1000) * 1000) with false in Hk
          by (symmetry; apply Z.leb_gt; lia).
        cbn in Hk. split; [exact Hk|].
        rewrite isTokenRevoked_connected, Hk. reflexivity.
  - intros w H. unfold TokenService.revokeToken, try_catch.
    destruct (jwt.decode token) as [decoded|]; [|reflexivity].
    destruct (jwt.exp decoded) as [exp|]; [|reflexivity].
    destruct (exp =? 0) eqn:Hz; [reflexivity|].
    unfold bind, getRedisClient.
    destruct (redisClient w) as [c|]; [|reflexivity].
    simpl.
    replace (0 <? exp - clock w / 1000) with false; [reflexivity|].
    symmetry. apply Z.ltb_ge.
    assert (exp <= clock w / 1000) by (apply Z.div_le_lower_bound; lia). lia.
Qed.

Lemma revokeToken_denylists_witness :
  let token := jwt.encode {| jwt.userId := Some "u1"; jwt.email := None;
                             jwt.roles := None; jwt.type := Some "refresh";
                             jwt.iat := Some 90; jwt.exp := Some 100 |} "k" in
  (exists ks',
      TokenService.revokeToken token (connected ∅ 99500) = (Ok tt, connected ks' 99500) /\
      ks' !! TokenService.revoked_key token = Some {| value := "1"; ttl := 1 |}) /\
  TokenService.revokeToken token (connected ∅ 100000) = (Ok tt, connected ∅ 100000) /\
  TokenService.revokeToken "not a token" (connected ∅ 99500) = (Ok tt, connected ∅ 99500).
Proof.
  intros token. split; [|split].
  - destruct (proj1 (revokeToken_denylists token) _ 100 ∅ 99500
                (decode_encode _ _) eq_refl ltac:(lia) ltac:(lia) ltac:(discriminate))
      as (ks' & Hr & Hk & _).
    exists ks'. split; [exact Hr | exact Hk].
  - apply (proj2 (revokeToken_denylists token) (connected ∅ 100000)).
    unfold token. rewrite decode_encode. simpl. lia.
  - apply (proj2 (revokeToken_denylists "not a token") (connected ∅ 99500)).
    exact I.
Defined.

(** [revokeToken] never fails its caller: an error of the store is
    logged and swallowed. *)
Lemma revokeToken_swallows token w :
  exists w', TokenService.revokeToken token w = (Ok tt, w').
Proof.
  unfold TokenService.revokeToken, try_catch.
  match goal with
  | |- context [match ?m w with _ => _ end] => destruct (m w) as [[[]|e] w']
  end; eauto.
Qed.

(** ** Signing and verifying *)

Lemma encode_nonempty p key : String.eqb (jwt.encode p key) "" = false.
Proof. unfold jwt.encode, jwt.put_payload. now destruct (jwt.userId p). Qed.

Lemma sign_fresh payload secret expiresIn millis w :
  String.eqb secret "" = false ->
  jwt.iat payload = None -> jwt.exp payload = None ->
  ms.parse expiresIn = Some millis ->
  jwt.sign payload secret expiresIn w =
  (Ok (jwt.encode {| jwt.userId := jwt.userId payload; jwt.email := jwt.email payload;
                     jwt.roles := jwt.roles payload; jwt.type := jwt.type payload;
                     jwt.iat := Some (clock w / 1000);
                     jwt.exp := Some (clock w / 1000 + millis / 1000) |} secret), w).
Proof.
  intros Hs Hi He Hm. unfold jwt.sign. rewrite Hs. unfold bind, Date_now.
  rewrite Hi, He. unfold jwt.timespan. rewrite Hm. reflexivity.
Qed.

Lemma verify_world token secret w r w' :
  jwt.verify token secret w = (r, w') -> w' = w.
Proof.
  unfold jwt.verify, bind, Date_now, throw, ret.
  repeat match goal with
         | |- context [if ?b then _ else _] => destruct b
         | |- context [match ?o with Some _ => _ | None => _ end] => destruct o
         | |- context [let (_, _) := ?x in _] => destruct x
         end; intros H; now inversion H.
Qed.

Lemma verify_encode p key secret w :
  String.eqb secret "" = false ->
  jwt.verify (jwt.encode p key) secret w =
  if negb (String.eqb key secret) then (Throw (JsonWebTokenError "invalid signature"), w)
  else match jwt.exp p with
       | Some e => if e <=? clock w / 1000
                   then (Throw (TokenExpiredError "jwt expired"), w)
                   else (Ok p, w)
       | None => (Ok p, w)
       end.
Proof.
  intros Hs. unfold jwt.verify, bind, Date_now.
  rewrite encode_nonempty, parse_encode, Hs.
  destruct (String.eqb key secret); simpl; [|reflexivity].
  destruct (jwt.exp p) as [e|]; [|reflexivity].
  now destruct (e <=? clock w / 1000).
Qed.

Lemma secret_or_access_nonempty security secret :
  String.eqb (jwtAccessSecret security) "" = false ->
  String.eqb (TokenService.secret_or_access security secret) "" = false.
Proof.
  intros Hs. unfold TokenService.secret_or_access.
  destruct secret as [s|]; [|exact Hs].
  now destruct (String.eqb s "") eqn:E.
Qed.

Lemma verifyToken_throws security token secret w e w' :
  TokenService.verifyToken security token secret w = (Throw e, w') ->
  e = AuthenticationError "Invalid or expired token".
Proof.
  unfold TokenService.verifyToken, try_catch, bind, ret, throw.
  destruct (jwt.verify _ _ w) as [[a|e0] w0]; intros H; now inversion H.
Qed.

(** C6. An access token verified against the access secret at the instant
    it was issued gives back the user id, the email and the roles it was
    issued for (with [iat] and [exp] added); once the clock has advanced
    by the configured access expiry, verification fails with the
    AuthenticationError "Invalid or expired token", whatever the secret.
    The access secret is not empty and the configured expiry is a
    timespan of at least one second. *)
Theorem access_token_round_trip (security : SecurityConfig)
    (userId email : string) (roles : list string) (millis : Z) (w : World) :
  String.eqb (jwtAccessSecret security) "" = false ->
  ms.parse (jwtAccessExpiry security) = Some millis ->
  1000 <= millis ->
  exists token,
    TokenService.generateAccessToken security userId email roles w = (Ok token, w) /\
    (forall secret,
        secret = None \/ secret = Some (jwtAccessSecret security) ->
        TokenService.verifyToken security token secret w =
        (Ok {| jwt.userId := Some userId; jwt.email := Some email;
               jwt.roles := Some roles; jwt.type := None;
               jwt.iat := Some (clock w / 1000);
               jwt.exp := Some (clock w / 1000 + millis / 1000) |}, w)) /\
    (forall secret w2,
        clock w + millis <= clock w2 ->
        TokenService.verifyToken security token secret w2 =
        (Throw (AuthenticationError "Invalid or expired token"), w2)).
Proof.
  intros Hs Hm Hge.
  eexists. split; [|split].
  - unfold TokenService.generateAccessToken.
    now apply sign_fresh with (millis := millis).
  - intros secret Hsec.
    assert (Hk : TokenService.secret_or_access security secret = jwtAccessSecret security).
    { destruct Hsec as [-> | ->]; simpl; [reflexivity|]. now rewrite Hs. }
    unfold TokenService.verifyToken, try_catch, bind.
    rewrite Hk, verify_encode by exact Hs. rewrite String.eqb_refl. simpl.
    assert (1 <= millis / 1000) by (apply Z.div_le_lower_bound; lia).
    replace (clock w / 1000 + millis / 1000 <=? clock w / 1000) with false
      by (symmetry; apply Z.leb_gt; lia).
    reflexivity.
  - intros secret w2 Hlater.
    unfold TokenService.verifyToken, try_catch, bind.
    rewrite verify_encode by now apply secret_or_access_nonempty.
    destruct (negb _); [reflexivity|]. simpl.
    assert (Hdiv : clock w / 1000 + millis / 1000 <= clock w2 / 1000).
    { pose proof (Z.div_mod (clock w) 1000 ltac:(lia)).
      pose proof (Z.mod_pos_bound (clock w) 1000 ltac:(lia)).
      pose proof (Z.div_mod millis 1000 ltac:(lia)).
      pose proof (Z.mod_pos_bound millis 1000 ltac:(lia)).
      apply Z.div_le_lower_bound; lia. }
    apply Z.leb_le in Hdiv. rewrite Hdiv. reflexivity.
Qed.

Lemma access_token_round_trip_witness :
  let security := {| jwtAccessSecret := "access-secret"; jwtRefreshSecret := "refresh-secret";
                     jwtAccessExpiry := "15m"; jwtRefreshExpiry := "7d" |} in
  exists token,
    TokenService.generateAccessToken security "u1" "u1@x.com" ["user"] (connected ∅ 5500)
      = (Ok token, connected ∅ 5500) /\
    TokenService.verifyToken security token None (connected ∅ 5500)
      = (Ok {| jwt.userId := Some "u1"; jwt.email := Some "u1@x.com";
               jwt.roles := Some ["user"]; jwt.type := None;
               jwt.iat := Some 5; jwt.exp := Some 905 |}, connected ∅ 5500) /\
    TokenService.verifyToken security token None (connected ∅ 905500)
      = (Throw (AuthenticationError "Invalid or expired token"), connected ∅ 905500).
Proof.
  intros security.
  destruct (access_token_round_trip security "u1" "u1@x.com" ["user"] 900000
              (connected ∅ 5500) eq_refl eq_refl ltac:(lia))
    as (token & Hg & Hv & Hx).
  exists token. split; [exact Hg|]. split.
  - exact (Hv None (or_introl eq_refl)).
  - exact (Hx None (connected ∅ 905500) ltac:(simpl; lia)).
Defined.

(** ** Reported expiry *)

Lemma digit_range c d : ms.digit c = Some d -> 0 <= d <= 9.
Proof.
  unfold ms.digit.
  destruct (_ && _) eqn:E; [|discriminate].
  apply andb_true_iff in E as [H1 H2].
  apply Z.leb_le in H1, H2. intros [= <-]. lia.
Qed.

Lemma number_nonneg s : forall acc, 0 <= acc -> 0 <= fst (ms.number acc s).
Proof.
  induction s as [|c s IH]; intros acc Hacc; simpl; [exact Hacc|].
  destruct (ms.digit c) as [d|] eqn:Hd; [|exact Hacc].
  apply IH. apply digit_range in Hd. lia.
Qed.

Lemma unit_positive u k : ms.unit u = Some k -> 0 < k.
Proof.
  unfold ms.unit, ms.w_, ms.d_, ms.h_, ms.m_, ms.s_.
  repeat (destruct (String.eqb u _); [intros [= <-]; lia|]).
  discriminate.
Qed.

Lemma parse_nonneg str millis : ms.parse str = Some millis -> 0 <= millis.
Proof.
  unfold ms.parse. destruct str as [|c t]; [discriminate|].
  destruct (ms.digit c); [|discriminate].
  pose proof (number_nonneg (String c t) 0 ltac:(lia)) as Hn.
  destruct (ms.number 0 (String c t)) as [n u]. simpl in Hn.
  destruct (ms.unit u) as [k|] eqn:Hu; [|discriminate].
  apply unit_positive in Hu. intros [= <-]. lia.
Qed.

Lemma expiry_of_signed u e r t i millis :
  0 <= i -> 0 <= millis ->
  expiry_of {| jwt.userId := u; jwt.email := e; jwt.roles := r; jwt.type := t;
               jwt.iat := Some i; jwt.exp := Some (i + millis / 1000) |}
  = Num ((i + millis / 1000 - i) * 1000).
Proof.
  intros Hi Hm. unfold expiry_of; simpl.
  assert (0 <= millis / 1000) by (apply Z.div_pos; lia).
  destruct (i + millis / 1000 =? 0) eqn:E; simpl; [|reflexivity].
  apply Z.eqb_eq in E. f_equal. lia.
Qed.

Lemma min_nonempty n o s :
  (0 < n)%nat -> z_string_min n o = Some s -> String.eqb s "" = false.
Proof.
  unfold z_string_min. destruct o as [s'|]; [|discriminate].
  destruct (n <=? String.length s')%nat eqn:E; [|discriminate].
  intros Hn [= <-]. apply Nat.leb_le in E.
  destruct s'; [simpl in E; lia | reflexivity].
Qed.

Lemma generateTokenPair_runs security userId email roles ma mr w :
  0 <= clock w ->
  String.eqb (jwtAccessSecret security) "" = false ->
  String.eqb (jwtRefreshSecret security) "" = false ->
  ms.parse (jwtAccessExpiry security) = Some ma ->
  ms.parse (jwtRefreshExpiry security) = Some mr ->
  exists tokens decoded,
    TokenService.generateTokenPair security userId email roles w = (Ok tokens, w) /\
    jwt.decode (accessToken tokens) = Some decoded /\
    jwt.iat decoded = Some (clock w / 1000) /\
    jwt.exp decoded = Some (clock w / 1000 + ma / 1000) /\
    expiresIn tokens = Num ((clock w / 1000 + ma / 1000 - clock w / 1000) * 1000).
Proof.
  intros Hc Ha Hr Hma Hmr.
  unfold TokenService.generateTokenPair, TokenService.generateAccessToken,
    TokenService.generateRefreshToken, bind.
  rewrite (sign_fresh _ _ _ ma) by (try reflexivity; assumption).
  rewrite (sign_fresh _ _ _ mr) by (try reflexivity; assumption).
  unfold TokenService.decoded_payload. rewrite decode_encode. simpl.
  eexists. eexists. split; [reflexivity|]. simpl.
  rewrite decode_encode. repeat split.
  apply expiry_of_signed.
  - apply Z.div_pos; lia.
  - now apply parse_nonneg in Hma.
Qed.

(** C7. The [expiresIn] that [generateTokenPair] returns is
    [(exp - iat) * 1000] for the [iat] and [exp] decoded out of the access
    token it returns; and when [JWT_ACCESS_EXPIRY] is left to its default
    in the environment, it is 900000.  The clock is not before the epoch,
    both secrets are non-empty and both configured expiries are
    timespans. *)
Theorem generateTokenPair_expiresIn (userId email : string) (roles : list string)
    (w : World) :
  (forall security ma mr,
      0 <= clock w ->
      String.eqb (jwtAccessSecret security) "" = false ->
      String.eqb (jwtRefreshSecret security) "" = false ->
      ms.parse (jwtAccessExpiry security) = Some ma ->
      ms.parse (jwtRefreshExpiry security) = Some mr ->
      exists tokens decoded iat exp,
        TokenService.generateTokenPair security userId email roles w = (Ok tokens, w) /\
        jwt.decode (accessToken tokens) = Some decoded /\
        jwt.iat decoded = Some iat /\
        jwt.exp decoded = Some exp /\
        expiresIn tokens = Num ((exp - iat) * 1000)) /\
  (forall processEnv env mr,
      0 <= clock w ->
      envSchema processEnv = Some env ->
      env_JWT_ACCESS_EXPIRY processEnv = None ->
      ms.parse (JWT_REFRESH_EXPIRY env) = Some mr ->
      exists tokens,
        TokenService.generateTokenPair (createSecurityConfig env) userId email roles w
          = (Ok tokens, w) /\
        expiresIn tokens = Num 900000).
Proof.
  split.
  - intros security ma mr Hc Ha Hr Hma Hmr.
    destruct (generateTokenPair_runs security userId email roles ma mr w Hc Ha Hr Hma Hmr)
      as (tokens & decoded & Hrun & Hd & Hi & He & Hx).
    exists tokens, decoded, (clock w / 1000), (clock w / 1000 + ma / 1000). auto.
  - intros processEnv env mr Hc Henv Hdef Hmr.
    unfold envSchema in Henv.
    destruct (z_string_min 32 (env_JWT_ACCESS_SECRET processEnv)) as [a|] eqn:Ea;
      [|discriminate].
    destruct (z_string_min 32 (env_JWT_REFRESH_SECRET processEnv)) as [r|] eqn:Er;
      [|discriminate].
    rewrite Hdef in Henv. injection Henv as <-. simpl in Hmr.
    apply min_nonempty in Ea; [|lia]. apply min_nonempty in Er; [|lia].
    destruct (generateTokenPair_runs
                (createSecurityConfig
                   {| JWT_ACCESS_SECRET := a; JWT_REFRESH_SECRET := r;
                      JWT_ACCESS_EXPIRY := "15m";
                      JWT_REFRESH_EXPIRY :=
                        z_string_default "7d" (env_JWT_REFRESH_EXPIRY processEnv) |})
                userId email roles 900000 mr w Hc Ea Er eq_refl Hmr)
      as (tokens & decoded & Hrun & _ & _ & _ & Hx).
    exists tokens. split; [exact Hrun|]. rewrite Hx. f_equal.
    change (900000 / 1000) with 900. lia.
Qed.

Lemma generateTokenPair_expiresIn_witness :
  let secret := "0123456789abcdef0123456789abcdef" in
  let processEnv := {| env_JWT_ACCESS_SECRET := Some ("a" +:+ secret);
                       env_JWT_REFRESH_SECRET := Some ("r" +:+ secret);
                       env_JWT_ACCESS_EXPIRY := None;
                       env_JWT_REFRESH_EXPIRY := None |} in
  exists env tokens,
    envSchema processEnv = Some env /\
    TokenService.generateTokenPair (createSecurityConfig env) "u1" "u1@x.com" ["user"]
      (connected ∅ 5500) = (Ok tokens, connected ∅ 5500) /\
    expiresIn tokens = Num 900000 /\
    exists decoded iat exp,
      jwt.decode (accessToken tokens) = Some decoded /\
      jwt.iat decoded = Some iat /\ jwt.exp decoded = Some exp /\
      expiresIn tokens = Num ((exp - iat) * 1000).
Proof.
  intros secret processEnv.
  destruct (envSchema processEnv) as [env|] eqn:Henv; [|discriminate].
  pose proof Henv as Hval. vm_compute in Hval. injection Hval as Hval.
  assert (Hmr : ms.parse (JWT_REFRESH_EXPIRY env) = Some 604800000)
    by (rewrite <- Hval; reflexivity).
  assert (Hma : ms.parse (jwtAccessExpiry (createSecurityConfig env)) = Some 900000)
    by (rewrite <- Hval; reflexivity).
  assert (Ha : String.eqb (jwtAccessSecret (createSecurityConfig env)) "" = false)
    by (rewrite <- Hval; reflexivity).
  assert (Hr : String.eqb (jwtRefreshSecret (createSecurityConfig env)) "" = false)
    by (rewrite <- Hval; reflexivity).
  destruct (generateTokenPair_expiresIn "u1" "u1@x.com" ["user"] (connected ∅ 5500))
    as [Hgen Hdef].
  destruct (Hdef processEnv env 604800000 ltac:(simpl; lia) Henv eq_refl Hmr)
    as (tokens & Hrun & Hx).
  destruct (Hgen (createSecurityConfig env) 900000 604800000 ltac:(simpl; lia) Ha Hr Hma Hmr)
    as (tokens' & decoded & iat & exp & Hrun' & Hd & Hi & He & Hx').
  assert (tokens' = tokens) by congruence. subst tokens'.
  exists env, tokens. repeat split; try assumption.
  exists decoded, iat, exp. auto.
Defined.

(** ** Refreshing *)

(** Whatever goes wrong inside [refreshAccessToken] leaves as the one
    error of its [catch] clause. *)
Lemma refreshAccessToken_throws security refreshToken w e w' :
  TokenService.refreshAccessToken security refreshToken w = (Throw e, w') ->
  e = AuthenticationError "Failed to refresh token".
Proof.
  unfold TokenService.refreshAccessToken, try_catch, throw.
  match goal with |- context [match ?m w with _ => _ end] => destruct (m w) as [[a|e0] w0] end;
    intros H; now inversion H.
Qed.

Lemma refresh_after_verify security refreshToken decoded w :
  jwt.verify refreshToken (jwtRefreshSecret security) w = (Ok decoded, w) ->
  TokenService.refreshAccessToken security refreshToken w =
  try_catch
    (if negb (bool_decide (jwt.type decoded = Some "refresh")) then
       throw (AuthenticationError "Invalid token type")
     else
       isRevoked <- TokenService.isTokenRevoked refreshToken ;;
       if isRevoked then
         throw (AuthenticationError "Token has been revoked")
       else
         accessToken <-
           jwt.sign {| jwt.userId := jwt.userId decoded; jwt.email := None;
                       jwt.roles := None; jwt.type := None;
                       jwt.iat := None; jwt.exp := None |}
                    (jwtAccessSecret security) (jwtAccessExpiry security) ;;
         decodedAccess <- TokenService.decoded_payload accessToken ;;
         let expiresIn := expiry_of decodedAccess in
         ret (accessToken, expiresIn))
    (fun error => throw (AuthenticationError "Failed to refresh token")) w.
Proof.
  intros Hv. unfold TokenService.refreshAccessToken, try_catch, bind at 1.
  rewrite Hv. reflexivity.
Qed.

(** C4. A token that verifies against the refresh secret but whose [type]
    claim is not "refresh" makes [refreshAccessToken] fail with an
    AuthenticationError; no access token is returned and the world is
    unchanged. *)
Theorem refresh_rejects_other_kinds (security : SecurityConfig)
    (token : string) (decoded : jwt.Payload) (w w' : World) :
  jwt.verify token (jwtRefreshSecret security) w = (Ok decoded, w') ->
  jwt.type decoded <> Some "refresh" ->
  TokenService.refreshAccessToken security token w =
  (Throw (AuthenticationError "Failed to refresh token"), w).
Proof.
  intros Hv Ht.
  pose proof (verify_world _ _ _ _ _ Hv) as ->.
  rewrite (refresh_after_verify _ _ _ _ Hv).
  unfold try_catch.
  now rewrite bool_decide_eq_false_2.
Qed.

Lemma refresh_rejects_other_kinds_witness :
  let security := {| jwtAccessSecret := "shared-secret"; jwtRefreshSecret := "shared-secret";
                     jwtAccessExpiry := "15m"; jwtRefreshExpiry := "7d" |} in
  exists accessToken,
    TokenService.generateAccessToken security "u1" "u1@x.com" ["user"] (connected ∅ 5500)
      = (Ok accessToken, connected ∅ 5500) /\
    TokenService.refreshAccessToken security accessToken (connected ∅ 5500)
      = (Throw (AuthenticationError "Failed to refresh token"), connected ∅ 5500).
Proof.
  intros security.
  eexists. split; [reflexivity|].
  eapply (refresh_rejects_other_kinds security _ _ (connected ∅ 5500) (connected ∅ 5500)).
  - vm_compute. reflexivity.
  - discriminate.
Defined.

(** C9. For a refresh token that verifies against the refresh secret with
    [type] "refresh" and that [isTokenRevoked] reports as not revoked,
    [refreshAccessToken] returns an access token whose claims are the
    [userId] of the refresh token, [iat] and [exp]: it has no [email] and
    no [roles] claim (and no [type]), unlike the access token of
    [generateAccessToken].  The access secret is non-empty and the access
    expiry is a timespan. *)
Theorem refreshed_token_claims (security : SecurityConfig)
    (refreshToken : string) (decoded : jwt.Payload) (millis : Z) (w : World) :
  jwt.verify refreshToken (jwtRefreshSecret security) w = (Ok decoded, w) ->
  jwt.type decoded = Some "refresh" ->
  TokenService.isTokenRevoked refreshToken w = (Ok false, w) ->
  String.eqb (jwtAccessSecret security) "" = false ->
  ms.parse (jwtAccessExpiry security) = Some millis ->
  exists accessToken expiresIn claims,
    TokenService.refreshAccessToken security refreshToken w
      = (Ok (accessToken, expiresIn), w) /\
    jwt.decode accessToken = Some claims /\
    jwt.userId claims = jwt.userId decoded /\
    jwt.email claims = None /\
    jwt.roles claims = None /\
    jwt.type claims = None /\
    (forall userId email roles token,
        TokenService.generateAccessToken security userId email roles w = (Ok token, w) ->
        exists login,
          jwt.decode token = Some login /\
          jwt.email login = Some email /\ jwt.roles login = Some roles).
Proof.
  intros Hv Ht Hr Hs Hm.
  rewrite (refresh_after_verify _ _ _ _ Hv).
  unfold try_catch. rewrite bool_decide_eq_true_2 by exact Ht. simpl.
  unfold bind at 1. rewrite Hr.
  unfold bind at 1. rewrite (sign_fresh _ _ _ millis) by (try reflexivity; assumption).
  unfold bind, TokenService.decoded_payload. rewrite decode_encode. simpl.
  eexists. eexists. eexists. split; [reflexivity|].
  rewrite decode_encode. repeat split.
  intros userId email roles token Hg.
  unfold TokenService.generateAccessToken in Hg.
  rewrite (sign_fresh _ _ _ millis) in Hg by (try reflexivity; assumption).
  injection Hg as <-. rewrite decode_encode. eexists. repeat split.
Qed.

Lemma refreshed_token_claims_witness :
  let security := {| jwtAccessSecret := "access-secret"; jwtRefreshSecret := "refresh-secret";
                     jwtAccessExpiry := "15m"; jwtRefreshExpiry := "7d" |} in
  exists refreshToken accessToken expiresIn claims,
    TokenService.generateRefreshToken security "u1" (connected ∅ 5500)
      = (Ok refreshToken, connected ∅ 5500) /\
    TokenService.refreshAccessToken security refreshToken (connected ∅ 5500)
      = (Ok (accessToken, expiresIn), connected ∅ 5500) /\
    jwt.decode accessToken = Some claims /\
    jwt.userId claims = Some "u1" /\
    jwt.email claims = None /\
    jwt.roles claims = None.
Proof.
  intros security.
  destruct (TokenService.generateRefreshToken security "u1" (connected ∅ 5500))
    as [[refreshToken|e] w1] eqn:Hg; [|discriminate].
  vm_compute in Hg. injection Hg as Htok Hw. subst w1.
  destruct (refreshed_token_claims security refreshToken
              {| jwt.userId := Some "u1"; jwt.email := None; jwt.roles := None;
                 jwt.type := Some "refresh"; jwt.iat := Some 5; jwt.exp := Some 604805 |}
              900000 (connected ∅ 5500))
    as (accessToken & expiresIn & claims & Hrun & Hd & Hu & He & Hr & _).
  - subst refreshToken. vm_compute. reflexivity.
  - reflexivity.
  - subst refreshToken. vm_compute. reflexivity.
  - reflexivity.
  - reflexivity.
  - exists refreshToken, accessToken, expiresIn, claims.
    repeat split; assumption.
Defined.

(** C3. When the registry reports a verified refresh token of [type]
    "refresh" as revoked, [refreshAccessToken] does fail with an
    AuthenticationError; but the error thrown for the revocation,
    "Token has been revoked", is raised inside the [try] block and caught
    by the function's own [catch], so what the caller receives carries
    the message "Failed to refresh token". *)
Theorem refresh_of_revoked_token (security : SecurityConfig)
    (refreshToken : string) (decoded : jwt.Payload) (w : World) :
  jwt.verify refreshToken (jwtRefreshSecret security) w = (Ok decoded, w) ->
  jwt.type decoded = Some "refresh" ->
  TokenService.isTokenRevoked refreshToken w = (Ok true, w) ->
  TokenService.refreshAccessToken security refreshToken w
    = (Throw (AuthenticationError "Failed to refresh token"), w) /\
  TokenService.refreshAccessToken security refreshToken w
    <> (Throw (AuthenticationError "Token has been revoked"), w).
Proof.
  intros Hv Ht Hr.
  assert (H : TokenService.refreshAccessToken security refreshToken w
              = (Throw (AuthenticationError "Failed to refresh token"), w)).
  { rewrite (refresh_after_verify _ _ _ _ Hv).
    unfold try_catch. rewrite bool_decide_eq_true_2 by exact Ht. simpl.
    unfold bind. rewrite Hr. reflexivity. }
  split; [exact H|]. rewrite H. discriminate.
Qed.

Lemma refresh_of_revoked_token_witness :
  let security := {| jwtAccessSecret := "access-secret"; jwtRefreshSecret := "refresh-secret";
                     jwtAccessExpiry := "15m"; jwtRefreshExpiry := "7d" |} in
  exists refreshToken ks,
    (refreshToken <- TokenService.generateRefreshToken security "u1" ;;
     TokenService.revokeToken refreshToken ;;;
     ret refreshToken) (connected ∅ 5500) = (Ok refreshToken, connected ks 5500) /\
    TokenService.refreshAccessToken security refreshToken (connected ks 5500)
      = (Throw (AuthenticationError "Failed to refresh token"), connected ks 5500).
Proof.
  intros security.
  eexists. eexists. split; [vm_compute; reflexivity|].
  refine (proj1 (refresh_of_revoked_token security _
                   {| jwt.userId := Some "u1"; jwt.email := None; jwt.roles := None;
                      jwt.type := Some "refresh"; jwt.iat := Some 5;
                      jwt.exp := Some 604805 |} _ _ _ _)).
  - vm_compute. reflexivity.
  - reflexivity.
  - vm_compute. reflexivity.
Defined.

(** ** Session registry *)

Lemma getSession_connected sessionId ks t :
  SessionService.getSession sessionId (connected ks t) =
  match ks !! SessionService.session_key sessionId with
  | Some entry =>
      if String.eqb (value entry) "" then (Ok None, connected ks t)
      else match session_of (value entry) with
           | Some s => (Ok (Some s), connected ks t)
           | None => (Throw (SyntaxError "Unexpected token in JSON"), connected ks t)
           end
  | None => (Ok None, connected ks t)
  end.
Proof.
  unfold SessionService.getSession, bind.
  rewrite getRedisClient_connected, get_connected.
  destruct (ks !! SessionService.session_key sessionId) as [entry|]; simpl; [|reflexivity].
  destruct (String.eqb (value entry) ""); [reflexivity|].
  unfold JSON_parse. now destruct (session_of (value entry)).
Qed.

(** What it means for [getSession] to find a record. *)
Lemma getSession_found sessionId ks t s w :
  SessionService.getSession sessionId (connected ks t) = (Ok (Some s), w) ->
  exists entry,
    ks !! SessionService.session_key sessionId = Some entry /\
    String.eqb (value entry) "" = false /\
    session_of (value entry) = Some s.
Proof.
  rewrite getSession_connected.
  destruct (ks !! SessionService.session_key sessionId) as [entry|]; [|discriminate].
  destruct (String.eqb (value entry) "") eqn:E; [discriminate|].
  destruct (session_of (value entry)) as [s'|] eqn:Es; [|discriminate].
  intros [= <- _]. eauto.
Qed.

Lemma getSession_stored sessionId ks t s seconds :
  ks !! SessionService.session_key sessionId
    = Some {| value := JSON_stringify s; ttl := seconds |} ->
  SessionService.getSession sessionId (connected ks t) = (Ok (Some s), connected ks t).
Proof.
  intros H. rewrite getSession_connected, H. simpl.
  now rewrite stringify_nonempty, session_of_stringify.
Qed.

Lemma SESSION_TTL_positive : 0 < SessionService.SESSION_TTL.
Proof. reflexivity. Qed.

Lemma createSession_connected uuidv4 userId ipAddress userAgent ks now :
  let session := {| id := uuidv4; userId := userId; createdAt := now;
                    expiresAt := now + SessionService.SESSION_TTL * 1000;
                    lastActivityAt := now;
                    ipAddress := ipAddress; userAgent := userAgent |} in
  SessionService.createSession uuidv4 userId ipAddress userAgent (connected ks now) =
  (Ok session,
   connected (<[SessionService.session_key uuidv4 :=
                  {| value := JSON_stringify session;
                     ttl := SessionService.SESSION_TTL |}]> ks) now).
Proof. reflexivity. Qed.

Lemma updateActivity_connected sessionId s ks now w :
  SessionService.getSession sessionId (connected ks now) = (Ok (Some s), w) ->
  SessionService.updateActivity sessionId (connected ks now) =
  (Ok tt,
   connected (<[SessionService.session_key sessionId :=
                  {| value := JSON_stringify (SessionService.with_lastActivityAt s now);
                     ttl := SessionService.SESSION_TTL |}]> ks) now).
Proof.
  intros H. unfold SessionService.updateActivity, bind.
  rewrite getRedisClient_connected.
  assert (Hw : w = connected ks now).
  { revert H. rewrite getSession_connected.
    repeat match goal with
           | |- context [match ?o with Some _ => _ | None => _ end] => destruct o
           | |- context [if ?b then _ else _] => destruct b
           end; intros H; now inversion H. }
  subst w. rewrite H. reflexivity.
Qed.

(** C10. With the store connected, [updateActivity] on a session that
    [getSession] finds rewrites its record with [lastActivityAt] set to
    the current time and every
    other field as it was: read back, [id], [userId], [createdAt],
    [expiresAt], [ipAddress] and [userAgent] are unchanged.  No other key
    of the store is touched. *)
Theorem updateActivity_frame (sessionId : string) (s : Session)
    (ks : gmap string Entry) (now : Z) :
  SessionService.getSession sessionId (connected ks now) = (Ok (Some s), connected ks now) ->
  exists ks' s',
    SessionService.updateActivity sessionId (connected ks now) = (Ok tt, connected ks' now) /\
    (forall later,
        SessionService.getSession sessionId (connected ks' later)
          = (Ok (Some s'), connected ks' later)) /\
    id s' = id s /\ userId s' = userId s /\
    createdAt s' = createdAt s /\ expiresAt s' = expiresAt s /\
    ipAddress s' = ipAddress s /\ userAgent s' = userAgent s /\
    lastActivityAt s' = now /\
    (forall k, k <> SessionService.session_key sessionId -> ks' !! k = ks !! k).
Proof.
  intros H.
  eexists. exists (SessionService.with_lastActivityAt s now).
  split; [exact (updateActivity_connected _ _ _ _ _ H)|].
  split.
  - intros later. eapply getSession_stored. apply lookup_insert_eq.
  - repeat split. intros k Hk. now apply lookup_insert_ne.
Qed.

Lemma updateActivity_frame_witness :
  exists ks0 ks1 s0 s1,
    SessionService.createSession "s1" "A" (Some "10.0.0.1") None (connected ∅ 0)
      = (Ok s0, connected ks0 0) /\
    SessionService.updateActivity "s1" (connected ks0 1000) = (Ok tt, connected ks1 1000) /\
    SessionService.getSession "s1" (connected ks1 1000) = (Ok (Some s1), connected ks1 1000) /\
    expiresAt s1 = expiresAt s0 /\ createdAt s1 = createdAt s0 /\
    ipAddress s1 = ipAddress s0 /\ lastActivityAt s1 = 1000.
Proof.
  pose (s0 := {| id := "s1"; userId := "A"; createdAt := 0;
                 expiresAt := 0 + SessionService.SESSION_TTL * 1000;
                 lastActivityAt := 0;
                 ipAddress := Some "10.0.0.1"; userAgent := None |}).
  pose (ks0 := <[SessionService.session_key "s1" :=
                   {| value := JSON_stringify s0;
                      ttl := SessionService.SESSION_TTL |}]> (∅ : gmap string Entry)).
  destruct (updateActivity_frame "s1" s0 ks0 1000
              (getSession_stored "s1" ks0 1000 s0 _ (lookup_insert_eq _ _ _)))
    as (ks1 & s1 & Hu & Hg & _ & _ & Hc & He & Hi & _ & Hl & _).
  exists ks0, ks1, s0, s1.
  split; [apply createSession_connected|].
  split; [exact Hu|]. split; [exact (Hg 1000)|].
  repeat split; assumption.
Defined.

(** C5, as stated, fails for [updateActivity]: a session created at time
    0 and touched one second later is rewritten with a time-to-live of
    604800 s while its [expiresAt] minus the current time is one second
    less than that. *)
Lemma updateActivity_ttl_counterexample :
  let s0 := {| id := "s1"; userId := "A"; createdAt := 0; expiresAt := 604800000;
               lastActivityAt := 0; ipAddress := None; userAgent := None |} in
  let ks0 := <[SessionService.session_key "s1" :=
                 {| value := JSON_stringify s0; ttl := 604800 |}]>
               (∅ : gmap string Entry) in
  SessionService.createSession "s1" "A" None None (connected ∅ 0)
    = (Ok s0, connected ks0 0) /\
  exists ks1 entry s1,
    SessionService.updateActivity "s1" (connected ks0 1000) = (Ok tt, connected ks1 1000) /\
    ks1 !! SessionService.session_key "s1" = Some entry /\
    session_of (value entry) = Some s1 /\
    ttl entry * 1000 = 604800000 /\
    expiresAt s1 - 1000 = 604799000 /\
    ttl entry * 1000 <> expiresAt s1 - 1000.
Proof.
  intros s0 ks0. split; [reflexivity|].
  eexists. eexists. exists (SessionService.with_lastActivityAt s0 1000).
  split.
  - apply (updateActivity_connected "s1" s0 ks0 1000 (connected ks0 1000)).
    eapply getSession_stored. apply lookup_insert_eq.
  - split; [apply lookup_insert_eq|].
    split; [apply session_of_stringify|].
    simpl. unfold SessionService.SESSION_TTL. repeat split; lia.
Qed.

(** C5, amended. With the store connected, every write of the session
    registry attaches the full window of 604800 s.  For [createSession] that is the record's
    [expiresAt] minus the current time.  [updateActivity] rewrites the
    record with the time-to-live reset to the full window and leaves
    [expiresAt] as it was, so for a record whose [expiresAt] is
    [createdAt] plus seven days the time-to-live is [expiresAt] minus the
    current time plus the time elapsed since [createdAt]. *)
Theorem session_writes_attach_window :
  (forall uuidv4 userId ipAddress userAgent ks now,
      exists s ks' entry,
        SessionService.createSession uuidv4 userId ipAddress userAgent (connected ks now)
          = (Ok s, connected ks' now) /\
        ks' !! SessionService.session_key uuidv4 = Some entry /\
        session_of (value entry) = Some s /\
        ttl entry = 604800 /\
        ttl entry * 1000 = expiresAt s - now) /\
  (forall sessionId s ks now,
      SessionService.getSession sessionId (connected ks now)
        = (Ok (Some s), connected ks now) ->
      exists ks' entry s',
        SessionService.updateActivity sessionId (connected ks now)
          = (Ok tt, connected ks' now) /\
        ks' !! SessionService.session_key sessionId = Some entry /\
        session_of (value entry) = Some s' /\
        ttl entry = 604800 /\
        expiresAt s' = expiresAt s /\
        createdAt s' = createdAt s /\
        (expiresAt s = createdAt s + 604800 * 1000 ->
         ttl entry * 1000 = (expiresAt s' - now) + (now - createdAt s'))).
Proof.
  split.
  - intros uuidv4 userId ipAddress userAgent ks now.
    eexists. eexists. eexists.
    split; [apply createSession_connected|].
    split; [apply lookup_insert_eq|].
    split; [apply session_of_stringify|].
    simpl. unfold SessionService.SESSION_TTL. split; lia.
  - intros sessionId s ks now H.
    eexists. eexists. exists (SessionService.with_lastActivityAt s now).
    split; [exact (updateActivity_connected _ _ _ _ _ H)|].
    split; [apply lookup_insert_eq|].
    split; [apply session_of_stringify|].
    simpl. unfold SessionService.SESSION_TTL. repeat split; lia.
Qed.

Lemma session_writes_attach_window_witness :
  let s0 := {| id := "s1"; userId := "A"; createdAt := 0; expiresAt := 604800000;
               lastActivityAt := 0; ipAddress := None; userAgent := None |} in
  let ks0 := <[SessionService.session_key "s1" :=
                 {| value := JSON_stringify s0; ttl := 604800 |}]>
               (∅ : gmap string Entry) in
  exists ks1 entry s1,
    SessionService.updateActivity "s1" (connected ks0 1000) = (Ok tt, connected ks1 1000) /\
    ks1 !! SessionService.session_key "s1" = Some entry /\
    session_of (value entry) = Some s1 /\
    ttl entry = 604800 /\
    ttl entry * 1000 = (expiresAt s1 - 1000) + (1000 - createdAt s1).
Proof.
  intros s0 ks0.
  destruct (proj2 session_writes_attach_window "s1" s0 ks0 1000
              (getSession_stored "s1" ks0 1000 s0 _ (lookup_insert_eq _ _ _)))
    as (ks1 & entry & s1 & Hu & Hk & Hs & Ht & He & Hc & Hw).
  exists ks1, entry, s1. repeat split; try assumption.
  apply Hw. reflexivity.
Defined.

(** ** Revoking every session of a user *)

Lemma glob_star s : redis.glob "*" s = true.
Proof.
  induction s as [|c s IH]; [reflexivity|].
  simpl in *. exact IH.
Qed.

Lemma glob_session_key sessionId :
  redis.glob (SessionService.SESSION_PREFIX +:+ "*")
             (SessionService.session_key sessionId) = true.
Proof. apply (glob_star sessionId). Qed.

Lemma elem_of_keys pattern (ks : gmap string Entry) key :
  key ∈ filter (fun k => redis.glob pattern k = true) (map_to_list ks).*1 <->
  redis.glob pattern key = true /\ is_Some (ks !! key).
Proof.
  rewrite list_elem_of_filter, list_elem_of_fmap. split.
  - intros [Hg [[k entry] [-> Hin]]]. split; [exact Hg|].
    apply elem_of_map_to_list in Hin. simpl. eauto.
  - intros [Hg [entry He]]. split; [exact Hg|].
    exists (key, entry). split; [reflexivity|]. now apply elem_of_map_to_list.
Qed.

Lemma revoke_if_owned_connected userId_ key (ks : gmap string Entry) t :
  (forall entry, ks !! key = Some entry -> String.eqb (value entry) "" = false ->
                 is_Some (session_of (value entry))) ->
  SessionService.revoke_if_owned userId_ key (connected ks t) =
  (Ok tt, connected (if owned_by userId_ (ks !! key) then delete key ks else ks) t).
Proof.
  intros Hwf. unfold SessionService.revoke_if_owned, bind. rewrite get_connected.
  destruct (ks !! key) as [entry|] eqn:He; simpl; [|reflexivity].
  destruct (String.eqb (value entry) "") eqn:Hv; [reflexivity|].
  destruct (Hwf entry eq_refl Hv) as [session Hs].
  unfold JSON_parse. rewrite Hs. simpl.
  now destruct (String.eqb (userId session) userId_).
Qed.

Lemma owned_by_None userId_ : owned_by userId_ None = false.
Proof. reflexivity. Qed.

(** The loop deletes, among the keys it walks, those holding a session of
    the user, and nothing else. *)
Lemma sweep userId_ t (keys : list string) :
  forall ks : gmap string Entry,
    (forall key entry, key ∈ keys -> ks !! key = Some entry ->
                       String.eqb (value entry) "" = false ->
                       is_Some (session_of (value entry))) ->
    exists ks' : gmap string Entry,
      for_of keys (SessionService.revoke_if_owned userId_) (connected ks t)
        = (Ok tt, connected ks' t) /\
      forall k, ks' !! k =
                if decide (k ∈ keys /\ owned_by userId_ (ks !! k) = true)
                then None else ks !! k.
Proof.
  induction keys as [|key keys IH]; intros ks Hwf.
  - exists ks. split; [reflexivity|]. intros k. case_decide as H; [|reflexivity].
    destruct H as [H _]. now apply elem_of_nil in H.
  - set (ks1 := if owned_by userId_ (ks !! key) then delete key ks else ks).
    assert (Hstep : forall k, ks1 !! k =
                      if decide (k = key /\ owned_by userId_ (ks !! k) = true)
                      then None else ks !! k).
    { intros k. subst ks1. case_decide as H.
      - destruct H as [-> H]. rewrite H. apply lookup_delete_eq.
      - destruct (owned_by userId_ (ks !! key)) eqn:Ho; [|reflexivity].
        apply lookup_delete_ne. intros <-. apply H. auto. }
    destruct (IH ks1) as (ks' & Hrun & Hks').
    { intros k entry Hin Hk. apply (Hwf k entry); [now apply elem_of_cons; right|].
      rewrite Hstep in Hk. now case_decide. }
    exists ks'. split.
    + simpl. unfold bind at 1.
      rewrite revoke_if_owned_connected
        by (intros entry; apply Hwf; apply elem_of_cons; now left).
      exact Hrun.
    + intros k. rewrite Hks', Hstep.
      repeat case_decide; try reflexivity; exfalso;
        rewrite ?owned_by_None in *;
        repeat match goal with
               | H : _ /\ _ |- _ => destruct H
               | H : _ ∈ _ :: _ |- _ => apply elem_of_cons in H
               | H : ¬ (_ /\ _) |- _ =>
                   apply H; split; [try apply elem_of_cons; tauto | assumption]
               end; try discriminate; try tauto.
Qed.

(** Walking keys none of which holds a session of the user collects
    nothing. *)
Lemma collect_unowned userId_ (ks : gmap string Entry) t (keys : list string) :
  forall sessions,
    (forall key, key ∈ keys -> owned_by userId_ (ks !! key) = false) ->
    (forall key entry, key ∈ keys -> ks !! key = Some entry ->
                       String.eqb (value entry) "" = false ->
                       is_Some (session_of (value entry))) ->
    SessionService.collect userId_ keys sessions (connected ks t)
      = (Ok sessions, connected ks t).
Proof.
  induction keys as [|key keys IH]; intros sessions Hno Hwf; [reflexivity|].
  assert (Hrest : SessionService.collect userId_ keys sessions (connected ks t)
                  = (Ok sessions, connected ks t)).
  { apply IH.
    - intros k Hk. apply Hno. apply elem_of_cons. now right.
    - intros k entry Hk. apply Hwf. apply elem_of_cons. now right. }
  simpl. unfold bind at 1. rewrite get_connected.
  pose proof (Hno key ltac:(apply elem_of_cons; now left)) as Ho.
  pose proof (fun entry => Hwf key entry ltac:(apply elem_of_cons; now left)) as Hk.
  destruct (ks !! key) as [entry|]; simpl; [|exact Hrest].
  simpl in Ho.
  destruct (String.eqb (value entry) "") eqn:Hv; [exact Hrest|].
  destruct (Hk entry eq_refl Hv) as [session Hs].
  rewrite Hs in Ho. unfold bind, JSON_parse. rewrite Hs. simpl. rewrite Ho.
  exact Hrest.
Qed.

(** The loop of [getUserSessions] pushes, in the order of the keys, the
    sessions of the user that the keys hold. *)
Lemma collect_spec userId_ (ks : gmap string Entry) t (keys : list string) :
  forall sessions,
    (forall key entry, key ∈ keys -> ks !! key = Some entry ->
                       String.eqb (value entry) "" = false ->
                       is_Some (session_of (value entry))) ->
    SessionService.collect userId_ keys sessions (connected ks t)
      = (Ok (sessions ++ omap (session_for userId_ ks) keys)%list, connected ks t).
Proof.
  induction keys as [|key keys IH]; intros sessions Hwf.
  - simpl. now rewrite app_nil_r.
  - assert (Hrest : forall acc,
               SessionService.collect userId_ keys acc (connected ks t)
               = (Ok (acc ++ omap (session_for userId_ ks) keys)%list, connected ks t)).
    { intros acc. apply IH. intros k entry Hk. apply Hwf. apply elem_of_cons. now right. }
    pose proof (fun entry => Hwf key entry ltac:(apply elem_of_cons; now left)) as Hk.
    simpl. unfold bind at 1. rewrite get_connected. unfold session_for at 1.
    destruct (ks !! key) as [entry|]; simpl; [|apply Hrest].
    destruct (String.eqb (value entry) "") eqn:Hv; [apply Hrest|].
    destruct (Hk entry eq_refl Hv) as [session Hs].
    unfold bind, JSON_parse. rewrite Hs. simpl.
    destruct (String.eqb (userId session) userId_); [|apply Hrest].
    rewrite Hrest. now rewrite <- app_assoc.
Qed.

(** The registry's own writes keep the store well formed. *)
Lemma well_formed_empty : well_formed_sessions ∅.
Proof. intros key entry _ H. now rewrite lookup_empty in H. Qed.

Lemma well_formed_insert ks key s seconds :
  well_formed_sessions ks ->
  well_formed_sessions (<[key := {| value := JSON_stringify s; ttl := seconds |}]> ks).
Proof.
  intros Hwf k entry Hg Hk Hv.
  destruct (decide (key = k)) as [->|Hne].
  - rewrite lookup_insert_eq in Hk. injection Hk as <-. simpl.
    rewrite session_of_stringify. eauto.
  - rewrite lookup_insert_ne in Hk by exact Hne. now apply (Hwf k).
Qed.

Lemma well_formed_delete ks key :
  well_formed_sessions ks -> well_formed_sessions (delete key ks).
Proof.
  intros Hwf k entry Hg Hk Hv.
  destruct (decide (key = k)) as [->|Hne].
  - now rewrite lookup_delete_eq in Hk.
  - rewrite lookup_delete_ne in Hk by exact Hne. now apply (Hwf k).
Qed.

Lemma well_formed_revoked ks token seconds :
  well_formed_sessions ks ->
  well_formed_sessions
    (<[TokenService.revoked_key token := {| value := "1"; ttl := seconds |}]> ks).
Proof.
  intros Hwf k entry Hg Hk Hv.
  destruct (decide (TokenService.revoked_key token = k)) as [<-|Hne].
  - discriminate Hg.
  - rewrite lookup_insert_ne in Hk by exact Hne. now apply (Hwf k).
Qed.

(** C8. On a connected, well-formed store, [revokeAllUserSessions]
    completes and deletes exactly the entries under the session prefix
    that hold a record of the given user; every other entry is
    unchanged.  So a session of that user that [getSession] found before
    is not found after, a session of any other user is still returned as
    it was, [getUserSessions] for that user returns the empty list, and
    [getUserSessions] for any other user lists the sessions it listed
    before. *)
Theorem revokeAllUserSessions_frame (userId_ : string)
    (ks : gmap string Entry) (now : Z) :
  well_formed_sessions ks ->
  exists ks' : gmap string Entry,
    SessionService.revokeAllUserSessions userId_ (connected ks now)
      = (Ok tt, connected ks' now) /\
    (forall k,
        ks' !! k =
        if decide (redis.glob (SessionService.SESSION_PREFIX +:+ "*") k = true /\
                   owned_by userId_ (ks !! k) = true)
        then None else ks !! k) /\
    (forall sessionId s,
        SessionService.getSession sessionId (connected ks now)
          = (Ok (Some s), connected ks now) ->
        userId s = userId_ ->
        SessionService.getSession sessionId (connected ks' now)
          = (Ok None, connected ks' now)) /\
    (forall sessionId s,
        SessionService.getSession sessionId (connected ks now)
          = (Ok (Some s), connected ks now) ->
        userId s <> userId_ ->
        SessionService.getSession sessionId (connected ks' now)
          = (Ok (Some s), connected ks' now)) /\
    SessionService.getUserSessions userId_ (connected ks' now)
      = (Ok [], connected ks' now) /\
    (forall other,
        other <> userId_ ->
        exists before after,
          SessionService.getUserSessions other (connected ks now)
            = (Ok before, connected ks now) /\
          SessionService.getUserSessions other (connected ks' now)
            = (Ok after, connected ks' now) /\
          forall s, s ∈ after <-> s ∈ before).
Proof.
  intros Hwf.
  set (pattern := SessionService.SESSION_PREFIX +:+ "*").
  set (keys := filter (fun k => redis.glob pattern k = true) (map_to_list ks).*1).
  destruct (sweep userId_ now keys ks) as (ks' & Hrun & Hks').
  { intros key entry Hin. apply Hwf. now apply elem_of_keys in Hin as [Hg _]. }
  assert (Hchar : forall k,
             ks' !! k =
             if decide (redis.glob pattern k = true /\ owned_by userId_ (ks !! k) = true)
             then None else ks !! k).
  { intros k. rewrite Hks'. unfold keys.
    destruct (owned_by userId_ (ks !! k)) eqn:Ho.
    - assert (Hsome : is_Some (ks !! k))
        by (destruct (ks !! k); [eauto | discriminate Ho]).
      destruct (redis.glob pattern k) eqn:Hg.
      + rewrite decide_True by (split; [apply elem_of_keys; auto | reflexivity]).
        now rewrite decide_True by auto.
      + rewrite decide_False
          by (intros [Hin _]; apply elem_of_keys in Hin as [? _]; congruence).
        now rewrite decide_False by (intros [? _]; discriminate).
    - rewrite decide_False by (intros [_ ?]; discriminate).
      now rewrite decide_False by (intros [_ ?]; discriminate). }
  assert (Hwf' : forall key entry,
             redis.glob pattern key = true -> ks' !! key = Some entry ->
             String.eqb (value entry) "" = false ->
             is_Some (session_of (value entry))).
  { intros key entry Hg He. rewrite Hchar in He. apply (Hwf key entry Hg).
    now case_decide. }
  exists ks'. split; [|split; [exact Hchar|split; [|split; [|split]]]].
  - unfold SessionService.revokeAllUserSessions, bind.
    rewrite getRedisClient_connected, keys_connected. exact Hrun.
  - intros sessionId s Hfound Hu.
    apply getSession_found in Hfound as (entry & Hk & Hv & Hs).
    rewrite getSession_connected, Hchar, Hk.
    rewrite decide_True; [reflexivity|].
    split; [apply glob_session_key|]. simpl. rewrite Hv, Hs. now apply String.eqb_eq.
  - intros sessionId s Hfound Hu.
    apply getSession_found in Hfound as (entry & Hk & Hv & Hs).
    rewrite getSession_connected, Hchar, Hk.
    rewrite decide_False; [now rewrite Hv, Hs|].
    intros [_ Ho]. simpl in Ho. rewrite Hv, Hs in Ho. now apply String.eqb_eq in Ho.
  - unfold SessionService.getUserSessions, bind.
    rewrite getRedisClient_connected, keys_connected.
    apply collect_unowned.
    + intros key Hin. apply elem_of_keys in Hin as [Hg [entry He]].
      rewrite Hchar in He. rewrite Hchar.
      destruct (decide (redis.glob pattern key = true /\
                        owned_by userId_ (ks !! key) = true)) as [|Hn];
        [discriminate|].
      destruct (owned_by userId_ (ks !! key)) eqn:Ho; [|reflexivity].
      exfalso. apply Hn. now split.
    + intros key entry Hin. apply elem_of_keys in Hin as [Hg _]. now apply Hwf'.
  - intros other Hother.
    unfold SessionService.getUserSessions, bind.
    rewrite !getRedisClient_connected, !keys_connected.
    rewrite (collect_spec other ks)
      by (intros key entry Hin; apply elem_of_keys in Hin as [Hg _]; now apply Hwf).
    rewrite (collect_spec other ks')
      by (intros key entry Hin; apply elem_of_keys in Hin as [Hg _]; now apply Hwf').
    eexists. eexists. split; [reflexivity|]. split; [reflexivity|].
    intros s. cbn [app]. rewrite !list_elem_of_omap.
    assert (Hsame : forall key,
               session_for other ks key = Some s ->
               ks' !! key = ks !! key).
    { intros key Hs. rewrite Hchar. rewrite decide_False; [reflexivity|].
      intros [_ Ho]. unfold session_for in Hs. unfold owned_by in Ho.
      destruct (ks !! key) as [entry|]; [|discriminate].
      destruct (String.eqb (value entry) ""); [discriminate|].
      destruct (session_of (value entry)) as [session|]; [|discriminate].
      destruct (String.eqb (userId session) other) eqn:E; [|discriminate].
      apply String.eqb_eq in E, Ho. congruence. }
    split.
    + intros (key & Hin & Hs). exists key.
      apply elem_of_keys in Hin as [Hg [entry He]].
      assert (Hk : ks' !! key = ks !! key).
      { rewrite Hchar in He. rewrite Hchar. now case_decide. }
      split.
      * apply elem_of_keys. split; [exact Hg|]. rewrite <- Hk. eauto.
      * unfold session_for in *. now rewrite <- Hk.
    + intros (key & Hin & Hs). exists key.
      pose proof (Hsame key Hs) as Hk.
      apply elem_of_keys in Hin as [Hg Hsome].
      split.
      * apply elem_of_keys. split; [exact Hg|]. now rewrite Hk.
      * unfold session_for in *. now rewrite Hk.
Qed.

Lemma revokeAllUserSessions_frame_witness :
  exists (ks0 ks1 : gmap string Entry) b1,
    (SessionService.createSession "a1" "A" None None ;;;
     SessionService.createSession "a2" "A" None None ;;;
     SessionService.createSession "a3" "A" None None ;;;
     SessionService.createSession "b1" "B" None None) (connected ∅ 0)
      = (Ok b1, connected ks0 0) /\
    SessionService.revokeAllUserSessions "A" (connected ks0 5000)
      = (Ok tt, connected ks1 5000) /\
    SessionService.getUserSessions "A" (connected ks1 5000) = (Ok [], connected ks1 5000) /\
    SessionService.getSession "a2" (connected ks1 5000) = (Ok None, connected ks1 5000) /\
    SessionService.getSession "b1" (connected ks1 5000) = (Ok (Some b1), connected ks1 5000).
Proof.
  pose (mk := fun i u => {| id := i; userId := u; createdAt := 0;
                            expiresAt := 0 + SessionService.SESSION_TTL * 1000;
                            lastActivityAt := 0; ipAddress := None; userAgent := None |}).
  pose (put := fun i u (m : gmap string Entry) =>
                 <[SessionService.session_key i :=
                     {| value := JSON_stringify (mk i u);
                        ttl := SessionService.SESSION_TTL |}]> m).
  pose (ks0 := put "b1" "B" (put "a3" "A" (put "a2" "A" (put "a1" "A" ∅)))).
  assert (Hwf : well_formed_sessions ks0)
    by (repeat apply well_formed_insert; apply well_formed_empty).
  destruct (revokeAllUserSessions_frame "A" ks0 5000 Hwf)
    as (ks1 & Hrun & _ & Hgone & Hkept & Hnone & _).
  exists ks0, ks1, (mk "b1" "B").
  split; [reflexivity|]. split; [exact Hrun|]. split; [exact Hnone|]. split.
  - apply (Hgone "a2" (mk "a2" "A")); [|reflexivity].
    apply (getSession_stored _ _ _ _ SessionService.SESSION_TTL). reflexivity.
  - apply (Hkept "b1" (mk "b1" "B")); [|discriminate].
    apply (getSession_stored _ _ _ _ SessionService.SESSION_TTL). reflexivity.
Defined.

(** ** The store stays well formed

    Starting from a well-formed store, no operation of the two services
    leaves anything but session records under the session prefix. *)

Lemma createSession_well_formed uuidv4 userId ipAddress userAgent ks now :
  well_formed_sessions ks ->
  exists s ks',
    SessionService.createSession uuidv4 userId ipAddress userAgent (connected ks now)
      = (Ok s, connected ks' now) /\
    well_formed_sessions ks'.
Proof.
  intros Hwf. eexists. eexists. split; [apply createSession_connected|].
  now apply well_formed_insert.
Qed.

Lemma updateActivity_well_formed sessionId ks now :
  well_formed_sessions ks ->
  exists r ks',
    SessionService.updateActivity sessionId (connected ks now) = (r, connected ks' now) /\
    well_formed_sessions ks'.
Proof.
  intros Hwf.
  destruct (SessionService.getSession sessionId (connected ks now)) as [[[s|]|e] w] eqn:Hg.
  - eexists. eexists. split; [exact (updateActivity_connected _ _ _ _ _ Hg)|].
    now apply well_formed_insert.
  - exists (Ok tt), ks. split; [|exact Hwf].
    unfold SessionService.updateActivity, bind. rewrite getRedisClient_connected.
    rewrite getSession_connected in Hg. rewrite getSession_connected.
    repeat match goal with
           | H : context [match ?o with Some _ => _ | None => _ end] |- _ => destruct o
           | H : context [if ?b then _ else _] |- _ => destruct b
           end; now inversion Hg.
  - exists (Throw e), ks. split; [|exact Hwf].
    unfold SessionService.updateActivity, bind. rewrite getRedisClient_connected.
    rewrite getSession_connected in Hg. rewrite getSession_connected.
    repeat match goal with
           | H : context [match ?o with Some _ => _ | None => _ end] |- _ => destruct o
           | H : context [if ?b then _ else _] |- _ => destruct b
           end; now inversion Hg.
Qed.

Lemma revokeSession_well_formed sessionId ks now :
  well_formed_sessions ks ->
  exists ks',
    SessionService.revokeSession sessionId (connected ks now) = (Ok tt, connected ks' now) /\
    well_formed_sessions ks'.
Proof.
  intros Hwf. eexists. split; [reflexivity|]. now apply well_formed_delete.
Qed.

Lemma revokeToken_well_formed token ks now :
  well_formed_sessions ks ->
  exists ks',
    TokenService.revokeToken token (connected ks now) = (Ok tt, connected ks' now) /\
    well_formed_sessions ks'.
Proof.
  intros Hwf. unfold TokenService.revokeToken, try_catch.
  destruct (jwt.decode token) as [decoded|]; [|now exists ks].
  destruct (jwt.exp decoded) as [exp|]; [|now exists ks].
  destruct (exp =? 0); [now exists ks|].
  unfold bind. rewrite getRedisClient_connected. simpl.
  destruct (0 <? exp - now / 1000) eqn:Hpos; [|now exists ks].
  destruct (setEx_cases (TokenService.revoked_key token) (exp - now / 1000) "1" ks now)
    as [Hw | [e Hw]]; rewrite Hw.
  - eexists. split; [reflexivity|]. now apply well_formed_revoked.
  - now exists ks.
Qed.

(** * Further properties *)

(** ** Tokens: what verifies and what does not *)

Lemma verify_encode_unkeyed p key w :
  jwt.verify (jwt.encode p key) "" w =
  (Throw (JsonWebTokenError "secret or public key must be provided"), w).
Proof.
  unfold jwt.verify, bind, Date_now. now rewrite encode_nonempty, parse_encode.
Qed.

Lemma sign_world payload secret expiresIn w r w' :
  jwt.sign payload secret expiresIn w = (r, w') -> w' = w.
Proof.
  unfold jwt.sign, bind, Date_now, throw, ret.
  repeat match goal with
         | |- context [if ?b then _ else _] => destruct b
         | |- context [match ?o with Some _ => _ | None => _ end] => destruct o
         end; intros H; now inversion H.
Qed.

Lemma isTokenRevoked_total token w :
  exists b, TokenService.isTokenRevoked token w = (Ok b, w).
Proof.
  destruct w as [[[[] ks]|] t]; eexists; reflexivity.
Qed.

Lemma isTokenRevoked_world token w r w' :
  TokenService.isTokenRevoked token w = (r, w') -> w' = w.
Proof.
  destruct (isTokenRevoked_total token w) as [b Hb].
  rewrite Hb. now intros [= _ <-].
Qed.

(** X1. A token made by [generateAccessToken] never refreshes: whether
    or not the two secrets differ, and at whatever time,
    [refreshAccessToken] rejects it and leaves the world alone. *)
Theorem access_token_cannot_refresh (security : SecurityConfig)
    (userId email : string) (roles : list string) (millis : Z) (w : World) :
  String.eqb (jwtAccessSecret security) "" = false ->
  ms.parse (jwtAccessExpiry security) = Some millis ->
  exists token,
    TokenService.generateAccessToken security userId email roles w = (Ok token, w) /\
    forall w2,
      TokenService.refreshAccessToken security token w2
        = (Throw (AuthenticationError "Failed to refresh token"), w2).
Proof.
  intros Hs Hm. eexists. split.
  - unfold TokenService.generateAccessToken.
    now apply sign_fresh with (millis := millis).
  - intros w2. unfold TokenService.refreshAccessToken, try_catch, bind at 1.
    destruct (String.eqb (jwtRefreshSecret security) "") eqn:Hr.
    + apply String.eqb_eq in Hr. rewrite Hr, verify_encode_unkeyed. reflexivity.
    + rewrite verify_encode by exact Hr. simpl.
      destruct (negb _); [reflexivity|].
      destruct (_ <=? _); reflexivity.
Qed.

Lemma access_token_cannot_refresh_witness :
  let security := {| jwtAccessSecret := "one-secret"; jwtRefreshSecret := "one-secret";
                     jwtAccessExpiry := "15m"; jwtRefreshExpiry := "7d" |} in
  exists token,
    TokenService.generateAccessToken security "u1" "u1@x.com" ["admin"] (connected ∅ 5500)
      = (Ok token, connected ∅ 5500) /\
    TokenService.refreshAccessToken security token (connected ∅ 6000)
      = (Throw (AuthenticationError "Failed to refresh token"), connected ∅ 6000).
Proof.
  intros security.
  destruct (access_token_cannot_refresh security "u1" "u1@x.com" ["admin"] 900000
              (connected ∅ 5500) eq_refl eq_refl) as (token & Hg & Hr).
  exists token. split; [exact Hg | exact (Hr (connected ∅ 6000))].
Defined.

(** X2. When the two secrets differ, a token made by
    [generateRefreshToken] never passes [verifyToken] with the default
    secret. *)
Theorem refresh_token_not_an_access_token (security : SecurityConfig)
    (userId : string) (millis : Z) (w : World) :
  String.eqb (jwtRefreshSecret security) "" = false ->
  ms.parse (jwtRefreshExpiry security) = Some millis ->
  jwtAccessSecret security <> jwtRefreshSecret security ->
  exists token,
    TokenService.generateRefreshToken security userId w = (Ok token, w) /\
    forall w2,
      TokenService.verifyToken security token None w2
        = (Throw (AuthenticationError "Invalid or expired token"), w2).
Proof.
  intros Hs Hm Hne. eexists. split.
  - unfold TokenService.generateRefreshToken.
    now apply sign_fresh with (millis := millis).
  - intros w2. unfold TokenService.verifyToken, try_catch, bind. simpl.
    destruct (String.eqb (jwtAccessSecret security) "") eqn:Ha.
    + apply String.eqb_eq in Ha. rewrite Ha, verify_encode_unkeyed. reflexivity.
    + rewrite verify_encode by exact Ha.
      replace (String.eqb (jwtRefreshSecret security) (jwtAccessSecret security))
        with false; [reflexivity|].
      symmetry. apply String.eqb_neq. congruence.
Qed.

Lemma refresh_token_not_an_access_token_witness :
  let security := {| jwtAccessSecret := "access-secret"; jwtRefreshSecret := "refresh-secret";
                     jwtAccessExpiry := "15m"; jwtRefreshExpiry := "7d" |} in
  exists token,
    TokenService.generateRefreshToken security "u1" (connected ∅ 5500)
      = (Ok token, connected ∅ 5500) /\
    TokenService.verifyToken security token None (connected ∅ 5500)
      = (Throw (AuthenticationError "Invalid or expired token"), connected ∅ 5500).
Proof.
  intros security.
  destruct (refresh_token_not_an_access_token security "u1" 604800000
              (connected ∅ 5500) eq_refl eq_refl ltac:(discriminate))
    as (token & Hg & Hv).
  exists token. split; [exact Hg | exact (Hv (connected ∅ 5500))].
Defined.

(** X3. [verifyToken] returns a payload exactly when the token is the
    serialisation of that payload signed with the secret in force
    (the given one, or the access secret when none or the empty string is
    given), that secret is not empty, and the payload has no [exp] or an
    [exp] later than the clock's second.  In every other case it throws
    the AuthenticationError "Invalid or expired token".  It never changes
    the world. *)
Theorem verifyToken_accepts_exactly (security : SecurityConfig)
    (token : string) (secret : option string) (w : World) :
  let key := TokenService.secret_or_access security secret in
  (forall payload,
      TokenService.verifyToken security token secret w = (Ok payload, w) <->
      jwt.parse token = Some (payload, key) /\
      key <> "" /\
      match jwt.exp payload with
      | Some e => clock w / 1000 < e
      | None => True
      end) /\
  ((exists payload, TokenService.verifyToken security token secret w = (Ok payload, w)) \/
   TokenService.verifyToken security token secret w
     = (Throw (AuthenticationError "Invalid or expired token"), w)).
Proof.
  intros key.
  assert (Hrun : TokenService.verifyToken security token secret w =
                 match jwt.parse token with
                 | Some (payload, signature) =>
                     if String.eqb token "" || String.eqb key "" ||
                        negb (String.eqb signature key) ||
                        match jwt.exp payload with
                        | Some e => e <=? clock w / 1000
                        | None => false
                        end
                     then (Throw (AuthenticationError "Invalid or expired token"), w)
                     else (Ok payload, w)
                 | None => (Throw (AuthenticationError "Invalid or expired token"), w)
                 end).
  { unfold TokenService.verifyToken, try_catch, bind, jwt.verify, bind, Date_now.
    fold key.
    destruct (String.eqb token "") eqn:Ht.
    - simpl. now destruct (jwt.parse token) as [[? ?]|].
    - destruct (jwt.parse token) as [[payload signature]|]; [|reflexivity].
      destruct (String.eqb key ""); [reflexivity|].
      destruct (String.eqb signature key); [|reflexivity]. simpl.
      destruct (jwt.exp payload) as [e|]; [|reflexivity].
      now destruct (e <=? clock w / 1000). }
  assert (Hnonempty : forall pk, jwt.parse token = Some pk -> String.eqb token "" = false).
  { intros pk Hp. destruct token; [discriminate Hp | reflexivity]. }
  split.
  - intros payload. rewrite Hrun. split.
    + destruct (jwt.parse token) as [[p signature]|] eqn:Hp; [|discriminate].
      destruct (String.eqb token "") eqn:Ht; [discriminate|].
      destruct (String.eqb key "") eqn:Hk; [discriminate|].
      destruct (String.eqb signature key) eqn:Hsig; [|discriminate]. simpl.
      apply String.eqb_eq in Hsig. apply String.eqb_neq in Hk. subst signature.
      destruct (jwt.exp p) as [e|] eqn:He.
      * destruct (e <=? clock w / 1000) eqn:Hle; [discriminate|].
        apply Z.leb_gt in Hle. intros [= <-]. rewrite He. auto.
      * intros [= <-]. rewrite He. auto.
    + intros (Hp & Hk & He). rewrite Hp, (Hnonempty _ Hp).
      apply String.eqb_neq in Hk. rewrite Hk, String.eqb_refl. simpl.
      destruct (jwt.exp payload) as [e|]; [|reflexivity].
      apply Z.leb_gt in He. now rewrite He.
  - rewrite Hrun. destruct (jwt.parse token) as [[p signature]|]; [|now right].
    destruct (_ || _); [now right | left; eauto].
Qed.

Lemma verifyToken_accepts_exactly_witness :
  let security := {| jwtAccessSecret := "access-secret"; jwtRefreshSecret := "refresh-secret";
                     jwtAccessExpiry := "15m"; jwtRefreshExpiry := "7d" |} in
  let payload := {| jwt.userId := Some "u1"; jwt.email := None; jwt.roles := None;
                    jwt.type := None; jwt.iat := Some 5; jwt.exp := Some 905 |} in
  TokenService.verifyToken security (jwt.encode payload "other-secret")
                           (Some "other-secret") (connected ∅ 5500)
    = (Ok payload, connected ∅ 5500).
Proof.
  intros security payload.
  apply (proj1 (verifyToken_accepts_exactly security _ (Some "other-secret") _)).
  split; [apply parse_encode|]. split; [discriminate|]. reflexivity.
Defined.

(** ** Refreshing and revoking together *)

Lemma refresh_valid security refreshToken decoded millis w :
  jwt.verify refreshToken (jwtRefreshSecret security) w = (Ok decoded, w) ->
  jwt.type decoded = Some "refresh" ->
  TokenService.isTokenRevoked refreshToken w = (Ok false, w) ->
  String.eqb (jwtAccessSecret security) "" = false ->
  ms.parse (jwtAccessExpiry security) = Some millis ->
  let claims := {| jwt.userId := jwt.userId decoded; jwt.email := None;
                   jwt.roles := None; jwt.type := None;
                   jwt.iat := Some (clock w / 1000);
                   jwt.exp := Some (clock w / 1000 + millis / 1000) |} in
  TokenService.refreshAccessToken security refreshToken w
    = (Ok (jwt.encode claims (jwtAccessSecret security), expiry_of claims), w).
Proof.
  intros Hv Ht Hr Hs Hm claims.
  rewrite (refresh_after_verify _ _ _ _ Hv).
  unfold try_catch. rewrite bool_decide_eq_true_2 by exact Ht. simpl.
  unfold bind at 1. rewrite Hr.
  unfold bind at 1. rewrite (sign_fresh _ _ _ millis) by (try reflexivity; assumption).
  unfold bind, TokenService.decoded_payload. rewrite decode_encode. reflexivity.
Qed.

Lemma revokeToken_connected token decoded exp ks now :
  jwt.decode token = Some decoded ->
  jwt.exp decoded = Some exp ->
  now / 1000 < exp -> 0 <= now ->
  exp <= MAX_SAFE_INTEGER ->
  TokenService.revokeToken token (connected ks now) =
  (Ok tt, connected (<[TokenService.revoked_key token :=
                         {| value := "1"; ttl := exp - now / 1000 |}]> ks) now).
Proof.
  intros Hd He Hlt Hnow Hsafe.
  assert (0 <= now / 1000) by (apply Z.div_pos; lia).
  pose proof safe_integer_fits as Hfit.
  unfold TokenService.revokeToken, try_catch. rewrite Hd, He.
  replace (exp =? 0) with false by (symmetry; apply Z.eqb_neq; lia).
  unfold bind. rewrite getRedisClient_connected. simpl.
  replace (0 <? exp - now / 1000) with true by (symmetry; apply Z.ltb_lt; lia).
  rewrite setEx_connected by lia. reflexivity.
Qed.

(** X4. A token made by [generateRefreshToken] refreshes, wherever the
    registry does not report it revoked, at every instant whose second is
    before the token's [exp], and the access token it yields is for the
    same user; from the second of [exp] on it is rejected. *)
Theorem refresh_token_lifetime (security : SecurityConfig)
    (userId : string) (mr ma : Z) (w : World) :
  String.eqb (jwtRefreshSecret security) "" = false ->
  String.eqb (jwtAccessSecret security) "" = false ->
  ms.parse (jwtRefreshExpiry security) = Some mr ->
  ms.parse (jwtAccessExpiry security) = Some ma ->
  exists token,
    TokenService.generateRefreshToken security userId w = (Ok token, w) /\
    (forall w2,
        TokenService.isTokenRevoked token w2 = (Ok false, w2) ->
        clock w2 / 1000 < clock w / 1000 + mr / 1000 ->
        exists accessToken expiresIn claims,
          TokenService.refreshAccessToken security token w2
            = (Ok (accessToken, expiresIn), w2) /\
          jwt.decode accessToken = Some claims /\
          jwt.userId claims = Some userId) /\
    (forall w2,
        clock w / 1000 + mr / 1000 <= clock w2 / 1000 ->
        TokenService.refreshAccessToken security token w2
          = (Throw (AuthenticationError "Failed to refresh token"), w2)).
Proof.
  intros Hr Ha Hmr Hma.
  pose (p := {| jwt.userId := Some userId; jwt.email := None; jwt.roles := None;
                jwt.type := Some "refresh"; jwt.iat := Some (clock w / 1000);
                jwt.exp := Some (clock w / 1000 + mr / 1000) |}).
  exists (jwt.encode p (jwtRefreshSecret security)). split; [|split].
  - unfold TokenService.generateRefreshToken.
    now rewrite (sign_fresh _ _ _ mr) by (try reflexivity; assumption).
  - intros w2 Hnot Hlt.
    assert (Hv : jwt.verify (jwt.encode p (jwtRefreshSecret security))
                            (jwtRefreshSecret security) w2 = (Ok p, w2)).
    { rewrite verify_encode by exact Hr. rewrite String.eqb_refl. simpl.
      replace (_ <=? _) with false by (symmetry; apply Z.leb_gt; lia).
      reflexivity. }
    pose proof (refresh_valid security _ p ma w2 Hv eq_refl Hnot Ha Hma) as Hrun.
    eexists. eexists. eexists. split; [exact Hrun|].
    split; [apply decode_encode | reflexivity].
  - intros w2 Hge.
    unfold TokenService.refreshAccessToken, try_catch, bind at 1.
    rewrite verify_encode by exact Hr. rewrite String.eqb_refl. simpl.
    apply Z.leb_le in Hge. now rewrite Hge.
Qed.

Lemma refresh_token_lifetime_witness :
  let security := {| jwtAccessSecret := "access-secret"; jwtRefreshSecret := "refresh-secret";
                     jwtAccessExpiry := "15m"; jwtRefreshExpiry := "7d" |} in
  exists token,
    TokenService.generateRefreshToken security "u1" (connected ∅ 5500)
      = (Ok token, connected ∅ 5500) /\
    (exists accessToken expiresIn,
        TokenService.refreshAccessToken security token (connected ∅ 604804999)
          = (Ok (accessToken, expiresIn), connected ∅ 604804999)) /\
    TokenService.refreshAccessToken security token (connected ∅ 604805000)
      = (Throw (AuthenticationError "Failed to refresh token"), connected ∅ 604805000).
Proof.
  intros security.
  destruct (refresh_token_lifetime security "u1" 604800000 900000 (connected ∅ 5500)
              eq_refl eq_refl eq_refl eq_refl) as (token & Hg & Hlive & Hdead).
  exists token. split; [exact Hg|]. split.
  - assert (Hnot : TokenService.isTokenRevoked token (connected ∅ 604804999)
                   = (Ok false, connected ∅ 604804999))
      by (rewrite isTokenRevoked_connected, lookup_empty; reflexivity).
    destruct (Hlive (connected ∅ 604804999) Hnot eq_refl)
      as (accessToken & expiresIn & _ & Hrun & _).
    eauto.
  - apply Hdead. discriminate.
Defined.

(** X5. A revoked refresh token is never refreshed again.  With the
    store connected and the token's [exp] a whole number up to
    [Number.MAX_SAFE_INTEGER], after [revokeToken] of a fresh refresh
    token every [refreshAccessToken] of it fails, whatever else the store
    then holds: for as long as the denylist entry is there, and also at
    every instant once the entry is left to expiry alone, because the
    entry is held for as long as the token has not expired. *)
Theorem revoked_token_cannot_refresh (security : SecurityConfig)
    (userId : string) (mr : Z) (ks : gmap string Entry) (now : Z) :
  String.eqb (jwtRefreshSecret security) "" = false ->
  ms.parse (jwtRefreshExpiry security) = Some mr ->
  1000 <= mr -> 0 <= now ->
  now / 1000 + mr / 1000 <= MAX_SAFE_INTEGER ->
  exists token ks',
    TokenService.generateRefreshToken security userId (connected ks now)
      = (Ok token, connected ks now) /\
    TokenService.revokeToken token (connected ks now) = (Ok tt, connected ks' now) /\
    (forall ks2 later,
        ks2 !! TokenService.revoked_key token = ks' !! TokenService.revoked_key token ->
        TokenService.refreshAccessToken security token (connected ks2 later)
          = (Throw (AuthenticationError "Failed to refresh token"), connected ks2 later)) /\
    (forall ks2 later,
        ks2 !! TokenService.revoked_key token
          = lapse now (ks' !! TokenService.revoked_key token) later ->
        TokenService.refreshAccessToken security token (connected ks2 later)
          = (Throw (AuthenticationError "Failed to refresh token"), connected ks2 later)).
Proof.
  intros Hr Hmr Hge Hnow Hsafe.
  assert (1 <= mr / 1000) by (apply Z.div_le_lower_bound; lia).
  pose (p := {| jwt.userId := Some userId; jwt.email := None; jwt.roles := None;
                jwt.type := Some "refresh"; jwt.iat := Some (now / 1000);
                jwt.exp := Some (now / 1000 + mr / 1000) |}).
  pose (token := jwt.encode p (jwtRefreshSecret security)).
  exists token. eexists. split; [|split; [|split]].
  - unfold TokenService.generateRefreshToken.
    now rewrite (sign_fresh _ _ _ mr) by (try reflexivity; assumption).
  - apply (revokeToken_connected token p (now / 1000 + mr / 1000));
      [apply decode_encode | reflexivity | lia | exact Hnow | exact Hsafe].
  - intros ks2 later Hk.
    unfold TokenService.refreshAccessToken, try_catch, bind at 1.
    unfold token at 1. rewrite verify_encode by exact Hr.
    rewrite String.eqb_refl. simpl.
    destruct (_ <=? _); [reflexivity|]. simpl.
    unfold bind. fold token.
    rewrite isTokenRevoked_connected, Hk, lookup_insert_eq. reflexivity.
  - intros ks2 later Hk.
    unfold TokenService.refreshAccessToken, try_catch, bind at 1.
    unfold token at 1. rewrite verify_encode by exact Hr.
    rewrite String.eqb_refl. simpl.
    destruct (_ <=? _) eqn:Hexp; [reflexivity|]. simpl.
    unfold bind. fold token.
    apply Z.leb_gt in Hexp.
    rewrite lookup_insert_eq in Hk. unfold lapse, held in Hk. cbn [ttl] in Hk.
    pose proof (Z.mod_pos_bound later 1000 ltac:(lia)).
    pose proof (Z.div_mod later 1000 ltac:(lia)).
    pose proof (Z.mod_pos_bound now 1000 ltac:(lia)).
    pose proof (Z.div_mod now 1000 ltac:(lia)).
    replace (later <=? _) with true in Hk by (symmetry; apply Z.leb_le; lia).
    rewrite orb_true_r in Hk.
    rewrite isTokenRevoked_connected, Hk. reflexivity.
Qed.

Lemma revoked_token_cannot_refresh_witness :
  let security := {| jwtAccessSecret := "access-secret"; jwtRefreshSecret := "refresh-secret";
                     jwtAccessExpiry := "15m"; jwtRefreshExpiry := "7d" |} in
  exists token ks',
    TokenService.generateRefreshToken security "u1" (connected ∅ 5500)
      = (Ok token, connected ∅ 5500) /\
    TokenService.revokeToken token (connected ∅ 5500) = (Ok tt, connected ks' 5500) /\
    TokenService.refreshAccessToken security token (connected ks' 9000)
      = (Throw (AuthenticationError "Failed to refresh token"), connected ks' 9000).
Proof.
  intros security.
  destruct (revoked_token_cannot_refresh security "u1" 604800000 ∅ 5500
              eq_refl eq_refl ltac:(lia) ltac:(lia)
              ltac:(vm_compute; discriminate))
    as (token & ks' & Hg & Hrev & Hblock & _).
  exists token, ks'. split; [exact Hg|]. split; [exact Hrev|].
  apply Hblock. reflexivity.
Defined.

(** X6. The revocation check fails open all the way up: in a world
    whose Redis client was never initialised or is closed, a refresh
    token that verifies, with [type] "refresh", is refreshed, whether or
    not it was revoked before. *)
Theorem refresh_ignores_unreachable_registry (security : SecurityConfig)
    (refreshToken : string) (decoded : jwt.Payload) (millis : Z) (w : World) :
  match redisClient w with
  | Some client => isOpen client = false
  | None => True
  end ->
  jwt.verify refreshToken (jwtRefreshSecret security) w = (Ok decoded, w) ->
  jwt.type decoded = Some "refresh" ->
  String.eqb (jwtAccessSecret security) "" = false ->
  ms.parse (jwtAccessExpiry security) = Some millis ->
  exists accessToken expiresIn claims,
    TokenService.refreshAccessToken security refreshToken w
      = (Ok (accessToken, expiresIn), w) /\
    jwt.decode accessToken = Some claims /\
    jwt.userId claims = jwt.userId decoded.
Proof.
  intros Hdown Hv Ht Hs Hm.
  assert (Hr : TokenService.isTokenRevoked refreshToken w = (Ok false, w)).
  { destruct w as [[[[] ks]|] t]; simpl in Hdown; try discriminate; reflexivity. }
  eexists. eexists. eexists. split; [|split].
  - now apply refresh_valid with (millis := millis) (decoded := decoded).
  - apply decode_encode.
  - reflexivity.
Qed.

Lemma refresh_ignores_unreachable_registry_witness :
  let security := {| jwtAccessSecret := "access-secret"; jwtRefreshSecret := "refresh-secret";
                     jwtAccessExpiry := "15m"; jwtRefreshExpiry := "7d" |} in
  let payload := {| jwt.userId := Some "u1"; jwt.email := None; jwt.roles := None;
                    jwt.type := Some "refresh"; jwt.iat := Some 5;
                    jwt.exp := Some 604805 |} in
  let token := jwt.encode payload "refresh-secret" in
  let revoked := <[TokenService.revoked_key token := {| value := "1"; ttl := 604800 |}]>
                   (∅ : gmap string Entry) in
  let w := {| redisClient := Some {| isOpen := false; keyspace := revoked |};
              clock := 9000 |} in
  exists accessToken expiresIn,
    TokenService.refreshAccessToken security token w = (Ok (accessToken, expiresIn), w).
Proof.
  intros security payload token revoked w.
  destruct (refresh_ignores_unreachable_registry security token payload 900000 w
              eq_refl eq_refl eq_refl eq_refl eq_refl)
    as (accessToken & expiresIn & _ & Hrun & _).
  eauto.
Defined.

Lemma revoked_key_inj a b :
  TokenService.revoked_key a = TokenService.revoked_key b -> a = b.
Proof. intros H. cbn in H. now injection H. Qed.

Lemma session_key_inj a b :
  SessionService.session_key a = SessionService.session_key b -> a = b.
Proof. intros H. cbn in H. now injection H. Qed.

Lemma session_key_not_revoked_key sessionId token :
  SessionService.session_key sessionId <> TokenService.revoked_key token.
Proof. discriminate. Qed.

(** The keyspace [revokeToken] leaves behind, whatever the token. *)
Lemma revokeToken_keyspace token ks now :
  exists ks' : gmap string Entry,
    TokenService.revokeToken token (connected ks now) = (Ok tt, connected ks' now) /\
    forall k, k <> TokenService.revoked_key token -> ks' !! k = ks !! k.
Proof.
  unfold TokenService.revokeToken, try_catch.
  destruct (jwt.decode token) as [decoded|]; [|now exists ks].
  destruct (jwt.exp decoded) as [exp|]; [|now exists ks].
  destruct (exp =? 0); [now exists ks|].
  unfold bind. rewrite getRedisClient_connected. simpl.
  destruct (0 <? exp - now / 1000) eqn:Hpos; [|now exists ks].
  destruct (setEx_cases (TokenService.revoked_key token) (exp - now / 1000) "1" ks now)
    as [Hw | [e Hw]]; rewrite Hw.
  - eexists. split; [reflexivity|]. intros k Hk. now apply lookup_insert_ne.
  - now exists ks.
Qed.

(** X7. Revoking one token concerns that token only: whatever the
    token and the store, [revokeToken] completes, and afterwards
    [isTokenRevoked] answers for every other token, and [getSession] for
    every session, what it answered before. *)
Theorem revokeToken_concerns_one_token (token : string)
    (ks : gmap string Entry) (now : Z) :
  exists ks' : gmap string Entry,
    TokenService.revokeToken token (connected ks now) = (Ok tt, connected ks' now) /\
    (forall other later,
        other <> token ->
        (TokenService.isTokenRevoked other (connected ks' later)).1
          = (TokenService.isTokenRevoked other (connected ks later)).1) /\
    (forall sessionId later,
        (SessionService.getSession sessionId (connected ks' later)).1
          = (SessionService.getSession sessionId (connected ks later)).1).
Proof.
  destruct (revokeToken_keyspace token ks now) as (ks' & Hrun & Hframe).
  exists ks'. split; [exact Hrun|]. split.
  - intros other later Hne. rewrite !isTokenRevoked_connected.
    rewrite Hframe; [reflexivity|]. intros H. now apply revoked_key_inj in H.
  - intros sessionId later. rewrite !getSession_connected.
    rewrite Hframe by apply session_key_not_revoked_key.
    destruct (ks !! SessionService.session_key sessionId) as [entry|]; [|reflexivity].
    destruct (String.eqb (value entry) ""); [reflexivity|].
    now destruct (session_of (value entry)).
Qed.

Lemma revokeToken_concerns_one_token_witness :
  let token := jwt.encode {| jwt.userId := Some "u1"; jwt.email := None;
                             jwt.roles := None; jwt.type := Some "refresh";
                             jwt.iat := Some 5; jwt.exp := Some 604805 |} "refresh-secret" in
  exists ks' : gmap string Entry,
    TokenService.revokeToken token (connected ∅ 5500) = (Ok tt, connected ks' 5500) /\
    (TokenService.isTokenRevoked "another token" (connected ks' 6000)).1 = Ok false.
Proof.
  intros token.
  destruct (revokeToken_concerns_one_token token ∅ 5500) as (ks' & Hrun & Hother & _).
  exists ks'. split; [exact Hrun|].
  rewrite (Hother "another token" 6000); [reflexivity | discriminate].
Defined.

Lemma refreshAccessToken_world security refreshToken w r w' :
  TokenService.refreshAccessToken security refreshToken w = (r, w') -> w' = w.
Proof.
  unfold TokenService.refreshAccessToken, try_catch, bind at 1.
  destruct (jwt.verify refreshToken (jwtRefreshSecret security) w)
    as [[decoded|e] w1] eqn:Hv; apply verify_world in Hv; subst w1.
  2: { intros H. now inversion H. }
  destruct (negb _); [intros H; now inversion H|].
  unfold bind at 1.
  destruct (isTokenRevoked_total refreshToken w) as [b ->].
  destruct b; [intros H; now inversion H|].
  unfold bind at 1.
  match goal with
  | |- context [jwt.sign ?p ?s ?x w] =>
      destruct (jwt.sign p s x w) as [[accessToken|e] w1] eqn:Hs;
      apply sign_world in Hs; subst w1
  end.
  2: { intros H. now inversion H. }
  unfold bind, TokenService.decoded_payload.
  destruct (jwt.decode accessToken); intros H; now inversion H.
Qed.

Lemma generateTokenPair_world security userId email roles w r w' :
  TokenService.generateTokenPair security userId email roles w = (r, w') -> w' = w.
Proof.
  unfold TokenService.generateTokenPair, TokenService.generateAccessToken,
    TokenService.generateRefreshToken, bind at 1.
  match goal with
  | |- context [jwt.sign ?p ?s ?x w] =>
      destruct (jwt.sign p s x w) as [[accessToken|e] w1] eqn:Hs;
      apply sign_world in Hs; subst w1
  end.
  2: { intros H. now inversion H. }
  unfold bind at 1.
  match goal with
  | |- context [jwt.sign ?p ?s ?x w] =>
      destruct (jwt.sign p s x w) as [[refreshToken|e] w1] eqn:Hs;
      apply sign_world in Hs; subst w1
  end.
  2: { intros H. now inversion H. }
  unfold bind, TokenService.decoded_payload.
  destruct (jwt.decode accessToken); intros H; now inversion H.
Qed.

(** X8. Issuing and refreshing write nothing.  [generateTokenPair] and
    [refreshAccessToken] leave the world exactly as it was, on success
    and on failure: issued tokens are recorded nowhere, and the refresh
    token presented is not revoked by its use, so presenting it again at
    the same instant has the same outcome. *)
Theorem refresh_does_not_rotate (security : SecurityConfig) (w : World) :
  (forall userId email roles r w',
      TokenService.generateTokenPair security userId email roles w = (r, w') -> w' = w) /\
  (forall refreshToken r w',
      TokenService.refreshAccessToken security refreshToken w = (r, w') ->
      w' = w /\ TokenService.refreshAccessToken security refreshToken w' = (r, w')).
Proof.
  split.
  - intros userId email roles r w'. apply generateTokenPair_world.
  - intros refreshToken r w' H.
    pose proof (refreshAccessToken_world _ _ _ _ _ H) as ->. auto.
Qed.

Lemma refresh_does_not_rotate_witness :
  let security := {| jwtAccessSecret := "access-secret"; jwtRefreshSecret := "refresh-secret";
                     jwtAccessExpiry := "15m"; jwtRefreshExpiry := "7d" |} in
  let token := jwt.encode {| jwt.userId := Some "u1"; jwt.email := None;
                             jwt.roles := None; jwt.type := Some "refresh";
                             jwt.iat := Some 5; jwt.exp := Some 604805 |} "refresh-secret" in
  exists r w',
    TokenService.refreshAccessToken security token (connected ∅ 5500) = (r, w') /\
    w' = connected ∅ 5500.
Proof.
  intros security token.
  destruct (TokenService.refreshAccessToken security token (connected ∅ 5500))
    as [r w'] eqn:H.
  exists r, w'. split; [reflexivity|].
  exact (proj1 (proj2 (refresh_does_not_rotate security (connected ∅ 5500)) token r w' H)).
Defined.

(** ** Sessions: reading back, removing, listing *)

Lemma glob_session_inv key :
  redis.glob (SessionService.SESSION_PREFIX +:+ "*") key = true ->
  exists sessionId, key = SessionService.session_key sessionId.
Proof.
  intros H. cbn in H.
  repeat (destruct key as [|? key]; [discriminate H|];
          apply andb_true_iff in H as [Hc H];
          apply Ascii.eqb_eq in Hc; subst).
  now exists key.
Qed.

Lemma getSession_same_entry sessionId (ks1 ks2 : gmap string Entry) t1 t2 :
  ks1 !! SessionService.session_key sessionId
    = ks2 !! SessionService.session_key sessionId ->
  (SessionService.getSession sessionId (connected ks1 t1)).1
    = (SessionService.getSession sessionId (connected ks2 t2)).1.
Proof.
  intros H. rewrite !getSession_connected, H.
  destruct (ks2 !! SessionService.session_key sessionId) as [entry|]; [|reflexivity].
  destruct (String.eqb (value entry) ""); [reflexivity|].
  now destruct (session_of (value entry)).
Qed.



(** X10. With the store connected, [revokeSession] completes whether or
    not the session exists; afterwards [getSession] of that id returns
    [null], a second [revokeSession] changes nothing, and [getSession] of
    every other id and [isTokenRevoked] of every token answer as
    before. *)
Theorem revokeSession_removes_one (sessionId : string)
    (ks : gmap string Entry) (now : Z) :
  exists ks' : gmap string Entry,
    SessionService.revokeSession sessionId (connected ks now) = (Ok tt, connected ks' now) /\
    (forall later,
        SessionService.getSession sessionId (connected ks' later)
          = (Ok None, connected ks' later)) /\
    (forall later,
        SessionService.revokeSession sessionId (connected ks' later)
          = (Ok tt, connected ks' later)) /\
    (forall other later,
        other <> sessionId ->
        (SessionService.getSession other (connected ks' later)).1
          = (SessionService.getSession other (connected ks later)).1) /\
    (forall token later,
        (TokenService.isTokenRevoked token (connected ks' later)).1
          = (TokenService.isTokenRevoked token (connected ks later)).1).
Proof.
  exists (delete (SessionService.session_key sessionId) ks).
  split; [reflexivity|]. split; [|split; [|split]].
  - intros later. now rewrite getSession_connected, lookup_delete_eq.
  - intros later. unfold SessionService.revokeSession, bind.
    rewrite getRedisClient_connected, del_connected.
    now rewrite delete_delete_eq.
  - intros other later Hne. apply getSession_same_entry.
    apply lookup_delete_ne.
    intros H. apply session_key_inj in H. congruence.
  - intros token later. rewrite !isTokenRevoked_connected.
    rewrite lookup_delete_ne; [reflexivity|]. apply session_key_not_revoked_key.
Qed.

Lemma revokeSession_removes_one_witness :
  exists (ks0 ks1 : gmap string Entry) s2,
    (SessionService.createSession "s1" "A" None None ;;;
     SessionService.createSession "s2" "A" None None) (connected ∅ 0)
      = (Ok s2, connected ks0 0) /\
    SessionService.revokeSession "s1" (connected ks0 10) = (Ok tt, connected ks1 10) /\
    SessionService.getSession "s1" (connected ks1 10) = (Ok None, connected ks1 10) /\
    (SessionService.getSession "s2" (connected ks1 10)).1 = Ok (Some s2).
Proof.
  pose (mk := fun i => {| id := i; userId := "A"; createdAt := 0;
                          expiresAt := 0 + SessionService.SESSION_TTL * 1000;
                          lastActivityAt := 0; ipAddress := None; userAgent := None |}).
  pose (put := fun i (m : gmap string Entry) =>
                 <[SessionService.session_key i :=
                     {| value := JSON_stringify (mk i);
                        ttl := SessionService.SESSION_TTL |}]> m).
  pose (ks0 := put "s2" (put "s1" ∅)).
  destruct (revokeSession_removes_one "s1" ks0 10) as (ks1 & Hrun & Hgone & _ & Hkept & _).
  exists ks0, ks1, (mk "s2").
  split; [reflexivity|]. split; [exact Hrun|]. split; [exact (Hgone 10)|].
  rewrite (Hkept "s2" 10) by discriminate. reflexivity.
Defined.

(** X11. With the store connected and well formed, [getUserSessions]
    completes without changing anything and lists exactly the sessions
    of the user that [getSession] can return: a record is in the list if
    and only if it belongs to the user and is the answer of [getSession]
    for some id. *)
Theorem getUserSessions_lists_exactly (user : string)
    (ks : gmap string Entry) (now : Z) :
  well_formed_sessions ks ->
  exists sessions,
    SessionService.getUserSessions user (connected ks now)
      = (Ok sessions, connected ks now) /\
    forall s,
      s ∈ sessions <->
      userId s = user /\
      exists sessionId,
        SessionService.getSession sessionId (connected ks now)
          = (Ok (Some s), connected ks now).
Proof.
  intros Hwf.
  set (pattern := SessionService.SESSION_PREFIX +:+ "*").
  exists (omap (session_for user ks)
               (filter (fun k => redis.glob pattern k = true) (map_to_list ks).*1)).
  split.
  - unfold SessionService.getUserSessions, bind.
    rewrite getRedisClient_connected, keys_connected.
    rewrite (collect_spec user ks)
      by (intros key entry Hin; apply elem_of_keys in Hin as [Hg _]; now apply Hwf).
    reflexivity.
  - intros s. rewrite list_elem_of_omap. split.
    + intros (key & Hin & Hs). apply elem_of_keys in Hin as [Hg _].
      destruct (glob_session_inv key Hg) as [sessionId ->].
      unfold session_for in Hs.
      destruct (ks !! SessionService.session_key sessionId) as [entry|] eqn:He;
        [|discriminate].
      destruct (String.eqb (value entry) "") eqn:Hv; [discriminate|].
      destruct (session_of (value entry)) as [s'|] eqn:Hp; [|discriminate].
      destruct (String.eqb (userId s') user) eqn:Hu; [|discriminate].
      injection Hs as <-. apply String.eqb_eq in Hu. split; [exact Hu|].
      exists sessionId. now rewrite getSession_connected, He, Hv, Hp.
    + intros (Hu & sessionId & Hget).
      apply getSession_found in Hget as (entry & He & Hv & Hp).
      exists (SessionService.session_key sessionId). split.
      * apply elem_of_keys. split; [apply glob_session_key | eauto].
      * unfold session_for. rewrite He, Hv, Hp.
        apply String.eqb_eq in Hu. now rewrite Hu.
Qed.

Lemma getUserSessions_lists_exactly_witness :
  exists (ks0 : gmap string Entry) a1 sessions,
    (SessionService.createSession "b1" "B" None None ;;;
     SessionService.createSession "a1" "A" None None) (connected ∅ 0)
      = (Ok a1, connected ks0 0) /\
    SessionService.getUserSessions "A" (connected ks0 10) = (Ok sessions, connected ks0 10) /\
    a1 ∈ sessions.
Proof.
  pose (mk := fun i u => {| id := i; userId := u; createdAt := 0;
                            expiresAt := 0 + SessionService.SESSION_TTL * 1000;
                            lastActivityAt := 0; ipAddress := None; userAgent := None |}).
  pose (put := fun i u (m : gmap string Entry) =>
                 <[SessionService.session_key i :=
                     {| value := JSON_stringify (mk i u);
                        ttl := SessionService.SESSION_TTL |}]> m).
  pose (ks0 := put "a1" "A" (put "b1" "B" ∅)).
  assert (Hwf : well_formed_sessions ks0)
    by (repeat apply well_formed_insert; apply well_formed_empty).
  destruct (getUserSessions_lists_exactly "A" ks0 10 Hwf) as (sessions & Hrun & Hin).
  exists ks0, (mk "a1" "A"), sessions.
  split; [reflexivity|]. split; [exact Hrun|].
  apply Hin. split; [reflexivity|]. exists "a1".
  apply (getSession_stored _ _ _ _ SessionService.SESSION_TTL). reflexivity.
Defined.

(** X12. A failure of the store reaches the caller of the session
    registry as it is.  In a world whose Redis client was never
    initialised, or is closed, each of the six session operations throws
    the client's own error (not an error of the service) and changes
    nothing, whereas [revokeToken] returns normally and [isTokenRevoked]
    answers [false]. *)
Theorem session_registry_propagates_store_errors (w : World) :
  match redisClient w with
  | Some client => isOpen client = false
  | None => True
  end ->
  let e := match redisClient w with
           | Some _ => redis.closed
           | None => Error "Redis client not initialized. Call initializeRedis first."
           end in
  (forall uuidv4 user ip agent,
      SessionService.createSession uuidv4 user ip agent w = (Throw e, w)) /\
  (forall sessionId, SessionService.getSession sessionId w = (Throw e, w)) /\
  (forall sessionId, SessionService.updateActivity sessionId w = (Throw e, w)) /\
  (forall sessionId, SessionService.revokeSession sessionId w = (Throw e, w)) /\
  (forall user, SessionService.revokeAllUserSessions user w = (Throw e, w)) /\
  (forall user, SessionService.getUserSessions user w = (Throw e, w)) /\
  (forall token, TokenService.revokeToken token w = (Ok tt, w)) /\
  (forall token, TokenService.isTokenRevoked token w = (Ok false, w)).
Proof.
  intros Hdown e.
  destruct w as [[[[] ks]|] t]; simpl in Hdown; try discriminate;
    repeat split; try reflexivity;
    intros token; unfold TokenService.revokeToken, try_catch;
    destruct (jwt.decode token) as [decoded|]; try reflexivity;
    destruct (jwt.exp decoded) as [exp|]; try reflexivity;
    destruct (exp =? 0); try reflexivity;
    unfold bind, getRedisClient, Date_now; simpl;
    destruct (0 <? exp - t / 1000); reflexivity.
Qed.

Lemma session_registry_propagates_store_errors_witness :
  let w := {| redisClient := None; clock := 1000 |} in
  SessionService.getSession "s1" w
    = (Throw (Error "Redis client not initialized. Call initializeRedis first."), w) /\
  TokenService.isTokenRevoked "t" w = (Ok false, w).
Proof.
  intros w.
  destruct (session_registry_propagates_store_errors w I)
    as (_ & Hget & _ & _ & _ & _ & _ & Hrev).
  split; [exact (Hget "s1") | exact (Hrev "t")].
Defined.

(** X13. A revoked session stays revoked: with the store connected,
    [updateActivity] on an id that [getSession] does not find (never
    created, or removed by [revokeSession]) returns normally and changes
    nothing, so activity on a revoked session does not bring it back. *)
Theorem updateActivity_does_not_resurrect (sessionId : string)
    (ks : gmap string Entry) (now : Z) :
  (SessionService.getSession sessionId (connected ks now) = (Ok None, connected ks now) ->
   SessionService.updateActivity sessionId (connected ks now) = (Ok tt, connected ks now)) /\
  (forall later,
      exists ks' : gmap string Entry,
        SessionService.revokeSession sessionId (connected ks now)
          = (Ok tt, connected ks' now) /\
        SessionService.updateActivity sessionId (connected ks' later)
          = (Ok tt, connected ks' later) /\
        SessionService.getSession sessionId (connected ks' later)
          = (Ok None, connected ks' later)).
Proof.
  assert (Hnoop : forall (m : gmap string Entry) t,
             SessionService.getSession sessionId (connected m t) = (Ok None, connected m t) ->
             SessionService.updateActivity sessionId (connected m t)
               = (Ok tt, connected m t)).
  { intros m t H. unfold SessionService.updateActivity, bind.
    rewrite getRedisClient_connected, H. reflexivity. }
  split; [apply Hnoop|].
  intros later. exists (delete (SessionService.session_key sessionId) ks).
  assert (Hgone : SessionService.getSession sessionId
                    (connected (delete (SessionService.session_key sessionId) ks) later)
                  = (Ok None,
                     connected (delete (SessionService.session_key sessionId) ks) later))
    by now rewrite getSession_connected, lookup_delete_eq.
  split; [reflexivity|]. split; [now apply Hnoop | exact Hgone].
Qed.

Lemma updateActivity_does_not_resurrect_witness :
  SessionService.updateActivity "never-created" (connected ∅ 1000)
    = (Ok tt, connected ∅ 1000).
Proof.
  apply (proj1 (updateActivity_does_not_resurrect "never-created" ∅ 1000)).
  reflexivity.
Defined.

(** ** The bearer-token middlewares *)

Lemma prefix_split p : forall s,
  String.prefix p s = true -> s = p +:+ substring_from (String.length p) s.
Proof.
  induction p as [|a p IH]; intros s H; [reflexivity|].
  destruct s as [|b s]; [discriminate H|]. simpl in H.
  destruct (ascii_dec a b) as [->|]; [|discriminate H].
  change (String b s = String b (p +:+ substring_from (String.length p) s)).
  f_equal. now apply IH.
Qed.

Lemma prefix_append p t : String.prefix p (p +:+ t) = true.
Proof.
  induction p as [|a p IH]; [now destruct t|].
  change (String.prefix (String a p) (String a (p +:+ t)) = true). simpl.
  now destruct (ascii_dec a a).
Qed.

Lemma bearer_inj a b : "Bearer " +:+ a = "Bearer " +:+ b -> a = b.
Proof. intros H. cbn in H. now injection H. Qed.

Lemma bearer_header token :
  AuthMiddleware.is_bearer (Some ("Bearer " +:+ token)) = true /\
  substring_from 7 ("Bearer " +:+ token) = token.
Proof.
  split; [|reflexivity].
  unfold AuthMiddleware.is_bearer. now rewrite prefix_append.
Qed.

Lemma is_bearer_inv authorization :
  AuthMiddleware.is_bearer authorization = true ->
  authorization = Some ("Bearer " +:+ substring_from 7 (default "" authorization)).
Proof.
  unfold AuthMiddleware.is_bearer. destruct authorization as [h|]; [|discriminate].
  intros H. apply andb_true_iff in H as [_ H]. simpl default.
  f_equal. exact (prefix_split "Bearer " h H).
Qed.

Lemma authMiddleware_bearer security defaultMessage token w :
  AuthMiddleware.authMiddleware security defaultMessage (Some ("Bearer " +:+ token)) w =
  match jwt.verify token (jwtAccessSecret security) w with
  | (Ok decoded, w') => (Ok (AuthMiddleware.user_of_payload decoded), w')
  | (Throw _, w') => (Throw (AuthenticationError defaultMessage), w')
  end.
Proof.
  unfold AuthMiddleware.authMiddleware, try_catch.
  destruct (bearer_header token) as [-> _].
  change (substring_from 7 (default "" (Some ("Bearer " +:+ token)))) with token.
  unfold bind. cbn [negb].
  now destruct (jwt.verify token (jwtAccessSecret security) w) as [[decoded|e] w'].
Qed.

(** X14. [authMiddleware] lets a request through exactly when its
    authorization header is "Bearer " followed by a token that
    [jwt.verify] accepts under the access secret, and then [req.user] is
    made of the token's [userId], [email] and [roles] with an empty list
    of permissions.  Every other request (no header, another scheme, a
    malformed, expired or foreign token) gets the same
    [AuthenticationError], built without a message.  The world is never
    changed. *)
Theorem authMiddleware_accepts_exactly (security : SecurityConfig)
    (defaultMessage : string) (authorization : option string) (w : World) :
  (forall user,
      AuthMiddleware.authMiddleware security defaultMessage authorization w = (Ok user, w) <->
      exists token decoded,
        authorization = Some ("Bearer " +:+ token) /\
        jwt.verify token (jwtAccessSecret security) w = (Ok decoded, w) /\
        user = {| Express.id := jwt.userId decoded;
                  Express.email := jwt.email decoded;
                  Express.roles := jwt.roles decoded;
                  Express.permissions := [] |}) /\
  ((exists user,
       AuthMiddleware.authMiddleware security defaultMessage authorization w = (Ok user, w)) \/
   AuthMiddleware.authMiddleware security defaultMessage authorization w
     = (Throw (AuthenticationError defaultMessage), w)).
Proof.
  destruct (AuthMiddleware.is_bearer authorization) eqn:Hb.
  - apply is_bearer_inv in Hb.
    set (token := substring_from 7 (default "" authorization)) in Hb.
    rewrite Hb, authMiddleware_bearer.
    destruct (jwt.verify token (jwtAccessSecret security) w) as [[decoded|e] w'] eqn:Hv;
      pose proof (verify_world _ _ _ _ _ Hv) as ->.
    + split; [|left; eauto]. intros user. split.
      * intros [= <-]. exists token, decoded. auto.
      * intros (token' & decoded' & Heq & Hv' & ->).
        assert (token' = token) as -> by (apply bearer_inj; congruence).
        rewrite Hv in Hv'. now injection Hv' as <-.
    + split; [|now right]. intros user. split; [discriminate|].
      intros (token' & decoded' & Heq & Hv' & _).
      assert (token' = token) as -> by (apply bearer_inj; congruence).
      rewrite Hv in Hv'. discriminate.
  - assert (Hrun : AuthMiddleware.authMiddleware security defaultMessage authorization w
                   = (Throw (AuthenticationError defaultMessage), w)).
    { unfold AuthMiddleware.authMiddleware, try_catch. now rewrite Hb. }
    rewrite Hrun. split; [|now right]. intros user. split; [discriminate|].
    intros (token & decoded & -> & _).
    destruct (bearer_header token) as [Hb' _]. congruence.
Qed.

Lemma authMiddleware_accepts_exactly_witness :
  let security := {| jwtAccessSecret := "access-secret"; jwtRefreshSecret := "refresh-secret";
                     jwtAccessExpiry := "15m"; jwtRefreshExpiry := "7d" |} in
  let payload := {| jwt.userId := Some "u1"; jwt.email := Some "u1@x.com";
                    jwt.roles := Some ["user"]; jwt.type := None;
                    jwt.iat := Some 5; jwt.exp := Some 905 |} in
  AuthMiddleware.authMiddleware security "Authentication failed"
    (Some ("Bearer " +:+ jwt.encode payload "access-secret")) (connected ∅ 5500)
  = (Ok {| Express.id := Some "u1"; Express.email := Some "u1@x.com";
           Express.roles := Some ["user"]; Express.permissions := [] |},
     connected ∅ 5500).
Proof.
  intros security payload.
  apply (proj1 (authMiddleware_accepts_exactly security _ _ _)).
  exists (jwt.encode payload "access-secret"), payload.
  split; [reflexivity|]. split; [vm_compute; reflexivity | reflexivity].
Defined.

(** X15. [optionalAuthMiddleware] never fails and never changes the
    world: it sets [req.user] to what [authMiddleware] would set when
    [authMiddleware] would let the request through, and leaves it unset
    in every case in which [authMiddleware] would reject. *)
Theorem optionalAuthMiddleware_agrees (security : SecurityConfig)
    (defaultMessage : string) (authorization : option string) (w : World) :
  AuthMiddleware.optionalAuthMiddleware security authorization w =
  (Ok match AuthMiddleware.authMiddleware security defaultMessage authorization w with
      | (Ok user, _) => Some user
      | (Throw _, _) => None
      end, w).
Proof.
  unfold AuthMiddleware.optionalAuthMiddleware, AuthMiddleware.authMiddleware, try_catch.
  destruct (AuthMiddleware.is_bearer authorization); [|reflexivity]. cbn [negb].
  unfold bind.
  destruct (jwt.verify _ _ w) as [[decoded|e] w'] eqn:Hv;
    pose proof (verify_world _ _ _ _ _ Hv) as ->; reflexivity.
Qed.

Lemma authMiddleware_user security defaultMessage authorization w user w' :
  AuthMiddleware.authMiddleware security defaultMessage authorization w = (Ok user, w') ->
  exists decoded, user = AuthMiddleware.user_of_payload decoded.
Proof.
  unfold AuthMiddleware.authMiddleware, try_catch.
  destruct (AuthMiddleware.is_bearer authorization); cbn [negb]; [|discriminate].
  unfold bind.
  destruct (jwt.verify _ _ w) as [[decoded|e] w1]; [|discriminate].
  intros [= <- _]. eauto.
Qed.

(** X16. Nothing fills [req.user.permissions] after [authMiddleware]
    has set it to the empty list, so [requirePermission], applied to the
    user that [authMiddleware] (or [optionalAuthMiddleware]) produced,
    turns every request down with "Insufficient permissions", whatever
    the permission asked for and whatever the roles in the token. *)
Theorem requirePermission_after_authMiddleware (security : SecurityConfig)
    (defaultMessage : string) (authorization : option string) (w w' : World)
    (user : Express.User) (permission : string) :
  AuthMiddleware.authMiddleware security defaultMessage authorization w = (Ok user, w') \/
  AuthMiddleware.optionalAuthMiddleware security authorization w = (Ok (Some user), w') ->
  requirePermission permission (Some user)
    = Ok (NextAuthorizationError "Insufficient permissions").
Proof.
  intros H.
  assert (Hu : exists decoded, user = AuthMiddleware.user_of_payload decoded).
  { destruct H as [H|H]; [now apply authMiddleware_user in H|].
    revert H. unfold AuthMiddleware.optionalAuthMiddleware, try_catch.
    destruct (AuthMiddleware.is_bearer authorization); [|discriminate].
    unfold bind.
    destruct (jwt.verify _ _ w) as [[decoded|e] w1]; [|discriminate].
    intros [= <- _]. eauto. }
  destruct Hu as [decoded ->]. reflexivity.
Qed.

Lemma requirePermission_after_authMiddleware_witness :
  let security := {| jwtAccessSecret := "access-secret"; jwtRefreshSecret := "refresh-secret";
                     jwtAccessExpiry := "15m"; jwtRefreshExpiry := "7d" |} in
  let payload := {| jwt.userId := Some "root"; jwt.email := Some "root@x.com";
                    jwt.roles := Some ["admin"]; jwt.type := None;
                    jwt.iat := Some 5; jwt.exp := Some 905 |} in
  exists user,
    AuthMiddleware.authMiddleware security "Authentication failed"
      (Some ("Bearer " +:+ jwt.encode payload "access-secret")) (connected ∅ 5500)
      = (Ok user, connected ∅ 5500) /\
    Express.roles user = Some ["admin"] /\
    requirePermission "user:read" (Some user)
      = Ok (NextAuthorizationError "Insufficient permissions").
Proof.
  intros security payload.
  pose (user := {| Express.id := Some "root"; Express.email := Some "root@x.com";
                   Express.roles := Some ["admin"]; Express.permissions := [] |}).
  assert (Hauth : AuthMiddleware.authMiddleware security "Authentication failed"
                    (Some ("Bearer " +:+ jwt.encode payload "access-secret"))
                    (connected ∅ 5500) = (Ok user, connected ∅ 5500))
    by (vm_compute; reflexivity).
  exists user. split; [exact Hauth|]. split; [reflexivity|].
  exact (requirePermission_after_authMiddleware security "Authentication failed"
           _ _ _ user "user:read" (or_introl Hauth)).
Defined.

(** X17. The access token that [refreshAccessToken] mints passes
    [authMiddleware], but the user it yields has no [roles]: for that
    user [canViewUser], [canUpdateUser], [canDeleteUser], [canListUsers]
    and [requireRole] do not answer, they throw a [TypeError], whereas
    [canChangePassword] on the user's own id, which compares ids first,
    answers [true]. *)
Theorem refreshed_token_breaks_role_checks (security : SecurityConfig)
    (defaultMessage : string) (refreshToken : string) (decoded : jwt.Payload)
    (millis : Z) (w : World) :
  jwt.verify refreshToken (jwtRefreshSecret security) w = (Ok decoded, w) ->
  jwt.type decoded = Some "refresh" ->
  TokenService.isTokenRevoked refreshToken w = (Ok false, w) ->
  String.eqb (jwtAccessSecret security) "" = false ->
  ms.parse (jwtAccessExpiry security) = Some millis ->
  1000 <= millis ->
  exists accessToken expiresIn user,
    TokenService.refreshAccessToken security refreshToken w
      = (Ok (accessToken, expiresIn), w) /\
    AuthMiddleware.authMiddleware security defaultMessage
      (Some ("Bearer " +:+ accessToken)) w = (Ok user, w) /\
    Express.id user = jwt.userId decoded /\
    Express.roles user = None /\
    (forall target,
        UserPolicy.canViewUser (Some user) target
          = Throw (Error "Cannot read properties of undefined (reading 'includes')") /\
        UserPolicy.canUpdateUser (Some user) target
          = Throw (Error "Cannot read properties of undefined (reading 'includes')") /\
        UserPolicy.canDeleteUser (Some user) target
          = Throw (Error "Cannot read properties of undefined (reading 'includes')")) /\
    UserPolicy.canListUsers (Some user)
      = Throw (Error "Cannot read properties of undefined (reading 'includes')") /\
    (forall roles,
        requireRole roles (Some user)
          = Throw (Error "Cannot read properties of undefined (reading 'some')")) /\
    (forall target,
        jwt.userId decoded = Some target ->
        UserPolicy.canChangePassword (Some user) target = Ok true).
Proof.
  intros Hv Ht Hr Hs Hm Hge.
  assert (1 <= millis / 1000) by (apply Z.div_le_lower_bound; lia).
  eexists. eexists. eexists. split; [|split].
  - now apply refresh_valid with (millis := millis) (decoded := decoded).
  - rewrite authMiddleware_bearer, verify_encode by exact Hs.
    rewrite String.eqb_refl. simpl.
    replace (_ <=? _) with false by (symmetry; apply Z.leb_gt; lia).
    reflexivity.
  - simpl. repeat split.
    intros target Hself. unfold UserPolicy.canChangePassword, UserPolicy.is_self. simpl.
    now rewrite bool_decide_eq_true_2.
Qed.

Lemma refreshed_token_breaks_role_checks_witness :
  let security := {| jwtAccessSecret := "access-secret"; jwtRefreshSecret := "refresh-secret";
                     jwtAccessExpiry := "15m"; jwtRefreshExpiry := "7d" |} in
  let payload := {| jwt.userId := Some "u1"; jwt.email := None; jwt.roles := None;
                    jwt.type := Some "refresh"; jwt.iat := Some 5;
                    jwt.exp := Some 604805 |} in
  exists accessToken expiresIn user,
    TokenService.refreshAccessToken security (jwt.encode payload "refresh-secret")
      (connected ∅ 5500) = (Ok (accessToken, expiresIn), connected ∅ 5500) /\
    AuthMiddleware.authMiddleware security "Authentication failed"
      (Some ("Bearer " +:+ accessToken)) (connected ∅ 5500) = (Ok user, connected ∅ 5500) /\
    UserPolicy.canViewUser (Some user) "u1"
      = Throw (Error "Cannot read properties of undefined (reading 'includes')") /\
    UserPolicy.canChangePassword (Some user) "u1" = Ok true.
Proof.
  intros security payload.
  assert (Hv : jwt.verify (jwt.encode payload "refresh-secret")
                          (jwtRefreshSecret security) (connected ∅ 5500)
               = (Ok payload, connected ∅ 5500)) by (vm_compute; reflexivity).
  assert (Hr : TokenService.isTokenRevoked (jwt.encode payload "refresh-secret")
                 (connected ∅ 5500) = (Ok false, connected ∅ 5500))
    by (vm_compute; reflexivity).
  destruct (refreshed_token_breaks_role_checks security "Authentication failed"
              (jwt.encode payload "refresh-secret") payload 900000 (connected ∅ 5500)
              Hv eq_refl Hr eq_refl eq_refl ltac:(lia))
    as (accessToken & expiresIn & user & Hrun & Hauth & _ & _ & Hpol & _ & _ & Hself).
  exists accessToken, expiresIn, user.
  split; [exact Hrun|]. split; [exact Hauth|].
  split; [exact (proj1 (Hpol "u1")) | exact (Hself "u1" eq_refl)].
Defined.

(** ** Policies and role checks *)

Lemma includes_elem_of l x : includes l x = true <-> x ∈ l.
Proof.
  unfold includes. rewrite existsb_exists. split.
  - intros (y & Hin & Heq). apply String.eqb_eq in Heq. subst y.
    now apply list_elem_of_In.
  - intros Hin. exists x. split; [now apply list_elem_of_In | apply String.eqb_refl].
Qed.

(** X18. For a user whose [roles] are a list, the four per-target
    policies ([canViewUser], [canUpdateUser], [canDeleteUser],
    [canChangePassword]) are one and the same rule: allowed exactly when
    "admin" is among the roles or the target is the user's own id; and
    [canListUsers] is allowed exactly for "admin".  So a user without the
    "admin" role is refused on every other user's account, and no
    request without a user is ever allowed. *)
Theorem policies_admin_or_self (user : Express.User) (userRoles : list string)
    (target : string) :
  Express.roles user = Some userRoles ->
  let allowed := bool_decide ("admin" ∈ userRoles \/ Express.id user = Some target) in
  UserPolicy.canViewUser (Some user) target = Ok allowed /\
  UserPolicy.canUpdateUser (Some user) target = Ok allowed /\
  UserPolicy.canDeleteUser (Some user) target = Ok allowed /\
  UserPolicy.canChangePassword (Some user) target = Ok allowed /\
  UserPolicy.canListUsers (Some user) = Ok (bool_decide ("admin" ∈ userRoles)) /\
  UserPolicy.canViewUser None target = Ok false /\
  UserPolicy.canUpdateUser None target = Ok false /\
  UserPolicy.canDeleteUser None target = Ok false /\
  UserPolicy.canChangePassword None target = Ok false /\
  UserPolicy.canListUsers None = Ok false.
Proof.
  intros Hroles allowed.
  assert (Hadmin : includes userRoles USER_ROLES.ADMIN = bool_decide ("admin" ∈ userRoles)).
  { destruct (includes userRoles USER_ROLES.ADMIN) eqn:E; symmetry.
    - apply bool_decide_eq_true. now apply includes_elem_of.
    - apply bool_decide_eq_false. intros Hin. apply includes_elem_of in Hin.
      unfold USER_ROLES.ADMIN in *. congruence. }
  assert (Hrule : UserPolicy.admin_or_self user target = Ok allowed).
  { unfold UserPolicy.admin_or_self, UserPolicy.is_admin, UserPolicy.is_self, allowed.
    rewrite Hroles, Hadmin.
    destruct (decide ("admin" ∈ userRoles)) as [Hin|Hnin].
    - rewrite (bool_decide_eq_true_2 _ Hin). now rewrite bool_decide_eq_true_2 by auto.
    - rewrite (bool_decide_eq_false_2 _ Hnin).
      destruct (decide (Express.id user = Some target)) as [Hid|Hid].
      + rewrite (bool_decide_eq_true_2 _ Hid). now rewrite bool_decide_eq_true_2 by auto.
      + rewrite (bool_decide_eq_false_2 _ Hid).
        now rewrite bool_decide_eq_false_2 by tauto. }
  repeat split; try exact Hrule.
  - unfold UserPolicy.canChangePassword, UserPolicy.is_admin, UserPolicy.is_self, allowed.
    rewrite Hroles, Hadmin.
    destruct (decide (Express.id user = Some target)) as [Hid|Hid].
    + rewrite (bool_decide_eq_true_2 _ Hid). now rewrite bool_decide_eq_true_2 by auto.
    + rewrite (bool_decide_eq_false_2 _ Hid).
      destruct (decide ("admin" ∈ userRoles)) as [Hin|Hnin].
      * rewrite (bool_decide_eq_true_2 _ Hin). now rewrite bool_decide_eq_true_2 by auto.
      * rewrite (bool_decide_eq_false_2 _ Hnin).
        now rewrite bool_decide_eq_false_2 by tauto.
  - unfold UserPolicy.canListUsers, UserPolicy.is_admin. now rewrite Hroles, Hadmin.
Qed.

Lemma policies_admin_or_self_witness :
  let user := {| Express.id := Some "u1"; Express.email := Some "u1@x.com";
                 Express.roles := Some ["user"]; Express.permissions := [] |} in
  UserPolicy.canDeleteUser (Some user) "u2" = Ok false /\
  UserPolicy.canDeleteUser (Some user) "u1" = Ok true /\
  UserPolicy.canListUsers (Some user) = Ok false.
Proof.
  intros user.
  destruct (policies_admin_or_self user ["user"] "u2" eq_refl)
    as (_ & _ & Hother & _ & Hlist & _).
  destruct (policies_admin_or_self user ["user"] "u1" eq_refl)
    as (_ & _ & Hself & _).
  split; [exact Hother|]. split; [exact Hself | exact Hlist].
Defined.

(** X19. [requireRole] lets a user with a list of roles through exactly
    when one of the user's roles is one of the required roles; so with
    no required role, or for a user with no role at all, it refuses with
    "Insufficient permissions"; and without a user it refuses with
    "User not authenticated". *)
Theorem requireRole_needs_common_role (roles userRoles : list string)
    (user : Express.User) :
  Express.roles user = Some userRoles ->
  (requireRole roles (Some user) = Ok Next <->
   exists role, role ∈ userRoles /\ role ∈ roles) /\
  (requireRole roles (Some user) = Ok Next \/
   requireRole roles (Some user) = Ok (NextAuthorizationError "Insufficient permissions")) /\
  requireRole [] (Some user) = Ok (NextAuthorizationError "Insufficient permissions") /\
  requireRole roles None = Ok (NextAuthorizationError "User not authenticated").
Proof.
  intros Hroles. unfold requireRole. rewrite Hroles.
  assert (Hsome : forall required,
             existsb (fun role => includes required role) userRoles = true <->
             exists role, role ∈ userRoles /\ role ∈ required).
  { intros required. rewrite existsb_exists. split.
    - intros (role & Hin & Hinc). exists role.
      split; [now apply list_elem_of_In | now apply includes_elem_of].
    - intros (role & Hin & Hinc). exists role.
      split; [now apply list_elem_of_In | now apply includes_elem_of]. }
  repeat split.
  - destruct (existsb _ userRoles) eqn:E; [|discriminate].
    intros _. now apply Hsome.
  - intros H. apply Hsome in H. now rewrite H.
  - destruct (existsb _ userRoles); auto.
  - destruct (existsb (fun role => includes [] role) userRoles) eqn:E; [|reflexivity].
    apply Hsome in E as (role & _ & Hin). now apply elem_of_nil in Hin.
Qed.

Lemma requireRole_needs_common_role_witness :
  let user := {| Express.id := Some "u1"; Express.email := Some "u1@x.com";
                 Express.roles := Some ["user"; "service"]; Express.permissions := [] |} in
  requireRole ["admin"; "service"] (Some user) = Ok Next.
Proof.
  intros user.
  apply (proj1 (requireRole_needs_common_role ["admin"; "service"] ["user"; "service"]
                  user eq_refl)).
  exists "service". split; set_solver.
Defined.

(** ** The user cache and account deletion *)

Lemma get_put_bool : Wire.inverse put_bool get_bool.
Proof. intros [] rest; reflexivity. Qed.

Lemma user_of_stringify u : user_of (JSON_stringify_user u) = Some u.
Proof.
  unfold user_of, JSON_stringify_user, get_user, Wire.bind, Wire.ret.
  repeat first
    [ rewrite get_put_strings
    | rewrite get_put_bool
    | rewrite get_put_Z
    | rewrite get_put_string ].
  now destruct u.
Qed.

Lemma stringify_user_nonempty u : String.eqb (JSON_stringify_user u) "" = false.
Proof. unfold JSON_stringify_user. now destruct (UserBase.id u). Qed.

Lemma findById_connected userId ks t :
  UserRepository.findById userId (connected ks t) =
  match ks !! CACHE_KEYS.USER_PROFILE userId with
  | Some entry =>
      if String.eqb (value entry) "" then (Ok None, connected ks t)
      else match user_of (value entry) with
           | Some u => (Ok (Some u), connected ks t)
           | None => (Throw (SyntaxError "Unexpected token in JSON"), connected ks t)
           end
  | None => (Ok None, connected ks t)
  end.
Proof.
  unfold UserRepository.findById, UserRepository.rethrowing, try_catch, bind.
  rewrite getRedisClient_connected, get_connected.
  destruct (ks !! CACHE_KEYS.USER_PROFILE userId) as [entry|]; simpl; [|reflexivity].
  destruct (String.eqb (value entry) ""); [reflexivity|].
  unfold JSON_parse_user. now destruct (user_of (value entry)).
Qed.

(** X20. With the store connected, [UserRepository.create] completes
    and caches the new user for 3600 s under its own profile key,
    changing no other key of the store.  The user is active whatever
    [isActive] the caller passed and has the role "user" when no roles
    were passed.  [findById] of the new id finds, on every store that
    still holds the entry, a user with the same id, email, names, roles
    and [isActive]; and when the entry is left to expiry alone, it finds
    that user at every instant less than 3600 s after the write and
    returns [null] at every instant more than 3600 s after it. *)
Theorem create_then_findById (random_id : string) (userData : UserData.t)
    (ks : gmap string Entry) (now : Z) :
  let same (a b : UserBase.t) :=
    UserBase.id a = UserBase.id b /\
    UserBase.email a = UserBase.email b /\
    UserBase.firstName a = UserBase.firstName b /\
    UserBase.lastName a = UserBase.lastName b /\
    UserBase.roles a = UserBase.roles b /\
    UserBase.isActive a = UserBase.isActive b in
  exists user (ks' : gmap string Entry),
    UserRepository.create random_id userData (connected ks now)
      = (Ok user, connected ks' now) /\
    UserBase.id user = random_id /\
    UserBase.isActive user = true /\
    (UserData.roles userData = None -> UserBase.roles user = ["user"]) /\
    ks' !! CACHE_KEYS.USER_PROFILE random_id
      = Some {| value := JSON_stringify_user user; ttl := 3600 |} /\
    (forall k, k <> CACHE_KEYS.USER_PROFILE random_id -> ks' !! k = ks !! k) /\
    (forall (ks2 : gmap string Entry) later,
        ks2 !! CACHE_KEYS.USER_PROFILE random_id
          = ks' !! CACHE_KEYS.USER_PROFILE random_id ->
        exists found,
          UserRepository.findById random_id (connected ks2 later)
            = (Ok (Some found), connected ks2 later) /\
          same found user) /\
    (forall (ks2 : gmap string Entry) later,
        ks2 !! CACHE_KEYS.USER_PROFILE random_id
          = lapse now (ks' !! CACHE_KEYS.USER_PROFILE random_id) later ->
        (later < now + 3600 * 1000 ->
         exists found,
           UserRepository.findById random_id (connected ks2 later)
             = (Ok (Some found), connected ks2 later) /\
           same found user) /\
        (now + 3600 * 1000 < later ->
         UserRepository.findById random_id (connected ks2 later)
           = (Ok None, connected ks2 later))).
Proof.
  intros same.
  assert (Hfound : forall (ks2 : gmap string Entry) later u seconds,
             ks2 !! CACHE_KEYS.USER_PROFILE random_id
               = Some {| value := JSON_stringify_user u; ttl := seconds |} ->
             exists found,
               UserRepository.findById random_id (connected ks2 later)
                 = (Ok (Some found), connected ks2 later) /\
               same found u).
  { intros ks2 later u seconds Hk. exists u.
    rewrite findById_connected, Hk. simpl.
    rewrite stringify_user_nonempty, user_of_stringify.
    split; [reflexivity|]. unfold same. tauto. }
  eexists. eexists. split; [reflexivity|].
  split; [reflexivity|]. split; [reflexivity|].
  split; [simpl; now intros ->|].
  split; [apply lookup_insert_eq|].
  split; [intros k Hk; now apply lookup_insert_ne|].
  split.
  - intros ks2 later Hk. rewrite lookup_insert_eq in Hk.
    eapply Hfound. exact Hk.
  - intros ks2 later Hk. rewrite lookup_insert_eq in Hk.
    unfold lapse, held in Hk. cbn [ttl] in Hk. split; intros Hlater.
    + replace (later <=? _) with true in Hk by (symmetry; apply Z.leb_le; lia).
      rewrite orb_true_r in Hk. eapply Hfound. exact Hk.
    + replace (later <=? _) with false in Hk by (symmetry; apply Z.leb_gt; lia).
      cbn in Hk. now rewrite findById_connected, Hk.
Qed.

Lemma create_then_findById_witness :
  let userData := {| UserData.email := Some "u1@x.com"; UserData.firstName := Some "Ada";
                     UserData.lastName := None; UserData.passwordHash := Some "hash";
                     UserData.roles := None; UserData.isActive := Some false |} in
  exists user found (ks' : gmap string Entry),
    UserRepository.create "k3j9x0q1z" userData (connected ∅ 1000)
      = (Ok user, connected ks' 1000) /\
    UserRepository.findById "k3j9x0q1z" (connected ks' 2000)
      = (Ok (Some found), connected ks' 2000) /\
    UserBase.email found = UserBase.email user /\
    UserRepository.findById "k3j9x0q1z" (connected ∅ 3601001)
      = (Ok None, connected ∅ 3601001) /\
    UserBase.roles user = ["user"] /\ UserBase.isActive user = true.
Proof.
  intros userData.
  destruct (create_then_findById "k3j9x0q1z" userData ∅ 1000)
    as (user & ks' & Hrun & _ & Hactive & Hroles & Hentry & _ & Hfind & Hlapse).
  destruct (Hfind ks' 2000 eq_refl) as (found & Hf & _ & Hemail & _).
  exists user, found, ks'. split; [exact Hrun|]. split; [exact Hf|].
  split; [exact Hemail|]. split.
  - apply (Hlapse ∅ 3601001); [rewrite Hentry; reflexivity | reflexivity].
  - split; [exact (Hroles eq_refl) | exact Hactive].
Defined.

Lemma delete_connected userId ks t :
  UserRepository.delete userId (connected ks t)
    = (Ok tt, connected (delete (CACHE_KEYS.USER_PROFILE userId) ks) t).
Proof. reflexivity. Qed.

Lemma profile_key_not_session key userId :
  redis.glob (SessionService.SESSION_PREFIX +:+ "*") key = true ->
  key <> CACHE_KEYS.USER_PROFILE userId.
Proof. intros Hg ->. discriminate Hg. Qed.

(** X21. With the store connected and well formed, [deleteUser]
    completes; afterwards the user's cached profile is gone ([findById]
    returns [null]), [getUserSessions] for the user is empty, a session
    of the user that [getSession] found is not found any more, and every
    session of every other user is returned as before. *)
Theorem deleteUser_removes_profile_and_sessions (user : string)
    (ks : gmap string Entry) (now : Z) :
  well_formed_sessions ks ->
  exists ks' : gmap string Entry,
    UserService.deleteUser user (connected ks now) = (Ok tt, connected ks' now) /\
    UserRepository.findById user (connected ks' now) = (Ok None, connected ks' now) /\
    SessionService.getUserSessions user (connected ks' now) = (Ok [], connected ks' now) /\
    (forall sessionId s,
        SessionService.getSession sessionId (connected ks now)
          = (Ok (Some s), connected ks now) ->
        SessionService.getSession sessionId (connected ks' now)
          = (Ok (if String.eqb (userId s) user then None else Some s),
             connected ks' now)).
Proof.
  intros Hwf.
  set (pattern := SessionService.SESSION_PREFIX +:+ "*").
  set (ks1 := delete (CACHE_KEYS.USER_PROFILE user) ks).
  assert (Hwf1 : well_formed_sessions ks1) by now apply well_formed_delete.
  set (keys := filter (fun k => redis.glob pattern k = true) (map_to_list ks1).*1).
  destruct (sweep user now keys ks1) as (ks' & Hrun & Hks').
  { intros key entry Hin. apply Hwf1. now apply elem_of_keys in Hin as [Hg _]. }
  assert (Hsub : forall k entry, ks' !! k = Some entry -> ks1 !! k = Some entry).
  { intros k entry. rewrite Hks'. now case_decide. }
  exists ks'. split; [|split; [|split]].
  - unfold UserService.deleteUser, UserRepository.rethrowing, try_catch, bind at 1.
    rewrite delete_connected.
    unfold SessionService.revokeAllUserSessions, bind.
    rewrite getRedisClient_connected, keys_connected. fold ks1 pattern keys.
    now rewrite Hrun.
  - rewrite findById_connected.
    destruct (ks' !! CACHE_KEYS.USER_PROFILE user) as [entry|] eqn:He; [|reflexivity].
    apply Hsub in He. unfold ks1 in He. now rewrite lookup_delete_eq in He.
  - unfold SessionService.getUserSessions, bind.
    rewrite getRedisClient_connected, keys_connected.
    apply collect_unowned.
    + intros key Hin. apply elem_of_keys in Hin as [Hg [entry He]].
      pose proof (Hsub _ _ He) as He1.
      pose proof (Hks' key) as Hc. rewrite He in Hc. rewrite He.
      destruct (decide (key ∈ keys /\ owned_by user (ks1 !! key) = true)) as [|Hn];
        [discriminate|].
      rewrite <- He1.
      destruct (owned_by user (ks1 !! key)) eqn:Ho; [|reflexivity].
      exfalso. apply Hn. split; [|reflexivity].
      apply elem_of_keys. split; [exact Hg | rewrite He1; eauto].
    + intros key entry Hin He. apply elem_of_keys in Hin as [Hg _].
      apply (Hwf1 key entry Hg). now apply Hsub.
  - intros sessionId s Hfound.
    apply getSession_found in Hfound as (entry & Hk & Hv & Hs).
    assert (Hk1 : ks1 !! SessionService.session_key sessionId = Some entry).
    { unfold ks1. rewrite lookup_delete_ne; [exact Hk|].
      intros H. symmetry in H. revert H.
      apply profile_key_not_session, glob_session_key. }
    rewrite getSession_connected, Hks', Hk1. simpl owned_by. rewrite Hv, Hs.
    destruct (String.eqb (userId s) user) eqn:Hu.
    + rewrite decide_True; [reflexivity|]. split; [|reflexivity].
      apply elem_of_keys. split; [apply glob_session_key | rewrite Hk1; eauto].
    + rewrite decide_False by (intros [_ ?]; discriminate).
      now rewrite Hv, Hs.
Qed.

Lemma deleteUser_removes_profile_and_sessions_witness :
  exists (ks0 ks1 : gmap string Entry) b1,
    (UserRepository.create "A" {| UserData.email := Some "a@x.com";
                                   UserData.firstName := None; UserData.lastName := None;
                                   UserData.passwordHash := None; UserData.roles := None;
                                   UserData.isActive := None |} ;;;
     SessionService.createSession "a1" "A" None None ;;;
     SessionService.createSession "b1" "B" None None) (connected ∅ 0)
      = (Ok b1, connected ks0 0) /\
    UserService.deleteUser "A" (connected ks0 5000) = (Ok tt, connected ks1 5000) /\
    UserRepository.findById "A" (connected ks1 5000) = (Ok None, connected ks1 5000) /\
    SessionService.getSession "a1" (connected ks1 5000) = (Ok None, connected ks1 5000) /\
    SessionService.getSession "b1" (connected ks1 5000) = (Ok (Some b1), connected ks1 5000).
Proof.
  pose (mk := fun i u => {| id := i; userId := u; createdAt := 0;
                            expiresAt := 0 + SessionService.SESSION_TTL * 1000;
                            lastActivityAt := 0; ipAddress := None; userAgent := None |}).
  pose (put := fun i u (m : gmap string Entry) =>
                 <[SessionService.session_key i :=
                     {| value := JSON_stringify (mk i u);
                        ttl := SessionService.SESSION_TTL |}]> m).
  pose (profile := {| UserBase.id := "A"; UserBase.email := "a@x.com";
                      UserBase.firstName := ""; UserBase.lastName := "";
                      UserBase.roles := ["user"]; UserBase.isActive := true;
                      UserBase.createdAt := 0; UserBase.updatedAt := 0 |}).
  pose (ks0 := put "b1" "B" (put "a1" "A"
                 (<[CACHE_KEYS.USER_PROFILE "A" :=
                      {| value := JSON_stringify_user profile; ttl := 3600 |}]> ∅))).
  assert (Hwf : well_formed_sessions ks0).
  { repeat apply well_formed_insert.
    intros key entry Hg Hk. destruct (decide (CACHE_KEYS.USER_PROFILE "A" = key)) as [<-|Hne].
    - discriminate Hg.
    - rewrite lookup_insert_ne in Hk by exact Hne. now rewrite lookup_empty in Hk. }
  destruct (deleteUser_removes_profile_and_sessions "A" ks0 5000 Hwf)
    as (ks1 & Hrun & Hprofile & _ & Hsessions).
  exists ks0, ks1, (mk "b1" "B").
  split; [reflexivity|]. split; [exact Hrun|]. split; [exact Hprofile|]. split.
  - apply (Hsessions "a1" (mk "a1" "A")).
    apply (getSession_stored _ _ _ _ SessionService.SESSION_TTL). reflexivity.
  - apply (Hsessions "b1" (mk "b1" "B")).
    apply (getSession_stored _ _ _ _ SessionService.SESSION_TTL). reflexivity.
Defined.

Lemma verify_connected token secret ks t :
  jwt.verify token secret (connected ks t)
    = ((jwt.verify token secret (connected ∅ t)).1, connected ks t).
Proof.
  unfold jwt.verify, bind, Date_now, connected. cbn [clock].
  destruct (String.eqb token ""); [reflexivity|].
  destruct (jwt.parse token) as [[payload signature]|]; [|reflexivity].
  destruct (String.eqb secret ""); [reflexivity|].
  destruct (negb _); [reflexivity|].
  destruct (jwt.exp payload) as [e|]; [|reflexivity].
  now destruct (e <=? t / 1000).
Qed.

Lemma sign_connected payload secret expiresIn ks t :
  jwt.sign payload secret expiresIn (connected ks t)
    = ((jwt.sign payload secret expiresIn (connected ∅ t)).1, connected ks t).
Proof.
  unfold jwt.sign. destruct (String.eqb secret ""); [reflexivity|].
  unfold bind, Date_now, connected. cbn [clock].
  destruct (jwt.exp payload); [reflexivity|].
  now destruct (jwt.timespan expiresIn _).
Qed.

(** The store matters to [refreshAccessToken] through one entry only. *)
Lemma refresh_via_entry security token (ks : gmap string Entry) t :
  (TokenService.refreshAccessToken security token (connected ks t)).1 =
  match (jwt.verify token (jwtRefreshSecret security) (connected ∅ t)).1 with
  | Throw _ => Throw (AuthenticationError "Failed to refresh token")
  | Ok decoded =>
      if negb (bool_decide (jwt.type decoded = Some "refresh"))
         || bool_decide (value <$> ks !! TokenService.revoked_key token = Some "1")
      then Throw (AuthenticationError "Failed to refresh token")
      else
        match (jwt.sign {| jwt.userId := jwt.userId decoded; jwt.email := None;
                           jwt.roles := None; jwt.type := None;
                           jwt.iat := None; jwt.exp := None |}
                        (jwtAccessSecret security) (jwtAccessExpiry security)
                        (connected ∅ t)).1 with
        | Throw _ => Throw (AuthenticationError "Failed to refresh token")
        | Ok accessToken =>
            match jwt.decode accessToken with
            | Some decodedAccess => Ok (accessToken, expiry_of decodedAccess)
            | None => Throw (AuthenticationError "Failed to refresh token")
            end
        end
  end.
Proof.
  unfold TokenService.refreshAccessToken, try_catch, bind at 1.
  rewrite (verify_connected _ _ ks).
  destruct ((jwt.verify token (jwtRefreshSecret security) (connected ∅ t)).1)
    as [decoded|e]; [|reflexivity].
  destruct (negb _); [reflexivity|].
  unfold bind at 1. rewrite isTokenRevoked_connected.
  destruct (bool_decide _); [reflexivity|].
  unfold bind at 1. rewrite (sign_connected _ _ _ ks).
  match goal with
  | |- context [(jwt.sign ?p ?s ?x (connected ∅ t)).1] =>
      destruct ((jwt.sign p s x (connected ∅ t)).1) as [accessToken|e]
  end; [|reflexivity].
  unfold bind, TokenService.decoded_payload.
  now destruct (jwt.decode accessToken).
Qed.

Lemma refresh_same_entry security token (ks1 ks2 : gmap string Entry) t :
  ks1 !! TokenService.revoked_key token = ks2 !! TokenService.revoked_key token ->
  (TokenService.refreshAccessToken security token (connected ks1 t)).1
    = (TokenService.refreshAccessToken security token (connected ks2 t)).1.
Proof. intros H. now rewrite !refresh_via_entry, H. Qed.

Lemma revoked_key_not_session token :
  redis.glob (SessionService.SESSION_PREFIX +:+ "*") (TokenService.revoked_key token)
    = false.
Proof. reflexivity. Qed.

Lemma revoked_key_not_profile token userId :
  TokenService.revoked_key token <> CACHE_KEYS.USER_PROFILE userId.
Proof. discriminate. Qed.

(** What [revokeAllUserSessions] and [deleteUser] leave outside the
    session prefix and the user's profile key. *)
Lemma revokeAllUserSessions_outside user (ks : gmap string Entry) now :
  well_formed_sessions ks ->
  exists ks' : gmap string Entry,
    SessionService.revokeAllUserSessions user (connected ks now)
      = (Ok tt, connected ks' now) /\
    forall k, redis.glob (SessionService.SESSION_PREFIX +:+ "*") k = false ->
              ks' !! k = ks !! k.
Proof.
  intros Hwf.
  set (pattern := SessionService.SESSION_PREFIX +:+ "*").
  set (keys := filter (fun k => redis.glob pattern k = true) (map_to_list ks).*1).
  destruct (sweep user now keys ks) as (ks' & Hrun & Hks').
  { intros key entry Hin. apply Hwf. now apply elem_of_keys in Hin as [Hg _]. }
  exists ks'. split.
  - unfold SessionService.revokeAllUserSessions, bind.
    rewrite getRedisClient_connected, keys_connected. exact Hrun.
  - intros k Hg. rewrite Hks'. rewrite decide_False; [reflexivity|].
    intros [Hin _]. apply elem_of_keys in Hin as [Hg' _]. congruence.
Qed.

Lemma deleteUser_outside user (ks : gmap string Entry) now :
  well_formed_sessions ks ->
  exists ks' : gmap string Entry,
    UserService.deleteUser user (connected ks now) = (Ok tt, connected ks' now) /\
    forall k, redis.glob (SessionService.SESSION_PREFIX +:+ "*") k = false ->
              k <> CACHE_KEYS.USER_PROFILE user ->
              ks' !! k = ks !! k.
Proof.
  intros Hwf.
  destruct (revokeAllUserSessions_outside user
              (delete (CACHE_KEYS.USER_PROFILE user) ks) now)
    as (ks' & Hrun & Hout); [now apply well_formed_delete|].
  exists ks'. split.
  - unfold UserService.deleteUser, UserRepository.rethrowing, try_catch, bind at 1.
    rewrite delete_connected. now rewrite Hrun.
  - intros k Hg Hk. rewrite Hout by exact Hg. now apply lookup_delete_ne.
Qed.

(** X22. Removing sessions revokes no token.  With the store connected
    and well formed, after [revokeAllUserSessions] and after
    [deleteUser], [isTokenRevoked] answers for every token what it
    answered before, and [refreshAccessToken] has, for every token and
    at every time, the outcome it would have had: the refresh tokens of a
    deleted or logged-out user keep refreshing. *)
Theorem removing_sessions_keeps_tokens (security : SecurityConfig) (user : string)
    (ks : gmap string Entry) (now : Z) :
  well_formed_sessions ks ->
  (exists ks' : gmap string Entry,
      SessionService.revokeAllUserSessions user (connected ks now)
        = (Ok tt, connected ks' now) /\
      forall token later,
        (TokenService.isTokenRevoked token (connected ks' later)).1
          = (TokenService.isTokenRevoked token (connected ks later)).1 /\
        (TokenService.refreshAccessToken security token (connected ks' later)).1
          = (TokenService.refreshAccessToken security token (connected ks later)).1) /\
  (exists ks' : gmap string Entry,
      UserService.deleteUser user (connected ks now) = (Ok tt, connected ks' now) /\
      forall token later,
        (TokenService.isTokenRevoked token (connected ks' later)).1
          = (TokenService.isTokenRevoked token (connected ks later)).1 /\
        (TokenService.refreshAccessToken security token (connected ks' later)).1
          = (TokenService.refreshAccessToken security token (connected ks later)).1).
Proof.
  intros Hwf. split.
  - destruct (revokeAllUserSessions_outside user ks now Hwf) as (ks' & Hrun & Hout).
    exists ks'. split; [exact Hrun|]. intros token later.
    pose proof (Hout _ (revoked_key_not_session token)) as Hk.
    split; [now rewrite !isTokenRevoked_connected, Hk | now apply refresh_same_entry].
  - destruct (deleteUser_outside user ks now Hwf) as (ks' & Hrun & Hout).
    exists ks'. split; [exact Hrun|]. intros token later.
    pose proof (Hout _ (revoked_key_not_session token)
                  (revoked_key_not_profile token user)) as Hk.
    split; [now rewrite !isTokenRevoked_connected, Hk | now apply refresh_same_entry].
Qed.

Lemma removing_sessions_keeps_tokens_witness :
  let security := {| jwtAccessSecret := "access-secret"; jwtRefreshSecret := "refresh-secret";
                     jwtAccessExpiry := "15m"; jwtRefreshExpiry := "7d" |} in
  let token := jwt.encode {| jwt.userId := Some "A"; jwt.email := None;
                             jwt.roles := None; jwt.type := Some "refresh";
                             jwt.iat := Some 0; jwt.exp := Some 604800 |} "refresh-secret" in
  exists ks' : gmap string Entry,
    UserService.deleteUser "A" (connected ∅ 1000) = (Ok tt, connected ks' 1000) /\
    exists accessToken expiresIn,
      (TokenService.refreshAccessToken security token (connected ks' 2000)).1
        = Ok (accessToken, expiresIn).
Proof.
  intros security token.
  destruct (proj2 (removing_sessions_keeps_tokens security "A" ∅ 1000 well_formed_empty))
    as (ks' & Hrun & Hsame).
  exists ks'. split; [exact Hrun|].
  destruct (Hsame token 2000) as [_ ->].
  eexists. eexists. vm_compute. reflexivity.
Defined.

(** ** Feature flags *)

Lemma String_of_bool_true b :
  String.eqb (FeatureFlagService.String_of_bool b) "true" = b.
Proof. now destruct b. Qed.

Lemma decide_by_connected cacheKey flag ks t :
  FeatureFlagService.decide_by cacheKey flag (connected ks t) =
  (Ok (String.eqb flag "true"),
   connected (<[cacheKey := {| value := FeatureFlagService.String_of_bool
                                          (String.eqb flag "true");
                               ttl := 300 |}]> ks) t).
Proof. reflexivity. Qed.

(** [isEnabled] on a connected store, in closed form. *)
Lemma isEnabled_connected flagName context (ks : gmap string Entry) t :
  let cacheKey := FeatureFlagService.buildCacheKey flagName context in
  let decided flag :=
    (Ok (String.eqb flag "true"),
     connected (<[cacheKey := {| value := FeatureFlagService.String_of_bool
                                            (String.eqb flag "true");
                                 ttl := 300 |}]> ks) t) in
  let by_environment :=
    match FeatureFlagService.present (context ≫= FeatureFlagService.environment) with
    | Some e =>
        match ks !! ("ff:" +:+ "env:" +:+ e +:+ ":" +:+ flagName) with
        | Some entry => decided (value entry)
        | None => (Ok false, connected ks t)
        end
    | None => (Ok false, connected ks t)
    end in
  FeatureFlagService.isEnabled flagName context (connected ks t) =
  match ks !! cacheKey with
  | Some cached => (Ok (String.eqb (value cached) "true"), connected ks t)
  | None =>
      match ks !! ("ff:" +:+ flagName) with
      | Some entry => decided (value entry)
      | None =>
          match FeatureFlagService.present (context ≫= FeatureFlagService.userId) with
          | Some u =>
              match ks !! ("ff:" +:+ "user:" +:+ u +:+ ":" +:+ flagName) with
              | Some entry => decided (value entry)
              | None => by_environment
              end
          | None => by_environment
          end
      end
  end.
Proof.
  intros cacheKey decided by_environment.
  unfold FeatureFlagService.isEnabled, try_catch, bind at 1.
  rewrite getRedisClient_connected. fold cacheKey.
  unfold bind at 1. rewrite get_connected.
  destruct (ks !! cacheKey) as [cached|]; [reflexivity|]. cbn [fmap option_fmap option_map].
  unfold bind at 1. rewrite get_connected.
  change (FeatureFlagService.CACHE_KEY_PREFIX +:+ flagName) with ("ff:" +:+ flagName).
  destruct (ks !! ("ff:" +:+ flagName)) as [entry|]; [reflexivity|].
  cbn [fmap option_fmap option_map].
  assert (Henv :
    (let (r, w') :=
       match FeatureFlagService.present (context ≫= FeatureFlagService.environment) with
       | Some e =>
           envFlag <- redis.get
             (FeatureFlagService.CACHE_KEY_PREFIX +:+ "env:" +:+ e +:+ ":" +:+ flagName) ;;
           match envFlag with
           | Some f => FeatureFlagService.decide_by cacheKey f
           | None => ret false
           end
       | None => ret false
       end (connected ks t) in
     match r with
     | Ok a => (Ok a, w')
     | Throw _ => ret false w'
     end) = by_environment).
  { unfold by_environment.
    destruct (FeatureFlagService.present (context ≫= FeatureFlagService.environment))
      as [e|]; [|reflexivity].
    unfold bind. rewrite get_connected.
    change (FeatureFlagService.CACHE_KEY_PREFIX +:+ "env:" +:+ e +:+ ":" +:+ flagName)
      with ("ff:" +:+ "env:" +:+ e +:+ ":" +:+ flagName).
    now destruct (ks !! ("ff:" +:+ "env:" +:+ e +:+ ":" +:+ flagName)). }
  destruct (FeatureFlagService.present (context ≫= FeatureFlagService.userId)) as [u|];
    [|exact Henv].
  unfold bind at 1. rewrite get_connected.
  change (FeatureFlagService.CACHE_KEY_PREFIX +:+ "user:" +:+ u +:+ ":" +:+ flagName)
    with ("ff:" +:+ "user:" +:+ u +:+ ":" +:+ flagName).
  destruct (ks !! ("ff:" +:+ "user:" +:+ u +:+ ":" +:+ flagName)) as [entry|];
    [reflexivity | exact Henv].
Qed.

(** X23. [isEnabled] never throws.  In a world whose Redis client was
    never initialised or is closed it answers [false] (the feature is
    treated as disabled) and changes nothing; and with the store
    connected, a flag that is set nowhere (no cache entry, no global,
    user or environment flag) is [false] and that answer is not
    cached. *)
Theorem isEnabled_never_throws (flagName : string)
    (context : option FeatureFlagService.FeatureFlagContext) (w : World) :
  (exists b w', FeatureFlagService.isEnabled flagName context w = (Ok b, w')) /\
  (match redisClient w with
   | Some client => isOpen client = false
   | None => True
   end ->
   FeatureFlagService.isEnabled flagName context w = (Ok false, w)) /\
  (forall ks t,
      w = connected ks t ->
      (forall key, String.prefix "ff:" key = true -> ks !! key = None) ->
      FeatureFlagService.isEnabled flagName context w = (Ok false, w)).
Proof.
  split; [|split].
  - destruct w as [[[[] ks]|] t]; try (eexists; eexists; reflexivity).
    change {| redisClient := Some {| isOpen := true; keyspace := ks |}; clock := t |}
      with (connected ks t).
    rewrite isEnabled_connected.
    repeat match goal with
           | |- context [match ?o with Some _ => _ | None => _ end] => destruct o
           end; eexists; eexists; reflexivity.
  - intros Hdown. destruct w as [[[[] ks]|] t]; simpl in Hdown; try discriminate;
      reflexivity.
  - intros ks t -> Hnone. rewrite isEnabled_connected.
    assert (Hcache : ks !! FeatureFlagService.buildCacheKey flagName context = None).
    { apply Hnone. unfold FeatureFlagService.buildCacheKey,
        FeatureFlagService.CACHE_KEY_PREFIX.
      repeat match goal with
             | |- context [match ?o with Some _ => _ | None => _ end] => destruct o
             end; apply (prefix_append "ff:"). }
    rewrite Hcache, (Hnone ("ff:" +:+ flagName)) by apply (prefix_append "ff:").
    destruct (FeatureFlagService.present (context ≫= FeatureFlagService.userId)) as [u|];
      [rewrite (Hnone ("ff:" +:+ "user:" +:+ u +:+ ":" +:+ flagName))
         by apply (prefix_append "ff:")|];
      (destruct (FeatureFlagService.present (context ≫= FeatureFlagService.environment))
         as [e|];
       [now rewrite (Hnone ("ff:" +:+ "env:" +:+ e +:+ ":" +:+ flagName))
          by apply (prefix_append "ff:")
       | reflexivity]).
Qed.

Lemma isEnabled_never_throws_witness :
  let w := {| redisClient := Some {| isOpen := false; keyspace := ∅ |}; clock := 0 |} in
  FeatureFlagService.isEnabled "beta" None w = (Ok false, w) /\
  FeatureFlagService.isEnabled "beta" None (connected ∅ 0) = (Ok false, connected ∅ 0).
Proof.
  intros w. split.
  - exact (proj1 (proj2 (isEnabled_never_throws "beta" None w)) eq_refl).
  - apply (proj2 (proj2 (isEnabled_never_throws "beta" None (connected ∅ 0))) ∅ 0 eq_refl).
    intros key _. apply lookup_empty.
Defined.

(** X24. With the store connected and no cached answer, the global
    flag decides alone: when it is set, [isEnabled] is [true] exactly
    when its value is "true", whatever the flags of the user and of the
    environment, and the answer is cached for 300 s under the cache key
    of the context; a user flag is consulted only when no global flag
    is set, and an environment flag only when neither decides. *)
Theorem isEnabled_precedence (flagName : string)
    (context : option FeatureFlagService.FeatureFlagContext)
    (ks : gmap string Entry) (t : Z) :
  let cacheKey := FeatureFlagService.buildCacheKey flagName context in
  let decided flag :=
    (Ok (String.eqb flag "true"),
     connected (<[cacheKey := {| value := if String.eqb flag "true"
                                          then "true" else "false";
                                 ttl := 300 |}]> ks) t) in
  ks !! cacheKey = None ->
  (forall entry,
      ks !! ("ff:" +:+ flagName) = Some entry ->
      FeatureFlagService.isEnabled flagName context (connected ks t)
        = decided (value entry)) /\
  (forall u entry,
      ks !! ("ff:" +:+ flagName) = None ->
      FeatureFlagService.present (context ≫= FeatureFlagService.userId) = Some u ->
      ks !! ("ff:" +:+ "user:" +:+ u +:+ ":" +:+ flagName) = Some entry ->
      FeatureFlagService.isEnabled flagName context (connected ks t)
        = decided (value entry)) /\
  (forall e entry,
      ks !! ("ff:" +:+ flagName) = None ->
      match FeatureFlagService.present (context ≫= FeatureFlagService.userId) with
      | Some u => ks !! ("ff:" +:+ "user:" +:+ u +:+ ":" +:+ flagName) = None
      | None => True
      end ->
      FeatureFlagService.present (context ≫= FeatureFlagService.environment) = Some e ->
      ks !! ("ff:" +:+ "env:" +:+ e +:+ ":" +:+ flagName) = Some entry ->
      FeatureFlagService.isEnabled flagName context (connected ks t)
        = decided (value entry)).
Proof.
  intros cacheKey decided Hmiss.
  pose proof (isEnabled_connected flagName context ks t) as Hrun.
  cbv zeta in Hrun. fold cacheKey in Hrun. rewrite Hmiss in Hrun.
  split; [|split].
  - intros entry Hg. rewrite Hrun, Hg. unfold decided.
    now destruct (String.eqb (value entry) "true").
  - intros u entry Hg Hu Hf. rewrite Hrun, Hg, Hu, Hf. unfold decided.
    now destruct (String.eqb (value entry) "true").
  - intros e entry Hg Hu He Hf. rewrite Hrun, Hg.
    destruct (FeatureFlagService.present (context ≫= FeatureFlagService.userId)) as [u|];
      [rewrite Hu|]; rewrite He, Hf; unfold decided;
      now destruct (String.eqb (value entry) "true").
Qed.

Lemma isEnabled_precedence_witness :
  let context := Some {| FeatureFlagService.userId := Some "u1";
                         FeatureFlagService.environment := Some "production" |} in
  let ks := <["ff:beta" := {| value := "false"; ttl := -1 |}]>
              (<["ff:user:u1:beta" := {| value := "true"; ttl := -1 |}]>
                 (∅ : gmap string Entry)) in
  FeatureFlagService.isEnabled "beta" context (connected ks 0)
  = (Ok false,
     connected (<["ff:cache:beta:user:u1" := {| value := "false"; ttl := 300 |}]> ks) 0).
Proof.
  intros context ks.
  exact (proj1 (isEnabled_precedence "beta" context ks 0 eq_refl)
           {| value := "false"; ttl := -1 |} eq_refl).
Defined.

(** X25. A cached answer is final while it lasts.  Once [isEnabled] has
    answered on a connected store and the cache entry of the context is
    there afterwards, every later [isEnabled] for the same flag and
    context gives the same answer and changes nothing, as long as that
    entry stays, whatever the global, user and environment flags have
    become in the meantime. *)
Theorem isEnabled_cache_is_sticky (flagName : string)
    (context : option FeatureFlagService.FeatureFlagContext)
    (ks ks' : gmap string Entry) (t : Z) (b : bool) (cached : Entry) :
  FeatureFlagService.isEnabled flagName context (connected ks t)
    = (Ok b, connected ks' t) ->
  ks' !! FeatureFlagService.buildCacheKey flagName context = Some cached ->
  forall (ks2 : gmap string Entry) later,
    ks2 !! FeatureFlagService.buildCacheKey flagName context = Some cached ->
    FeatureFlagService.isEnabled flagName context (connected ks2 later)
      = (Ok b, connected ks2 later).
Proof.
  intros Hrun Hcached ks2 later Hstill.
  assert (Hb : String.eqb (value cached) "true" = b).
  { rewrite isEnabled_connected in Hrun. cbv zeta in Hrun.
    set (cacheKey := FeatureFlagService.buildCacheKey flagName context) in *.
    assert (Hdecided : forall flag,
               (Ok (String.eqb flag "true"),
                connected (<[cacheKey := {| value := FeatureFlagService.String_of_bool
                                                       (String.eqb flag "true");
                                            ttl := 300 |}]> ks) t)
               = (Ok b, connected ks' t) ->
               String.eqb (value cached) "true" = b).
    { intros flag [= Hval Hks]. subst ks'. rewrite lookup_insert_eq in Hcached.
      injection Hcached as <-. simpl. rewrite String_of_bool_true. exact Hval. }
    assert (Hsame : (Ok false, connected ks t) = (Ok b, connected ks' t) ->
                    ks !! cacheKey = None -> String.eqb (value cached) "true" = b).
    { intros [= <- Hks] Hnone. subst ks'. congruence. }
    destruct (ks !! cacheKey) as [c|] eqn:Hc.
    - injection Hrun as Hval Hks. subst ks'. congruence.
    - repeat match type of Hrun with
             | context [match ?o with Some _ => _ | None => _ end] => destruct o
             end; eauto. }
  rewrite isEnabled_connected. cbv zeta. now rewrite Hstill, Hb.
Qed.

Lemma isEnabled_cache_is_sticky_witness :
  let ks := <["ff:beta" := {| value := "true"; ttl := -1 |}]> (∅ : gmap string Entry) in
  let cached := {| value := "true"; ttl := 300 |} in
  let ks' := <["ff:cache:beta" := cached]> ks in
  let ks2 := <["ff:beta" := {| value := "false"; ttl := -1 |}]> ks' in
  FeatureFlagService.isEnabled "beta" None (connected ks 0) = (Ok true, connected ks' 0) /\
  FeatureFlagService.isEnabled "beta" None (connected ks2 1000)
    = (Ok true, connected ks2 1000).
Proof.
  intros ks cached ks' ks2.
  assert (Hrun : FeatureFlagService.isEnabled "beta" None (connected ks 0)
                 = (Ok true, connected ks' 0)) by reflexivity.
  split; [exact Hrun|].
  exact (isEnabled_cache_is_sticky "beta" None ks ks' 0 true cached Hrun eq_refl
           ks2 1000 eq_refl).
Defined.

Lemma plain_cons c s :
  plain (String c s) = true -> Ascii.eqb c "*" = false /\ plain s = true.
Proof.
  simpl. intros H. apply andb_true_iff in H as [Hc Hs]. split; [|exact Hs].
  apply negb_true_iff in Hc. unfold special in Hc.
  now destruct (Ascii.eqb c "*").
Qed.

Lemma glob_plain_prefix p q : forall s,
  plain p = true -> redis.glob (p +:+ q) (p +:+ s) = redis.glob q s.
Proof.
  induction p as [|a p IH]; intros s Hp; [reflexivity|].
  apply plain_cons in Hp as [Ha Hp].
  change (redis.glob (String a (p +:+ q)) (String a (p +:+ s)) = redis.glob q s).
  simpl. rewrite Ha, Ascii.eqb_refl. simpl. now apply IH.
Qed.

Lemma glob_plain_exact p q :
  plain p = true -> redis.glob (p +:+ q) p = redis.glob q "".
Proof.
  induction p as [|a p IH]; intros Hp; [reflexivity|].
  apply plain_cons in Hp as [Ha Hp].
  change (redis.glob (String a (p +:+ q)) (String a p) = redis.glob q "").
  simpl. rewrite Ha, Ascii.eqb_refl. simpl. now apply IH.
Qed.

Lemma glob_plain_length p q : forall s,
  plain p = true -> redis.glob (p +:+ q) s = true -> (String.length p <= String.length s)%nat.
Proof.
  induction p as [|a p IH]; intros s Hp Hg; [simpl; lia|].
  apply plain_cons in Hp as [Ha Hp].
  change (redis.glob (String a (p +:+ q)) s = true) in Hg.
  simpl in Hg. rewrite Ha in Hg.
  destruct s as [|b s]; [discriminate|].
  apply andb_true_iff in Hg as [_ Hg]. simpl. apply IH in Hg; [lia | exact Hp].
Qed.

Lemma lookup_foldr_delete_cases (m : gmap string Entry) js j :
  foldr delete m js !! j = if decide (j ∈ js) then None else m !! j.
Proof.
  case_decide as H.
  - now apply lookup_foldr_delete.
  - now apply lookup_foldr_delete_not_elem_of.
Qed.

Lemma disableGlobal_connected flagName (ks : gmap string Entry) t :
  let ks1 := <["ff:" +:+ flagName := {| value := "false"; ttl := -1 |}]> ks in
  let pattern := "ff:" +:+ "cache:" +:+ flagName +:+ ":*" in
  exists ks' : gmap string Entry,
    FeatureFlagService.disableGlobal flagName (connected ks t) = (Ok tt, connected ks' t) /\
    forall k, ks' !! k = if redis.glob pattern k then None else ks1 !! k.
Proof.
  intros ks1 pattern.
  set (keys := filter (fun k => redis.glob pattern k = true) (map_to_list ks1).*1).
  exists (foldr delete ks1 keys). split.
  - unfold FeatureFlagService.disableGlobal, bind at 1.
    rewrite getRedisClient_connected. unfold bind at 1.
    change (redis_commands.set (FeatureFlagService.CACHE_KEY_PREFIX +:+ flagName) "false"
              (connected ks t)) with (@Ok unit tt, connected ks1 t).
    unfold FeatureFlagService.invalidateCache, bind.
    rewrite getRedisClient_connected, keys_connected.
    change (FeatureFlagService.CACHE_KEY_PREFIX +:+ "cache:" +:+ flagName +:+ ":*")
      with pattern. fold keys.
    now destruct keys.
  - intros k. rewrite lookup_foldr_delete_cases.
    destruct (redis.glob pattern k) eqn:Hg.
    + destruct (ks1 !! k) as [entry|] eqn:Hk.
      * rewrite decide_True; [reflexivity|]. apply elem_of_keys. eauto.
      * now case_decide.
    + rewrite decide_False; [reflexivity|].
      intros Hin. apply elem_of_keys in Hin as [Hg' _]. congruence.
Qed.

Lemma length_append s1 s2 :
  String.length (s1 +:+ s2) = (String.length s1 + String.length s2)%nat.
Proof. induction s1 as [|c s1 IH]; simpl; [reflexivity | now rewrite IH]. Qed.

(** X26. The kill switch and the cache.  For a flag name without the
    special characters of glob patterns, [disableGlobal] on a connected
    store sets the global flag to "false" and clears the cached answers
    of the flag that carry a user or an environment, so that [isEnabled]
    with such a context answers [false] on the store it leaves; but the
    pattern it clears with does not match the cache key of a check
    without context, so on that store [isEnabled] without context still
    returns the answer cached before the switch. *)
Theorem disableGlobal_and_cached_answers (flagName : string)
    (ks : gmap string Entry) (t : Z) :
  plain flagName = true ->
  exists ks' : gmap string Entry,
    FeatureFlagService.disableGlobal flagName (connected ks t) = (Ok tt, connected ks' t) /\
    (forall context later,
        FeatureFlagService.present (context ≫= FeatureFlagService.userId) <> None \/
        FeatureFlagService.present (context ≫= FeatureFlagService.environment) <> None ->
        (FeatureFlagService.isEnabled flagName context (connected ks' later)).1
          = Ok false) /\
    (forall context cached later,
        FeatureFlagService.present (context ≫= FeatureFlagService.userId) = None ->
        FeatureFlagService.present (context ≫= FeatureFlagService.environment) = None ->
        ks !! ("ff:" +:+ "cache:" +:+ flagName) = Some cached ->
        FeatureFlagService.isEnabled flagName context (connected ks' later)
          = (Ok (String.eqb (value cached) "true"), connected ks' later)).
Proof.
  intros Hplain.
  destruct (disableGlobal_connected flagName ks t) as (ks' & Hrun & Hks').
  cbv zeta in Hks'.
  set (pattern := "ff:" +:+ "cache:" +:+ flagName +:+ ":*") in *.
  assert (Hglobal : ks' !! ("ff:" +:+ flagName) = Some {| value := "false"; ttl := -1 |}).
  { rewrite Hks'.
    replace (redis.glob pattern ("ff:" +:+ flagName)) with false.
    - apply lookup_insert_eq.
    - symmetry. apply not_true_is_false. intros Hg.
      change (redis.glob (("cache:" +:+ flagName) +:+ ":*") flagName = true) in Hg.
      apply glob_plain_length in Hg; [|exact Hplain].
      rewrite length_append in Hg. simpl in Hg. lia. }
  exists ks'. split; [exact Hrun|]. split.
  - intros context later Hctx.
    rewrite isEnabled_connected. cbv zeta.
    assert (Hmiss : ks' !! FeatureFlagService.buildCacheKey flagName context = None).
    { rewrite Hks'. unfold FeatureFlagService.buildCacheKey.
      destruct (FeatureFlagService.present (context ≫= FeatureFlagService.userId)) as [u|].
      - replace (redis.glob pattern _) with true; [reflexivity|]. symmetry.
        change (redis.glob (flagName +:+ ":*") (flagName +:+ ":user:" +:+ u) = true).
        rewrite glob_plain_prefix by exact Hplain. apply (glob_star ("user:" +:+ u)).
      - destruct (FeatureFlagService.present (context ≫= FeatureFlagService.environment))
          as [e|]; [|destruct Hctx; congruence].
        replace (redis.glob pattern _) with true; [reflexivity|]. symmetry.
        change (redis.glob (flagName +:+ ":*") (flagName +:+ ":env:" +:+ e) = true).
        rewrite glob_plain_prefix by exact Hplain. apply (glob_star ("env:" +:+ e)). }
    now rewrite Hmiss, Hglobal.
  - intros context cached later Hu He Hcached.
    rewrite isEnabled_connected. cbv zeta.
    unfold FeatureFlagService.buildCacheKey. rewrite Hu, He.
    change (FeatureFlagService.CACHE_KEY_PREFIX +:+ "cache:" +:+ flagName)
      with ("ff:" +:+ "cache:" +:+ flagName).
    assert (Hkept : ks' !! ("ff:" +:+ "cache:" +:+ flagName) = Some cached).
    { rewrite Hks'.
      replace (redis.glob pattern ("ff:" +:+ "cache:" +:+ flagName)) with false.
      - rewrite lookup_insert_ne; [exact Hcached|].
        intros H. cbn in H. injection H as H.
        apply (f_equal String.length) in H. simpl in H. lia.
      - symmetry.
        change (redis.glob (flagName +:+ ":*") flagName = false).
        now rewrite glob_plain_exact by exact Hplain. }
    now rewrite Hkept.
Qed.

Lemma disableGlobal_and_cached_answers_witness :
  let ks := <["ff:cache:beta" := {| value := "true"; ttl := 300 |}]>
              (<["ff:cache:beta:user:u1" := {| value := "true"; ttl := 300 |}]>
                 (<["ff:beta" := {| value := "true"; ttl := -1 |}]>
                    (∅ : gmap string Entry))) in
  let u1 := Some {| FeatureFlagService.userId := Some "u1";
                    FeatureFlagService.environment := None |} in
  exists ks' : gmap string Entry,
    FeatureFlagService.disableGlobal "beta" (connected ks 0) = (Ok tt, connected ks' 0) /\
    (FeatureFlagService.isEnabled "beta" u1 (connected ks' 1000)).1 = Ok false /\
    FeatureFlagService.isEnabled "beta" None (connected ks' 1000)
      = (Ok true, connected ks' 1000).
Proof.
  intros ks u1.
  destruct (disableGlobal_and_cached_answers "beta" ks 0 eq_refl)
    as (ks' & Hrun & Hctx & Hfree).
  exists ks'. split; [exact Hrun|]. split.
  - apply Hctx. left. discriminate.
  - exact (Hfree None {| value := "true"; ttl := 300 |} 1000 eq_refl eq_refl eq_refl).
Defined.
